(** * node-support-range: engine-range resolution

    A shallow embedding of the dependency engine-range analysis of the
    extension: [src/utils/analyzeProjectIncludes.js] (collector, resolver and
    orchestrator), [src/utils/common.js] (range formatter) and the two
    generations of the version catalogs ([src/shared/constants.js] and the
    older [constants.js] with release aliases).

    JavaScript values are modelled by the inductive type [value]; the effects
    of the analysis (file-system probes, host notifications, console
    diagnostics, the two mutable range arrays, exceptions) are threaded through
    the monad [M].  The functions of the [semver] package are parameters of
    the analysis; module [Semver] gives an executable model of the part of
    that package the catalogs and the examples need.

    Further sections embed the update of the manifest, the command and its
    task, the hover provider and the services with their catalogs; what they
    do to the editor is threaded through the monad [H]. *)

From Stdlib Require Import String Ascii List Bool Arith NArith ZArith Lia.
From Stdlib Require Import Permutation Sorted DecimalString DecimalNat FinFun.
Import ListNotations.
Local Open Scope string_scope.
Local Open Scope list_scope.
Set Warnings "-register-all".

(** ** JavaScript values *)

(** A value as [JSON.parse] produces it, together with [undefined].  Numbers
    are only ever inspected for truthiness, so integers stand for them.  The
    properties of an object are kept in source order. *)
Inductive value : Type :=
| VUndefined
| VNull
| VBool (b : bool)
| VNum (n : Z)
| VStr (s : string)
| VArr (items : list value)
| VObj (props : list (string * value)).

(** [ToBoolean]. *)
Definition truthy (v : value) : bool :=
  match v with
  | VUndefined | VNull => false
  | VBool b => b
  | VNum n => negb (n =? 0)%Z
  | VStr s => negb (s =? "")
  | VArr _ | VObj _ => true
  end.

(** An exception value; [text] is what [String(error)] renders. *)
Inductive js_error : Type := JsError (text : string).

Definition error_text (e : js_error) : string :=
  match e with JsError t => t end.

Inductive outcome (A : Type) : Type :=
| Ok (a : A)
| Throw (e : js_error).
Arguments Ok {A} a.
Arguments Throw {A} e.

(** The last binding of a key wins, as in [JSON.parse]. *)
Fixpoint lookup_prop (props : list (string * value)) (k : string) : value :=
  match props with
  | [] => VUndefined
  | (k', v) :: rest =>
      match lookup_prop rest k with
      | VUndefined => if k' =? k then v else VUndefined
      | found => found
      end
  end.

(** [v.k] for the property names the analysis reads ([dependencies],
    [devDependencies], [engines], [node], [npm]); none of them is a member of
    a built-in prototype, so primitives and arrays answer [undefined]. *)
Definition get_prop (v : value) (k : string) : outcome value :=
  match v with
  | VUndefined | VNull =>
      Throw (JsError ("TypeError: Cannot read properties of null or undefined (reading "
                        ++ k ++ ")")%string)
  | VObj props => Ok (lookup_prop props k)
  | _ => Ok VUndefined
  end.

(** [arr[i]] on an array of strings. *)
Definition index (l : list string) (i : nat) : value :=
  match nth_error l i with
  | Some s => VStr s
  | None => VUndefined
  end.

(** ** Object keys *)

Definition is_digit (c : ascii) : bool :=
  let n := nat_of_ascii c in ((48 <=? n) && (n <=? 57))%nat.

Definition digit_val (c : ascii) : N := N.of_nat (nat_of_ascii c - 48).

Fixpoint digits_val (acc : N) (s : string) : N :=
  match s with
  | EmptyString => acc
  | String c s' => digits_val (acc * 10 + digit_val c) s'
  end.

Fixpoint all_chars (p : ascii -> bool) (s : string) : bool :=
  match s with
  | EmptyString => true
  | String c s' => p c && all_chars p s'
  end.

(** [0|[1-9][0-9]*]: the decimal numerals without a leading zero. *)
Definition numeric_identifier (s : string) : option N :=
  match s with
  | EmptyString => None
  | String c rest =>
      if all_chars is_digit s
      then if (c =? "0")%char && negb (rest =? "") then None
           else Some (digits_val 0 s)
      else None
  end.

(** An array index in the sense of the language: a canonical numeral below
    [2^32 - 1]. *)
Definition array_index (k : string) : option N :=
  match numeric_identifier k with
  | Some n => if (n <? 4294967295)%N then Some n else None
  | None => None
  end.

Definition string_of_nat (n : nat) : string :=
  NilZero.string_of_uint (Nat.to_uint n).

Fixpoint set_prop (props : list (string * value)) (k : string) (v : value)
  : list (string * value) :=
  match props with
  | [] => [(k, v)]
  | (k', v') :: rest =>
      if k' =? k then (k', v) :: rest else (k', v') :: set_prop rest k v
  end.

Fixpoint chars_from (i : nat) (s : string) : list (string * value) :=
  match s with
  | EmptyString => []
  | String c s' => (string_of_nat i, VStr (String c EmptyString)) :: chars_from (S i) s'
  end.

Fixpoint items_from (i : nat) (l : list value) : list (string * value) :=
  match l with
  | [] => []
  | v :: l' => (string_of_nat i, v) :: items_from (S i) l'
  end.

(** The own enumerable properties a spread copies out of [v]. *)
Definition own_props (v : value) : list (string * value) :=
  match v with
  | VObj props => fold_left (fun acc kv => set_prop acc (fst kv) (snd kv)) props []
  | VArr items => items_from 0 items
  | VStr s => chars_from 0 s
  | _ => []
  end.

(** [{ ...a, ...b }], as the list of properties in creation order. *)
Definition spread2 (a b : value) : list (string * value) :=
  fold_left (fun acc kv => set_prop acc (fst kv) (snd kv)) (own_props b) (own_props a).

Fixpoint insert_index (k : N * string) (l : list (N * string)) : list (N * string) :=
  match l with
  | [] => [k]
  | k' :: l' => if (fst k <=? fst k')%N then k :: l else k' :: insert_index k l'
  end.

(** [Object.keys]: array indices in ascending order, then the other keys in
    creation order. *)
Definition object_keys (props : list (string * value)) : list string :=
  let keys := map fst props in
  let idx := fold_right (fun k acc =>
                 match array_index k with
                 | Some n => insert_index (n, k) acc
                 | None => acc
                 end) [] keys in
  map snd idx ++ filter (fun k => match array_index k with Some _ => false | None => true end) keys.

(** [a || {}]. *)
Definition or_empty (v : value) : value := if truthy v then v else VObj [].

(** ** Effects *)

Inductive engine_kind : Type := Node | Npm.

(** What the analysis does to its surroundings, in program order.  The host
    always provides [window] (the optional chaining on it never short-cuts)
    and a working progress sink. *)
Inductive event : Type :=
| FsExists (path : string)
    (** [existsSync(path)] *)
| FsRead (path : string)
    (** [JSON.parse(readFileSync(path, "utf8"))] *)
| ShowErrorMessage (msg : string)
    (** [window.showErrorMessage(msg)] *)
| ProgressReport (increment_num increment_den : nat) (message : option string)
    (** [progress.report({ increment: num / den, message })] *)
| ProgressShare (depCount totalDeps : nat) (message : option string)
    (** [progress.report({ increment: (depCount / totalDeps) * 80, message })]:
        the increment is the floating-point value of that expression, which
        the event names by its two operands *)
| WarnDependencyUnparsable (dep : string) (e : js_error)
| WarnDependencyNotFound (dep : string)
| ConsoleError (e : js_error)
| WarnInvalidRange (kind : engine_kind) (range : value) (version : string).

(** The mutable state of one run: the two arrays the collector pushes to and
    the log of events. *)
Record store : Type := mkStore {
  allNodeRanges : list value;
  allNpmRanges : list value;
  trace : list event
}.

Definition initial_store : store := mkStore [] [] [].

Definition M (A : Type) : Type := store -> outcome A * store.

Definition ret {A} (a : A) : M A := fun s => (Ok a, s).

Definition bind {A B} (m : M A) (f : A -> M B) : M B :=
  fun s =>
    match m s with
    | (Ok a, s') => f a s'
    | (Throw e, s') => (Throw e, s')
    end.

Declare Scope js_scope.
Delimit Scope js_scope with js.
Notation "x <- m ;; k" := (bind m (fun x => k))
  (at level 61, m at next level, right associativity) : js_scope.
Notation "m ;; k" := (bind m (fun _ => k))
  (at level 61, right associativity) : js_scope.
Local Open Scope js_scope.

(** [try { body } catch (error) { handler }]: what [body] did to the store
    before throwing stays done. *)
Definition try_catch {A} (body : M A) (handler : js_error -> M A) : M A :=
  fun s =>
    match body s with
    | (Ok a, s') => (Ok a, s')
    | (Throw e, s') => handler e s'
    end.

Definition lift {A} (o : outcome A) : M A := fun s => (o, s).

Definition emit (ev : event) : M unit :=
  fun s => (Ok tt, mkStore (allNodeRanges s) (allNpmRanges s) (trace s ++ [ev])).

Definition push_node (v : value) : M unit :=
  fun s => (Ok tt, mkStore (allNodeRanges s ++ [v]) (allNpmRanges s) (trace s)).

Definition push_npm (v : value) : M unit :=
  fun s => (Ok tt, mkStore (allNodeRanges s) (allNpmRanges s ++ [v]) (trace s)).

Definition get_node_ranges : M (list value) := fun s => (Ok (allNodeRanges s), s).
Definition get_npm_ranges : M (list value) := fun s => (Ok (allNpmRanges s), s).

(** [Array.prototype.every]: stops at the first callback answering false. *)
Fixpoint js_every {A} (f : A -> M bool) (l : list A) : M bool :=
  match l with
  | [] => ret true
  | x :: l' => b <- f x ;; if b then js_every f l' else ret false
  end.

(** [Array.prototype.filter]. *)
Fixpoint js_filter {A} (f : A -> M bool) (l : list A) : M (list A) :=
  match l with
  | [] => ret []
  | x :: l' =>
      b <- f x ;;
      rest <- js_filter f l' ;;
      ret (if b then x :: rest else rest)
  end.

(** A [for ... of] loop whose body sees the 1-based iteration count. *)
Fixpoint js_for_of {A} (body : nat -> A -> M unit) (count : nat) (l : list A) : M unit :=
  match l with
  | [] => ret tt
  | x :: l' => body (S count) x ;; js_for_of body (S count) l'
  end.

(** ** The [semver] package *)

(** Modelled after the documented behaviour of the [semver] package in strict
    mode, which is not part of this repository: [valid], [compare] and
    [satisfies] on full versions [[v]MAJOR.MINOR.PATCH[-prerelease][+build]]
    and on ranges made of [||]-separated sets of primitive comparators
    ([<], [<=], [>], [>=], [=] or none, each followed by a full version).
    Caret, tilde, hyphen and x-ranges and partial versions are outside the
    model: it answers false on them where the package may answer true, and
    the development evaluates it on ranges of the primitive form only.  The
    theorems about the resolver hold for every implementation of
    [satisfies], this one included. *)
Module Semver.

Inductive ident : Type :=
| INum (n : N)
| IAlpha (s : string).

Record version : Type := mkVersion {
  major : N;
  minor : N;
  patch : N;
  prerelease : list ident;
  build : list string
}.

Definition MAX_LENGTH : nat := 256.
Definition MAX_SAFE_INTEGER : N := 9007199254740991.

(** The blanks [trim] strips and [\s] matches, among the characters below
    256: tab to carriage return, the space and the no-break space. *)
Definition is_space (c : ascii) : bool :=
  let n := nat_of_ascii c in ((n =? 32) || ((9 <=? n) && (n <=? 13)) || (n =? 160))%nat.

Fixpoint trim_left (s : string) : string :=
  match s with
  | String c s' => if is_space c then trim_left s' else s
  | EmptyString => EmptyString
  end.

Fixpoint trim_right (s : string) : string :=
  match s with
  | EmptyString => EmptyString
  | String c s' =>
      let t := trim_right s' in
      if is_space c && (t =? "") then EmptyString else String c t
  end.

Definition trim (s : string) : string := trim_right (trim_left s).

(** [s.split(sep)] for a one-character separator. *)
Fixpoint split_on (sep : ascii) (s : string) : list string :=
  match s with
  | EmptyString => [EmptyString]
  | String c s' =>
      if (c =? sep)%char then EmptyString :: split_on sep s'
      else match split_on sep s' with
           | w :: ws => String c w :: ws
           | [] => [String c EmptyString]
           end
  end.

(** The text before the first [sep], and the text after it if there is one. *)
Fixpoint cut_at (sep : ascii) (s : string) : string * option string :=
  match s with
  | EmptyString => (EmptyString, None)
  | String c s' =>
      if (c =? sep)%char then (EmptyString, Some s')
      else let (a, b) := cut_at sep s' in (String c a, b)
  end.

(** [[0-9A-Za-z-]]. *)
Definition is_ident_char (c : ascii) : bool :=
  let n := nat_of_ascii c in
  (((48 <=? n) && (n <=? 57)) || ((65 <=? n) && (n <=? 90))
   || ((97 <=? n) && (n <=? 122)) || (n =? 45))%nat.

Definition parse_prerelease_ident (id : string) : option ident :=
  if (id =? "") || negb (all_chars is_ident_char id) then None
  else if all_chars is_digit id
       then option_map INum (numeric_identifier id)
       else Some (IAlpha id).

Definition parse_build_ident (id : string) : option string :=
  if (id =? "") || negb (all_chars is_ident_char id) then None else Some id.

Fixpoint sequence {A} (l : list (option A)) : option (list A) :=
  match l with
  | [] => Some []
  | None :: _ => None
  | Some a :: l' => option_map (cons a) (sequence l')
  end.

Definition parse_dotted {A} (f : string -> option A) (part : option string)
  : option (list A) :=
  match part with
  | None => Some []
  | Some s => sequence (map f (split_on "." s))
  end.

(** The version after the optional [v]: the body of the FULLPLAIN pattern. *)
Definition parse_plain (s : string) : option version :=
  let s := match s with String "v"%char s' => s' | _ => s end in
  let (core_pre, build_part) := cut_at "+" s in
  let (core, pre_part) := cut_at "-" core_pre in
  match map numeric_identifier (split_on "." core) with
  | [Some ma; Some mi; Some pa] =>
      if ((ma <=? MAX_SAFE_INTEGER) && (mi <=? MAX_SAFE_INTEGER)
          && (pa <=? MAX_SAFE_INTEGER))%N
      then match parse_dotted parse_prerelease_ident pre_part,
                 parse_dotted parse_build_ident build_part with
           | Some pre, Some bld => Some (mkVersion ma mi pa pre bld)
           | _, _ => None
           end
      else None
  | _ => None
  end.

(** [new SemVer(raw)]; [None] when the constructor throws. *)
Definition parse (raw : string) : option version :=
  if (MAX_LENGTH <? String.length raw)%nat then None else parse_plain (trim raw).

(** Numeric identifiers are compared as the numbers they denote.  The
    package compares them as doubles, which is the same comparison for
    identifiers up to [2^53]; beyond that two different numerals can round to
    the same double, and this model is not the package there. *)
Definition compare_ident (a b : ident) : comparison :=
  match a, b with
  | INum x, INum y => (x ?= y)%N
  | INum _, IAlpha _ => Lt
  | IAlpha _, INum _ => Gt
  | IAlpha x, IAlpha y => String.compare x y
  end.

Fixpoint compare_idents (a b : list ident) : comparison :=
  match a, b with
  | [], [] => Eq
  | _ :: _, [] => Gt
  | [], _ :: _ => Lt
  | x :: a', y :: b' =>
      match compare_ident x y with
      | Eq => compare_idents a' b'
      | c => c
      end
  end.

Definition compare_pre (a b : list ident) : comparison :=
  match a, b with
  | [], [] => Eq
  | _ :: _, [] => Lt
  | [], _ :: _ => Gt
  | _, _ => compare_idents a b
  end.

Definition lex (c : comparison) (k : comparison) : comparison :=
  match c with Eq => k | _ => c end.

(** Precedence; build metadata is ignored. *)
Definition compare_versions (a b : version) : comparison :=
  lex (major a ?= major b)%N
    (lex (minor a ?= minor b)%N
       (lex (patch a ?= patch b)%N (compare_pre (prerelease a) (prerelease b)))).

(** [valid(v)], as the truth value of what it returns. *)
Definition valid (v : string) : bool :=
  match parse v with Some _ => true | None => false end.

(** [compare(a, b)]; [None] when it throws because an argument is not a
    version. *)
Definition compare (a b : string) : option comparison :=
  match parse a, parse b with
  | Some va, Some vb => Some (compare_versions va vb)
  | _, _ => None
  end.

Inductive operator : Type := OpEq | OpLt | OpLe | OpGt | OpGe.

Inductive comparator : Type :=
| CAny
| CComp (op : operator) (operand : version).

Definition split_operator (tok : string) : operator * string :=
  match tok with
  | String ">"%char (String "="%char r) => (OpGe, r)
  | String "<"%char (String "="%char r) => (OpLe, r)
  | String ">"%char r => (OpGt, r)
  | String "<"%char r => (OpLt, r)
  | String "="%char r => (OpEq, r)
  | _ => (OpEq, tok)
  end.

Definition parse_comparator (tok : string) : option comparator :=
  let (op, rest) := split_operator tok in
  option_map (CComp op) (parse_plain rest).

(** The non-empty maximal runs of non-blank characters. *)
Fixpoint words_aux (cur : string) (s : string) : list string :=
  match s with
  | EmptyString => if cur =? "" then [] else [cur]
  | String c s' =>
      if is_space c
      then (if cur =? "" then words_aux "" s' else cur :: words_aux "" s')
      else words_aux (cur ++ String c EmptyString) s'
  end.

Definition words (s : string) : list string := words_aux "" s.

(** [s.split("||")]. *)
Fixpoint split_or (s : string) : list string :=
  match s with
  | EmptyString => [EmptyString]
  | String "|"%char (String "|"%char s') => EmptyString :: split_or s'
  | String c s' =>
      match split_or s' with
      | w :: ws => String c w :: ws
      | [] => [String c EmptyString]
      end
  end.

Definition parse_set (s : string) : option (list comparator) :=
  match words s with
  | [] => Some [CAny]
  | toks => sequence (map parse_comparator toks)
  end.

(** [new Range(r)]; [None] when the constructor throws. *)
Definition parse_range (r : string) : option (list (list comparator)) :=
  sequence (map parse_set (split_or r)).

Definition test_comparator (v : version) (c : comparator) : bool :=
  match c with
  | CAny => true
  | CComp op w =>
      match op, compare_versions v w with
      | OpEq, Eq => true
      | OpLt, Lt => true
      | OpLe, (Lt | Eq) => true
      | OpGt, Gt => true
      | OpGe, (Gt | Eq) => true
      | _, _ => false
      end
  end.

Definition allows_prerelease_of (v : version) (c : comparator) : bool :=
  match c with
  | CAny => false
  | CComp _ w =>
      match prerelease w with
      | [] => false
      | _ :: _ => ((major w =? major v) && (minor w =? minor v) && (patch w =? patch v))%N
      end
  end.

(** One comparator set against a version, with [includePrerelease: false]:
    a prerelease version only matches a set naming a prerelease of the same
    [major.minor.patch]. *)
Definition test_set (v : version) (set : list comparator) : bool :=
  forallb (test_comparator v) set
  && match prerelease v with
     | [] => true
     | _ :: _ => existsb (allows_prerelease_of v) set
     end.

(** [satisfies(version, range, { includePrerelease: false })] on ranges made
    of primitive comparators ([>=1.2.3 <2.0.0 || 3.0.0]).  The package catches
    the errors of its own parsers and answers false, whatever the arguments
    are; so does the model, which also answers false on the range syntax it
    does not cover (carets, tildes, hyphen and x-ranges, partial versions),
    where the package may answer true. *)
Definition satisfies (version : string) (range : value) : outcome bool :=
  match range with
  | VStr r =>
      match parse_range r, parse version with
      | Some sets, Some v => Ok (existsb (test_set v) sets)
      | _, _ => Ok false
      end
  | _ => Ok false
  end.

End Semver.

(** ** Sorting *)

(** [Array.prototype.sort(cmp)] is a stable sort; on a comparator that is a
    total preorder every stable sort returns the same array, here computed by
    insertion.  [None] stands for an exception thrown by the comparator. *)
Section Sort.
Context {A : Type}.
Variable cmp : A -> A -> option comparison.

Fixpoint sort_insert (x : A) (l : list A) : option (list A) :=
  match l with
  | [] => Some [x]
  | y :: l' =>
      match cmp x y with
      | None => None
      | Some Gt => option_map (cons y) (sort_insert x l')
      | Some _ => Some (x :: l)
      end
  end.

Fixpoint js_sort (l : list A) : option (list A) :=
  match l with
  | [] => Some []
  | x :: l' =>
      match js_sort l' with
      | None => None
      | Some sorted => sort_insert x sorted
      end
  end.
End Sort.

(** ** Catalog construction *)

(** [raw.filter(v => valid(v)).sort(compare)], for any [valid] and [compare];
    [None] when the comparator throws. *)
Definition build_catalog (valid : string -> bool)
    (compare : string -> string -> option comparison) (raw : list string)
  : option (list string) :=
  js_sort compare (filter valid raw).

(** The value of a module-level constant whose initialiser may throw; the
    [_loads] lemmas below show that the initialisers of the catalogs do not. *)
Definition loaded (init : option (list string)) : list string :=
  match init with
  | Some l => l
  | None => []
  end.

(** [src/shared/constants.js]. *)
Module SharedConstants.

Definition NODEJS_VERSIONS_LITERAL : list string :=
  [ "18.0.0"; "18.12.0"; "18.19.1"; "18.20.3";
    "20.0.0"; "20.5.0"; "20.11.1"; "20.15.1";
    "21.0.0"; "21.7.3"; "22.0.0"; "22.4.1" ].

Definition COMMON_NODEJS_VERSIONS_init : option (list string) :=
  js_sort Semver.compare NODEJS_VERSIONS_LITERAL.

Definition COMMON_NODEJS_VERSIONS : list string :=
  loaded COMMON_NODEJS_VERSIONS_init.

Definition NPM_VERSIONS_LITERAL : list string :=
  [ "8.0.0"; "8.19.4"; "9.0.0"; "9.9.3"; "10.0.0"; "10.8.1" ].

Definition COMMON_NPM_VERSIONS_init : option (list string) :=
  js_sort Semver.compare NPM_VERSIONS_LITERAL.

Definition COMMON_NPM_VERSIONS : list string :=
  loaded COMMON_NPM_VERSIONS_init.

End SharedConstants.

(** The older [constants.js], whose runtime list carries release aliases. *)
Module Constants.

Definition NODEJS_VERSIONS_WITH_ALIASES : list string :=
  [ "lts/hydrogen"; "18.20.8"; "lts/iron"; "20.19.1";
    "lts/jod"; "22.15.0"; "24.0.1" ].

Definition COMMON_NODEJS_VERSIONS_init : option (list string) :=
  build_catalog Semver.valid Semver.compare NODEJS_VERSIONS_WITH_ALIASES.

Definition COMMON_NODEJS_VERSIONS : list string :=
  loaded COMMON_NODEJS_VERSIONS_init.

Definition COMMON_NPM_VERSIONS_init : option (list string) :=
  js_sort Semver.compare [ "10.8.2"; "10.9.2"; "11.3.0" ].

Definition COMMON_NPM_VERSIONS : list string :=
  loaded COMMON_NPM_VERSIONS_init.

Definition DEFAULT_NODE_VERSION_RANGE : string := ">=0.10.0".
Definition NOTE_NO_DEPENDENCIES : string := "No dependencies to analyze.".

End Constants.

(** ** The range formatter ([src/utils/common.js]) *)

(** [!!v] for [v : string | null]. *)
Definition truthy_string (v : option string) : bool :=
  match v with
  | Some s => negb (s =? "")
  | None => false
  end.

(** The text a template literal inserts for [v]. *)
Definition template (v : option string) : string :=
  match v with
  | Some s => s
  | None => "null"
  end.

Definition formatVersionRange (minVersion maxVersion : option string) : option string :=
  if negb (truthy_string minVersion) && negb (truthy_string maxVersion) then None
  else
    let range := "" in
    let range :=
      if truthy_string minVersion
      then (range ++ ">=" ++ template minVersion)%string
      else range in
    let range :=
      if truthy_string maxVersion
      then ((if truthy_string minVersion then range ++ " " else range)
              ++ "<=" ++ template maxVersion)%string
      else range in
    Some range.

(** ** The analysis ([src/utils/analyzeProjectIncludes.js]) *)

Record ProjectAnalysisResult : Type := mkResult {
  projectPackageJsonPath : string;
  minNode : value;
  maxNode : value;
  minNpm : value;
  maxNpm : value;
  note : option string
}.

Section Analysis.

(** The file system: [existsSync], and [readFileSync] followed by
    [JSON.parse], which yields a value or throws. *)
Variable existsSync : string -> bool.
Variable readJsonSync : string -> outcome value.
(** [path.join]. *)
Variable join : list string -> string.
(** [semver.satisfies(version, range, { includePrerelease: false })]. *)
Variable satisfies : string -> value -> outcome bool.
(** The imported catalogs. *)
Variable COMMON_NODEJS_VERSIONS : list string.
Variable COMMON_NPM_VERSIONS : list string.

Definition fs_exists (path : string) : M bool :=
  emit (FsExists path) ;; ret (existsSync path).

Definition read_json (path : string) : M value :=
  emit (FsRead path) ;; lift (readJsonSync path).

(** The callback given to [every]: one version against one range.  The
    handler logs the error and a warning whose text quotes the range and the
    version; quoting is taken to succeed, as it does for every string. *)
Definition test_range (kind : engine_kind) (version : string) (rangeStr : value)
  : M bool :=
  try_catch
    (lift (satisfies version rangeStr))
    (fun _error =>
       emit (ConsoleError _error) ;;
       emit (WarnInvalidRange kind rangeStr version) ;;
       ret false).

Definition compatible_versions (kind : engine_kind) (catalog : list string)
    (ranges : list value) : M (list string) :=
  js_filter (fun version => js_every (test_range kind version) ranges) catalog.

(** The runtime block, lines 119-144 (the later service keeps it as the
    method of this name). *)
Definition calculateNodeRange (nodeRanges : list value) (hasDependencies : bool)
  : M (value * value) :=
  if (0 <? List.length nodeRanges)%nat then
    compatibleNodeVersions <- compatible_versions Node COMMON_NODEJS_VERSIONS nodeRanges ;;
    if (0 <? List.length compatibleNodeVersions)%nat
    then ret (index compatibleNodeVersions 0,
              index compatibleNodeVersions (List.length compatibleNodeVersions - 1))
    else ret (VNull, VNull)
  else if hasDependencies
  then ret (index COMMON_NODEJS_VERSIONS 0,
            index COMMON_NODEJS_VERSIONS (List.length COMMON_NODEJS_VERSIONS - 1))
  else ret (VNull, VNull).

(** The package-manager block, lines 146-167. *)
Definition calculateNpmRange (npmRanges : list value) : M (value * value) :=
  if (0 <? List.length npmRanges)%nat then
    compatibleNpmVersions <- compatible_versions Npm COMMON_NPM_VERSIONS npmRanges ;;
    if (0 <? List.length compatibleNpmVersions)%nat
    then ret (index compatibleNpmVersions 0,
              index compatibleNpmVersions (List.length compatibleNpmVersions - 1))
    else ret (VNull, VNull)
  else ret (VNull, VNull).

(** The body of the loop over the dependency names, lines 80-114. *)
Definition collect_dependency (nodeModulesPath : string) (totalDeps : nat)
    (depCount : nat) (depName : string) : M unit :=
  emit (ProgressShare depCount totalDeps
          (Some ("Analyzing " ++ depName ++ "...")%string)) ;;
  let depPackageJsonPath := join [nodeModulesPath; depName; "package.json"] in
  found <- fs_exists depPackageJsonPath ;;
  if found then
    try_catch
      (depPackageJson <- read_json depPackageJsonPath ;;
       engines <- lift (get_prop depPackageJson "engines") ;;
       if truthy engines then
         node <- lift (get_prop engines "node") ;;
         (if truthy node then push_node node else ret tt) ;;
         npm <- lift (get_prop engines "npm") ;;
         (if truthy npm then push_npm npm else ret tt)
       else
         push_node (VStr ">=0.10.0"))
      (fun error =>
         emit (WarnDependencyUnparsable depName error) ;;
         push_node (VStr ">=0.10.0"))
  else
    emit (WarnDependencyNotFound depName) ;;
    push_node (VStr ">=0.10.0").

(** [const allNodeRanges = []] and [const allNpmRanges = []]. *)
Definition declare_ranges : M unit :=
  fun s => (Ok tt, mkStore [] [] (trace s)).

Definition analyzeProjectIncludes (projectPath : string)
  : M (option ProjectAnalysisResult) :=
  let projectPackageJsonPath := join [projectPath; "package.json"] in
  found <- fs_exists projectPackageJsonPath ;;
  if negb found then
    emit (ShowErrorMessage ("package.json not found in " ++ projectPath)%string) ;;
    ret None
  else
    parsed <- try_catch
                (json <- read_json projectPackageJsonPath ;; ret (Some json))
                (fun error =>
                   emit (ShowErrorMessage
                           ("Error parsing " ++ projectPackageJsonPath ++ ": "
                              ++ error_text error)%string) ;;
                   ret None) ;;
    match parsed with
    | None => ret None
    | Some projectPackageJson =>
        deps <- lift (get_prop projectPackageJson "dependencies") ;;
        devDeps <- lift (get_prop projectPackageJson "devDependencies") ;;
        let dependencies := spread2 (or_empty deps) (or_empty devDeps) in
        if (List.length (object_keys dependencies) =? 0)%nat then
          ret (Some (mkResult projectPackageJsonPath VNull VNull VNull VNull
                       (Some "No dependencies to analyze.")))
        else
          emit (ProgressReport 10 1 (Some "Scanning dependencies...")) ;;
          let nodeModulesPath := join [projectPath; "node_modules"] in
          declare_ranges ;;
          let totalDeps := List.length (object_keys dependencies) in
          js_for_of (collect_dependency nodeModulesPath totalDeps) 0
            (object_keys dependencies) ;;
          emit (ProgressReport 90 1 (Some "Calculating version ranges...")) ;;
          nodeRanges <- get_node_ranges ;;
          node <- calculateNodeRange nodeRanges
                    (0 <? List.length (object_keys dependencies))%nat ;;
          npmRanges <- get_npm_ranges ;;
          npm <- calculateNpmRange npmRanges ;;
          emit (ProgressReport 100 1 None) ;;
          ret (Some (mkResult projectPackageJsonPath (fst node) (snd node)
                       (fst npm) (snd npm) None))
    end.

End Analysis.

(** The analysis as shipped: the catalogs of [src/shared/constants.js] and
    the model of the package's [satisfies]. *)
Definition analyze_shipped (existsSync : string -> bool)
    (readJsonSync : string -> outcome value) (join : list string -> string)
  : string -> M (option ProjectAnalysisResult) :=
  analyzeProjectIncludes existsSync readJsonSync join Semver.satisfies
    SharedConstants.COMMON_NODEJS_VERSIONS SharedConstants.COMMON_NPM_VERSIONS.

(** The resolver on its own arguments: the result pair of a run started on an
    empty store, or [None] if it throws. *)
Definition resolved (m : M (value * value)) : option (value * value) :=
  match fst (m initial_store) with
  | Ok r => Some r
  | Throw _ => None
  end.

(** ** Specification-side notions *)

(** [evs] appended to the log of [s], the arrays untouched. *)
Definition log (evs : list event) (s : store) : store :=
  mkStore (allNodeRanges s) (allNpmRanges s) (trace s ++ evs).

(** A version satisfies a range when [satisfies] answers true; a test that
    throws counts as not satisfied. *)
Definition holds (satisfies : string -> value -> outcome bool)
    (version : string) (range : value) : bool :=
  match satisfies version range with
  | Ok b => b
  | Throw _ => false
  end.

(** The versions of the catalog that satisfy every constraint, in catalog
    order. *)
Definition satisfying_sublist (satisfies : string -> value -> outcome bool)
    (catalog : list string) (constraints : list value) : list string :=
  filter (fun v => forallb (holds satisfies v) constraints) catalog.

(** (first, last) of a list of versions, (absent, absent) when it is empty. *)
Definition first_last (l : list string) : value * value :=
  match l with
  | [] => (VNull, VNull)
  | a :: _ => (VStr a, VStr (last l a))
  end.

(** The implementation of [satisfies] that answers false where the given one
    throws. *)
Definition recovering (satisfies : string -> value -> outcome bool)
  : string -> value -> outcome bool :=
  fun v r => Ok (holds satisfies v r).

(** [a] precedes or equals [b] under a comparator. *)
Definition le_by (compare : string -> string -> option comparison) (a b : string) : bool :=
  match compare a b with
  | Some Lt | Some Eq => true
  | _ => false
  end.

(** Every entry precedes or equals itself and every later entry. *)
Fixpoint ascending (compare : string -> string -> option comparison)
    (l : list string) : bool :=
  match l with
  | [] => true
  | a :: l' => le_by compare a a && forallb (le_by compare a) l' && ascending compare l'
  end.

(** The invariant of a resolved range over a catalog. *)
Definition range_invariant (compare : string -> string -> option comparison)
    (catalog : list string) (r : value * value) : Prop :=
  r = (VNull, VNull)
  \/ exists lo hi, r = (VStr lo, VStr hi) /\ In lo catalog /\ In hi catalog
                   /\ le_by compare lo hi = true.

(** [Object.keys(dependencies)] for a parsed manifest, as the analysis
    computes it. *)
Definition dependency_names (manifest : value) : outcome (list string) :=
  match get_prop manifest "dependencies" with
  | Throw e => Throw e
  | Ok deps =>
      match get_prop manifest "devDependencies" with
      | Throw e => Throw e
      | Ok devDeps => Ok (object_keys (spread2 (or_empty deps) (or_empty devDeps)))
      end
  end.

(** What the file system holds for a dependency: nothing, a file that does
    not read as JSON, or a parsed value. *)
Definition metadata (existsSync : string -> bool) (readJsonSync : string -> outcome value)
    (path : string) : option (outcome value) :=
  if existsSync path then Some (readJsonSync path) else None.

Definition unavailable (meta : option (outcome value)) : Prop :=
  meta = None \/ exists e, meta = Some (Throw e).

(** The dependency's metadata carries a runtime constraint of its own. *)
Definition declares_node (pkg : value) : bool :=
  match get_prop pkg "engines" with
  | Ok engines =>
      truthy engines
      && match get_prop engines "node" with
         | Ok node => truthy node
         | Throw _ => false
         end
  | Throw _ => false
  end.

(** The constraints one dependency adds to the two arrays. *)
Definition contribution (meta : option (outcome value)) : list value * list value :=
  match meta with
  | None | Some (Throw _) => ([VStr ">=0.10.0"], [])
  | Some (Ok pkg) =>
      match get_prop pkg "engines" with
      | Throw _ => ([VStr ">=0.10.0"], [])
      | Ok engines =>
          if truthy engines then
            (match get_prop engines "node" with
             | Ok node => if truthy node then [node] else []
             | Throw _ => []
             end,
             match get_prop engines "npm" with
             | Ok npm => if truthy npm then [npm] else []
             | Throw _ => []
             end)
          else ([VStr ">=0.10.0"], [])
      end
  end.


(** The span of the whole catalog, as the runtime resolver reads it off. *)
Definition whole_catalog (catalog : list string) : value * value :=
  (index catalog 0, index catalog (List.length catalog - 1)).

(** The runtime and the package-manager range as functions of the collected
    constraints. *)
Definition node_range (satisfies : string -> value -> outcome bool)
    (catalog : list string) (constraints : list value) (hasDependencies : bool)
  : value * value :=
  match constraints with
  | _ :: _ => first_last (satisfying_sublist satisfies catalog constraints)
  | [] => if hasDependencies then whole_catalog catalog else (VNull, VNull)
  end.

Definition npm_range (satisfies : string -> value -> outcome bool)
    (catalog : list string) (constraints : list value) : value * value :=
  match constraints with
  | _ :: _ => first_last (satisfying_sublist satisfies catalog constraints)
  | [] => (VNull, VNull)
  end.

(** A computation that answers [a] and only writes to the log. *)
Definition logs {A} (m : M A) (a : A) : Prop :=
  forall s, exists evs, m s = (Ok a, log evs s).

(** The metadata has a truthy [engines] entry whose [node] entry is missing
    or falsy. *)
Definition engines_without_node (pkg : value) : bool :=
  match get_prop pkg "engines" with
  | Ok engines =>
      truthy engines
      && negb match get_prop engines "node" with
              | Ok node => truthy node
              | Throw _ => false
              end
  | Throw _ => false
  end.

(** ** A sample project *)

(** A project at [/app] whose manifest and whose one dependency [dep] are
    given by what the file system holds for them. *)
Definition sample_join (parts : list string) : string := String.concat "/" parts.

Definition sample_exists (manifest dep : option (outcome value)) (path : string) : bool :=
  if path =? "/app/package.json" then
    match manifest with Some _ => true | None => false end
  else if path =? "/app/node_modules/dep/package.json" then
    match dep with Some _ => true | None => false end
  else false.

Definition sample_read (manifest dep : option (outcome value)) (path : string)
  : outcome value :=
  let file := if path =? "/app/package.json" then manifest
              else if path =? "/app/node_modules/dep/package.json" then dep
              else None in
  match file with
  | Some content => content
  | None => Throw (JsError "Error: ENOENT: no such file or directory")
  end.

Definition manifest_one_dependency : value :=
  VObj [("name", VStr "app"); ("dependencies", VObj [("dep", VStr "^1.0.0")])].

Definition manifest_no_dependencies : value :=
  VObj [("name", VStr "app"); ("devDependencies", VObj [])].

Definition sample_run (manifest dep : option (outcome value))
  : outcome (option ProjectAnalysisResult) * store :=
  analyze_shipped (sample_exists manifest dep) (sample_read manifest dep) sample_join
    "/app" initial_store.

(** The comparator is defined on the entries of [l], and swapping its
    arguments reverses its answer. *)
Definition total_on (compare : string -> string -> option comparison)
    (l : list string) : Prop :=
  forall a b, In a l -> In b l ->
    exists c, compare a b = Some c /\ compare b a = Some (CompOpp c).

Definition transitive_on (compare : string -> string -> option comparison)
    (l : list string) : Prop :=
  forall a b c, In a l -> In b l -> In c l ->
    le_by compare a b = true -> le_by compare b c = true -> le_by compare a c = true.

(** No two different valid entries of [l] have the same precedence. *)
Definition distinct_precedence (valid : string -> bool)
    (compare : string -> string -> option comparison) (l : list string) : Prop :=
  forall a b, In a l -> In b l -> valid a = true -> valid b = true ->
    compare a b = Some Eq -> a = b.

(** A three-way comparison that behaves as a total preorder. *)
Definition is_order {A : Type} (cmp : A -> A -> comparison) : Prop :=
  (forall a b, cmp b a = CompOpp (cmp a b))
  /\ (forall a b c, cmp a b = Eq -> cmp a c = cmp b c)
  /\ (forall a b c, cmp a b = Lt -> cmp b c = Lt -> cmp a c = Lt).

(** The store after the constraints [c] were pushed and [evs] logged. *)
Definition pushed (c : list value * list value) (evs : list event) (s : store) : store :=
  mkStore (allNodeRanges s ++ fst c) (allNpmRanges s ++ snd c) (trace s ++ evs).

(** The constraints a sequence of dependencies adds, in order. *)
Fixpoint collected (metas : list (option (outcome value))) : list value * list value :=
  match metas with
  | [] => ([], [])
  | m :: ms =>
      (fst (contribution m) ++ fst (collected ms),
       snd (contribution m) ++ snd (collected ms))
  end.

(** ** Further utilities ([src/utils/common.js]) *)

(** [isEmptyObject]: null and undefined are empty, and so is every value
    without own enumerable keys. *)
Definition isEmptyObject (obj : value) : bool :=
  match obj with
  | VUndefined | VNull => true
  | _ => (List.length (object_keys (own_props obj)) =? 0)%nat
  end.

(** ** Classes of events *)

Definition is_fs_event (ev : event) : bool :=
  match ev with
  | FsExists _ | FsRead _ => true
  | _ => false
  end.

Definition is_progress_event (ev : event) : bool :=
  match ev with
  | ProgressReport _ _ _ | ProgressShare _ _ _ => true
  | _ => false
  end.

(** The diagnostics of a failed satisfaction test. *)
Definition is_range_diagnostic (ev : event) : bool :=
  match ev with
  | ConsoleError _ | WarnInvalidRange _ _ _ => true
  | _ => false
  end.

(** A computation that answers [a] and only logs events of one class. *)
Definition logs_only {A} (P : event -> bool) (m : M A) (a : A) : Prop :=
  forall s, exists evs, m s = (Ok a, log evs s) /\ forallb P evs = true.

(** The events of one turn of the collector loop, as a function of what the
    file system holds at [path]. *)
Definition dependency_events (depCount totalDeps : nat) (depName path : string)
    (meta : option (outcome value)) : list event :=
  [ProgressShare depCount totalDeps (Some ("Analyzing " ++ depName ++ "...")%string);
   FsExists path]
  ++ match meta with
     | None => [WarnDependencyNotFound depName]
     | Some (Throw e) => [FsRead path; WarnDependencyUnparsable depName e]
     | Some (Ok pkg) =>
         match get_prop pkg "engines" with
         | Throw e => [FsRead path; WarnDependencyUnparsable depName e]
         | Ok _ => [FsRead path]
         end
     end.

(** The events of the whole loop, the count starting after [depCount]. *)
Fixpoint loop_events (existsSync : string -> bool) (readJsonSync : string -> outcome value)
    (path_of : string -> string) (totalDeps depCount : nat) (names : list string)
  : list event :=
  match names with
  | [] => []
  | d :: rest =>
      dependency_events (S depCount) totalDeps d (path_of d)
        (metadata existsSync readJsonSync (path_of d))
      ++ loop_events existsSync readJsonSync path_of totalDeps (S depCount) rest
  end.

(** The file-system accesses of the collector loop: one probe per
    dependency, followed by a read when the probe succeeded. *)
Definition dependency_probes (existsSync : string -> bool) (path_of : string -> string)
    (names : list string) : list event :=
  flat_map (fun d => FsExists (path_of d)
                     :: (if existsSync (path_of d) then [FsRead (path_of d)] else []))
    names.

(** The progress reports of the collector loop: for the [i]-th of [totalDeps]
    dependencies the increment [(i / totalDeps) * 80]. *)
Fixpoint progress_ticks (totalDeps depCount : nat) (names : list string) : list event :=
  match names with
  | [] => []
  | d :: rest =>
      ProgressShare (S depCount) totalDeps (Some ("Analyzing " ++ d ++ "...")%string)
      :: progress_ticks totalDeps (S depCount) rest
  end.

(** ** Mutable objects *)

(** A value as the program holds it after [JSON.parse]: unlike in the JSON
    text, an array can carry named properties next to its items. *)
Inductive hval : Type :=
| HUndefined
| HNull
| HBool (b : bool)
| HNum (n : Z)
| HStr (s : string)
| HArr (items : list hval) (named : list (string * hval))
| HObj (props : list (string * hval)).

(** The binding of [k]; the properties of an object never repeat a key. *)
Fixpoint h_lookup (props : list (string * hval)) (k : string) : hval :=
  match props with
  | [] => HUndefined
  | (k', x) :: rest => if k' =? k then x else h_lookup rest k
  end.

(** [props[k] = x]: an existing key keeps its place, a new one goes last. *)
Fixpoint h_update (props : list (string * hval)) (k : string) (x : hval)
  : list (string * hval) :=
  match props with
  | [] => [(k, x)]
  | (k', x') :: rest =>
      if k' =? k then (k', x) :: rest else (k', x') :: h_update rest k x
  end.

(** The object [JSON.parse] builds: a key repeated in the text keeps its
    first place and its last value. *)
Fixpoint of_json (v : value) : hval :=
  match v with
  | VUndefined => HUndefined
  | VNull => HNull
  | VBool b => HBool b
  | VNum n => HNum n
  | VStr s => HStr s
  | VArr items => HArr (map of_json items) []
  | VObj props =>
      HObj (fold_left (fun acc kv => match kv with
                                     | (k, x) => h_update acc k (of_json x)
                                     end) props [])
  end.

(** What [JSON.stringify] writes for an item of an array. *)
Definition item_json (to_json : hval -> value) (h : hval) : value :=
  match h with
  | HUndefined => VNull
  | _ => to_json h
  end.

(** The JSON value [JSON.stringify] writes: named properties of arrays and
    properties holding [undefined] are left out. *)
Fixpoint to_json (h : hval) : value :=
  match h with
  | HUndefined => VUndefined
  | HNull => VNull
  | HBool b => VBool b
  | HNum n => VNum n
  | HStr s => VStr s
  | HArr items _ => VArr (map (item_json to_json) items)
  | HObj props =>
      VObj (flat_map (fun kv => match kv with
                                | (_, HUndefined) => []
                                | (k, x) => [(k, to_json x)]
                                end) props)
  end.

Definition h_truthy (h : hval) : bool :=
  match h with
  | HUndefined | HNull => false
  | HBool b => b
  | HNum n => negb (n =? 0)%Z
  | HStr s => negb (s =? "")
  | HArr _ _ | HObj _ => true
  end.

(** [h.k] for the names [engines], [node] and [npm]. *)
Definition h_get (h : hval) (k : string) : outcome hval :=
  match h with
  | HUndefined | HNull =>
      Throw (JsError ("TypeError: Cannot read properties of null or undefined (reading "
                        ++ k ++ ")")%string)
  | HObj props => Ok (h_lookup props k)
  | HArr _ named => Ok (h_lookup named k)
  | _ => Ok HUndefined
  end.

(** [h.k = x] in strict mode, as in every module of the extension: the
    assignment throws on null, undefined and on primitives. *)
Definition h_set (h : hval) (k : string) (x : hval) : outcome hval :=
  match h with
  | HUndefined | HNull =>
      Throw (JsError ("TypeError: Cannot set properties of null or undefined (setting "
                        ++ k ++ ")")%string)
  | HObj props => Ok (HObj (h_update props k x))
  | HArr items named => Ok (HArr items (h_update named k x))
  | _ => Throw (JsError ("TypeError: Cannot create property " ++ k ++ " on a primitive")%string)
  end.

(** [h !== s] for a string [s]. *)
Definition differs_from (h : hval) (s : string) : bool :=
  match h with
  | HStr t => negb (t =? s)
  | _ => true
  end.

(** ** The editor host *)

Record document : Type := mkDocument {
  doc_uri : string;
  doc_text : string
}.

(** What the extension asks of the editor, next to the events of the
    analysis; each event records a call.  Opening, editing and showing a
    document can fail, and what they answer is given by the environment;
    messages and the question put to the user are taken to resolve. *)
Inductive host_event : Type :=
| Core (ev : event)
| OpenTextDocument (path : string)
| ApplyEdit (uri : string) (content : value) (indent : nat)
    (** [workspace.applyEdit] with the whole document replaced by
        [JSON.stringify(content, null, indent)], [content] being the JSON
        value the text denotes *)
| ShowTextDocument (uri : string)
| ShowInformationMessage (msg : string)
| ShowModalChoice (msg : string) (action : string)
| ConsoleErrorLog (label : string) (e : js_error)
| ConsoleWarn (msg : string).

Definition H (A : Type) : Type := list host_event -> outcome A * list host_event.

Definition h_ret {A} (a : A) : H A := fun t => (Ok a, t).

Definition h_bind {A B} (m : H A) (f : A -> H B) : H B :=
  fun t =>
    match m t with
    | (Ok a, t') => f a t'
    | (Throw e, t') => (Throw e, t')
    end.

Declare Scope host_scope.
Delimit Scope host_scope with host.
Notation "x <-- m ;; k" := (h_bind m (fun x => k))
  (at level 61, m at next level, right associativity) : host_scope.
Notation "m ;;; k" := (h_bind m (fun _ => k))
  (at level 61, right associativity) : host_scope.
Local Open Scope host_scope.

Definition h_try {A} (body : H A) (handler : js_error -> H A) : H A :=
  fun t =>
    match body t with
    | (Ok a, t') => (Ok a, t')
    | (Throw e, t') => handler e t'
    end.

Definition h_lift {A} (o : outcome A) : H A := fun t => (o, t).

Definition h_emit (ev : host_event) : H unit := fun t => (Ok tt, t ++ [ev]).

(** A run of the analysis from inside the host: on a fresh store, its events
    passed on in order. *)
Definition h_run {A} (m : M A) : H A :=
  fun t => let (o, s) := m initial_store in (o, t ++ map Core (trace s)).

(** ** Indentation of a document *)

(** [\s] on the characters below 256, which is what a string holds here:
    tab to carriage return, the space and the no-break space. *)
Definition is_js_space (c : ascii) : bool :=
  let n := nat_of_ascii c in ((n =? 32) || ((9 <=? n) && (n <=? 13)) || (n =? 160))%nat.

Definition is_line_terminator (c : ascii) : bool :=
  let n := nat_of_ascii c in ((n =? 10) || (n =? 13))%nat.

(** The length of the longest run of blanks at the start of [s] when that
    run is not empty and a double quote follows it: a match of a non-empty
    run of [\s] and a double quote, anchored at the start of [s]. *)
Fixpoint blanks_then_quote (s : string) : option nat :=
  match s with
  | EmptyString => None
  | String c s' =>
      if is_js_space c then
        match s' with
        | String c' _ =>
            if (c' =? "034")%char then Some 1
            else option_map S (blanks_then_quote s')
        | EmptyString => None
        end
      else None
  end.

(** The match of the multi-line pattern for an indented key (a line start,
    a run of [\s], a double quote): the first line start with a match. *)
Fixpoint indent_match (at_line_start : bool) (text : string) : option nat :=
  match text with
  | EmptyString => None
  | String c rest =>
      match (if at_line_start then blanks_then_quote text else None) with
      | Some n => Some n
      | None => indent_match (is_line_terminator c) rest
      end
  end.

(** [indentMatch ? indentMatch[1].length : 2]. *)
Definition detect_indent (text : string) : nat :=
  match indent_match true text with
  | Some n => n
  | None => 2
  end.

(** ** Writing the engines back ([src/utils/updateVersionRanges.js] and
    [PackageJsonService.updateEngines] of [src/services/fileSystemService.js]) *)

Section Update.

(** [workspace.openTextDocument], which rejects when the file cannot be
    opened, and [JSON.parse]. *)
Variable openTextDocument : string -> outcome document.
Variable json_parse : string -> outcome value.
(** [workspace.applyEdit], which answers whether the edit was applied or
    rejects, and [window.showTextDocument], which can reject as well; what
    the editor rejects with is an error object. *)
Variable applyEdit : string -> value -> nat -> outcome bool.
Variable showTextDocument : string -> outcome unit.

Definition open_document (path : string) : H document :=
  h_emit (OpenTextDocument path) ;;; h_lift (openTextDocument path).

(** [if (s) { if (packageJson.engines[key] !== s) { packageJson.engines[key] = s;
    updated = true } }]; the assignment reaches the object that
    [packageJson.engines] refers to, which the write-back makes visible. *)
Definition assign_engine (key : string) (engineString : option string)
    (state : hval * bool) : H (hval * bool) :=
  let (packageJson, updated) := state in
  if truthy_string engineString then
    engines <-- h_lift (h_get packageJson "engines") ;;
    current <-- h_lift (h_get engines key) ;;
    if differs_from current (template engineString) then
      engines' <-- h_lift (h_set engines key (HStr (template engineString))) ;;
      packageJson' <-- h_lift (h_set packageJson "engines" engines') ;;
      h_ret (packageJson', true)
    else h_ret (packageJson, updated)
  else h_ret (packageJson, updated).

(** The statements both functions share up to the decision to write:
    parsing, creating [engines] when it is missing or falsy, and the two
    conditional assignments. *)
Definition merge_engines (doc : document) (nodeEngineString npmEngineString : option string)
  : H (hval * bool) :=
  parsed <-- h_lift (json_parse (doc_text doc)) ;;
  let packageJson := of_json parsed in
  engines <-- h_lift (h_get packageJson "engines") ;;
  packageJson <-- (if negb (h_truthy engines)
                   then h_lift (h_set packageJson "engines" (HObj []))
                   else h_ret packageJson) ;;
  state <-- assign_engine "node" nodeEngineString (packageJson, false) ;;
  assign_engine "npm" npmEngineString state.

(** [await workspace.applyEdit(edit)]: what the call answers is not looked
    at. *)
Definition write_document (doc : document) (packageJson : hval) : H bool :=
  let content := to_json packageJson in
  let indent := detect_indent (doc_text doc) in
  h_emit (ApplyEdit (doc_uri doc) content indent) ;;;
  h_lift (applyEdit (doc_uri doc) content indent).

(** [await window.showTextDocument(doc)]. *)
Definition show_document (doc : document) : H unit :=
  h_emit (ShowTextDocument (doc_uri doc)) ;;; h_lift (showTextDocument (doc_uri doc)).

Definition updateVersionRanges (packageJsonPath : string)
    (nodeEngineString npmEngineString : option string) : H unit :=
  h_try
    (doc <-- open_document packageJsonPath ;;
     state <-- merge_engines doc nodeEngineString npmEngineString ;;
     if snd state then
       write_document doc (fst state) ;;;
       h_emit (ShowInformationMessage
                 "package.json has been updated with new 'engines' settings.") ;;;
       show_document doc
     else
       h_emit (ShowInformationMessage "package.json 'engines' are already up-to-date."))
    (fun error =>
       h_emit (ConsoleErrorLog "Failed to update package.json:" error) ;;;
       h_emit (Core (ShowErrorMessage
                       ("Failed to update package.json: " ++ error_text error)%string))).

(** [PackageJsonService.updateEngines]: the same merge; it answers whether it
    wrote, shows no message and throws a new error instead of reporting. *)
Variable message_of : js_error -> string.

Definition updateEngines (packageJsonPath : string)
    (nodeEngineString npmEngineString : option string) : H bool :=
  h_try
    (doc <-- open_document packageJsonPath ;;
     state <-- merge_engines doc nodeEngineString npmEngineString ;;
     if negb (snd state) then h_ret false
     else
       write_document doc (fst state) ;;;
       show_document doc ;;;
       h_ret true)
    (fun error =>
       h_lift (Throw (JsError ("Error: Failed to update package.json: "
                                 ++ message_of error)%string))).

End Update.

(** ** Conversion to string *)

Definition string_of_Z (n : Z) : string := NilZero.string_of_int (Z.to_int n).

(** [String(v)], which is what a template literal inserts. *)
Fixpoint to_string (v : value) : string :=
  match v with
  | VUndefined => "undefined"
  | VNull => "null"
  | VBool true => "true"
  | VBool false => "false"
  | VNum n => string_of_Z n
  | VStr s => s
  | VArr items =>
      String.concat ","
        (map (fun x => match x with
                       | VUndefined | VNull => EmptyString
                       | _ => to_string x
                       end) items)
  | VObj _ => "[object Object]"
  end.

Definition double_quote : string := String "034"%char EmptyString.
Definition line_feed : string := String "010"%char EmptyString.

(** ** The command ([src/extension.js], the task given to [withProgress]) *)

Section Command.

Variable existsSync : string -> bool.
Variable readJsonSync : string -> outcome value.
Variable join : list string -> string.
Variable satisfies : string -> value -> outcome bool.
Variable COMMON_NODEJS_VERSIONS : list string.
Variable COMMON_NPM_VERSIONS : list string.
Variable openTextDocument : string -> outcome document.
Variable json_parse : string -> outcome value.
Variable applyEdit : string -> value -> nat -> outcome bool.
Variable showTextDocument : string -> outcome unit.
(** [path.basename]. *)
Variable basename : string -> string.
(** What the user answers to a modal message: the label of the button
    picked, or nothing when the message is dismissed. *)
Variable choose : string -> option string.

(** [min && max ? `>=${min} <=${max}` : null]. *)
Definition engine_string (min max : value) : option string :=
  if truthy min && truthy max
  then Some (">=" ++ to_string min ++ " <=" ++ to_string max)%string
  else None.

Definition recommendation (projectPath : string) (nodeEngineString npmEngineString : option string)
  : string :=
  let message :=
    ("Recommended 'engines' for " ++ basename projectPath ++ ":" ++ line_feed
       ++ "Node: " ++ double_quote ++ template nodeEngineString ++ double_quote)%string in
  if truthy_string npmEngineString
  then (message ++ line_feed ++ "NPM: " ++ double_quote ++ template npmEngineString
          ++ double_quote)%string
  else (message ++ line_feed
          ++ "NPM: (Could not determine a specific range from dependencies; consider adding manually if needed)")%string.

(** [v === s] for a value that is a string or undefined. *)
Definition strictly_equal (v : option string) (s : string) : bool :=
  match v with
  | Some s' => s' =? s
  | None => false
  end.

Definition analyze_task (projectPath : string) : H unit :=
  h_try
    (h_emit (Core (ProgressReport 0 1 (Some "Reading project package.json..."))) ;;;
     result <-- h_run (analyzeProjectIncludes existsSync readJsonSync join satisfies
                         COMMON_NODEJS_VERSIONS COMMON_NPM_VERSIONS projectPath) ;;
     match result with
     | None => h_ret tt
     | Some result =>
         if strictly_equal (note result) "No dependencies to analyze." then
           h_emit (ShowInformationMessage
                     "No dependencies in project. Cannot determine support limits based on dependencies.")
         else
           let nodeEngineString := engine_string (minNode result) (maxNode result) in
           let npmEngineString := engine_string (minNpm result) (maxNpm result) in
           if negb (truthy_string nodeEngineString) then
             h_emit (Core (ShowErrorMessage
                             "Could not determine a compatible Node.js version range for the project dependencies."))
           else
             let message := recommendation projectPath nodeEngineString npmEngineString in
             let updateAction := "Update package.json" in
             h_emit (ShowModalChoice message updateAction) ;;;
             if strictly_equal (choose message) updateAction
             then updateVersionRanges openTextDocument json_parse applyEdit
                    showTextDocument (projectPackageJsonPath result) nodeEngineString
                    npmEngineString
             else h_ret tt
     end)
    (fun error =>
       h_emit (ConsoleErrorLog "Error analyzing dependencies:" error) ;;;
       h_emit (Core (ShowErrorMessage
                       ("Error analyzing dependencies: " ++ error_text error)%string))).

End Command.

(** ** The hover provider ([src/providers/hoverProvider.js]) *)

Record position : Type := mkPosition {
  line : nat;
  character : nat
}.

Record range : Type := mkRange {
  range_start : position;
  range_end : position
}.

Record Hover : Type := mkHover {
  contents : string;
  isTrusted : bool;
  hover_range : range
}.

(** [s.includes(part)]. *)
Fixpoint includes (s part : string) : bool :=
  String.prefix part s
  || match s with
     | EmptyString => false
     | String _ s' => includes s' part
     end.

(** A match of the pattern for the start of an object: blanks, then an
    opening brace, from the start of the string. *)
Fixpoint starts_object (s : string) : bool :=
  match s with
  | EmptyString => false
  | String c s' =>
      if (c =? "{")%char then true
      else if is_js_space c then starts_object s'
      else false
  end.

Definition KEYS_FOR_HOVER : list string :=
  ["dependencies"; "devDependencies"; "peerDependencies"].

Definition HOVER_ANALYZE_PROJECT : string := "Analyze Node/NPM Support Limits for project".

(** [document.lineAt(lineNum).text]; the editor throws on a line the
    document does not have. *)
Definition lineAt (lines : list string) (lineNum : nat) : outcome string :=
  match nth_error lines lineNum with
  | Some text => Ok text
  | None => Throw (JsError "Error: Illegal value for `line`")
  end.

Definition names_dependency_block (lineText : string) : bool :=
  existsb (fun key => includes lineText (double_quote ++ key ++ double_quote ++ ":")%string)
    KEYS_FOR_HOVER.

(** The loop from the line of the position up to the first line; the answer
    is the value of [inDepsBlock] when it ends. *)
Fixpoint scan_up (lines : list string) (positionLine lineNum : nat) : outcome bool :=
  match lineAt lines lineNum with
  | Throw e => Throw e
  | Ok lineText =>
      if names_dependency_block lineText then Ok true
      else if starts_object lineText && negb (lineNum =? positionLine)%nat then Ok false
      else match lineNum with
           | O => Ok false
           | S previous => scan_up lines positionLine previous
           end
  end.

Section HoverProvider.

(** [document.getWordRangeAtPosition(position, pattern)] for the pattern of a
    quoted key followed by a quoted value: the range of the match around the
    position, if there is one. *)
Variable getWordRangeAtPosition : position -> option range.

Definition provideHover (lines : list string) (pos : position) : outcome (option Hover) :=
  match getWordRangeAtPosition pos with
  | None => Ok None
  | Some range =>
      match scan_up lines (line pos) (line pos) with
      | Throw e => Throw e
      | Ok inDepsBlock =>
          if inDepsBlock
          then Ok (Some (mkHover HOVER_ANALYZE_PROJECT true range))
          else Ok None
      end
  end.

End HoverProvider.

(** ** The catalogs of the services ([src/config/constants.js], [VERSION]) *)

Module ConfigConstants.

Definition NODE_VERSIONS_WITH_ALIASES : list string :=
  [ "lts/hydrogen"; "18.20.8"; "lts/iron"; "20.19.1";
    "lts/jod"; "22.15.0"; "24.0.1" ].

Definition getNodeVersions_init : option (list string) :=
  build_catalog Semver.valid Semver.compare NODE_VERSIONS_WITH_ALIASES.

(** [VERSION.getNodeVersions()]. *)
Definition getNodeVersions : list string := loaded getNodeVersions_init.

Definition NPM_VERSIONS_init : option (list string) :=
  js_sort Semver.compare [ "10.8.2"; "10.9.2"; "11.3.0" ].

Definition NPM_VERSIONS : list string := loaded NPM_VERSIONS_init.

End ConfigConstants.

(** ** The services ([src/services/fileSystemService.js] and
    [src/services/dependencyAnalyzerService.js]) *)

(** [Array.prototype.every] and [filter] with a callback that logs. *)
Fixpoint h_every {A} (f : A -> H bool) (l : list A) : H bool :=
  match l with
  | [] => h_ret true
  | x :: l' => b <-- f x ;; if b then h_every f l' else h_ret false
  end.

Fixpoint h_filter {A} (f : A -> H bool) (l : list A) : H (list A) :=
  match l with
  | [] => h_ret []
  | x :: l' =>
      b <-- f x ;;
      rest <-- h_filter f l' ;;
      h_ret (if b then x :: rest else rest)
  end.

(** [for (const x of l)] threading the variables the body updates. *)
Fixpoint h_for_of {A St} (body : St -> A -> H St) (state : St) (l : list A) : H St :=
  match l with
  | [] => h_ret state
  | x :: l' => state' <-- body state x ;; h_for_of body state' l'
  end.

Module PackageJsonService.

Section Files.

Variable existsSync : string -> bool.
Variable readJsonSync : string -> outcome value.
Variable join : list string -> string.
(** [error instanceof Error ? error.message : String(error)]. *)
Variable message_of : js_error -> string.

(** Null when the file does not exist; a new error when it does not parse. *)
Definition readPackageJson (filePath : string) : H value :=
  h_emit (Core (FsExists filePath)) ;;;
  if negb (existsSync filePath) then h_ret VNull
  else
    h_emit (Core (FsRead filePath)) ;;;
    h_try (h_lift (readJsonSync filePath))
      (fun error =>
         h_lift (Throw (JsError ("Error: Error parsing " ++ filePath ++ ": "
                                   ++ message_of error)%string))).

Definition getPackageJsonPath (directory : string) : string :=
  join [directory; "package.json"].

Definition getDependencyPackageJsonPath (projectPath dependencyName : string) : string :=
  join [projectPath; "node_modules"; dependencyName; "package.json"].

End Files.

End PackageJsonService.

Module DependencyAnalyzerService.

(** The options, as the truthiness of their entries. *)
Record DependencyAnalysisOptions : Type := mkOptions {
  includeDev : bool;
  includePeer : bool;
  includeOptional : bool
}.

(** The default value of the parameter: [{ includeDev: true }]. *)
Definition default_options : DependencyAnalysisOptions := mkOptions true false false.

(** The object [Object.assign] writes to, which began as [{}]: its own
    properties, and whether an assignment to [__proto__] now creates an own
    property.  It does not at first: the name then reaches the accessor of
    [Object.prototype], whose setter changes the prototype of the object. *)
Record assign_target : Type := mkTarget {
  own : list (string * value);
  proto_shadowed : bool
}.

Definition empty_target : assign_target := mkTarget [] false.

Definition has_key (props : list (string * value)) (k : string) : bool :=
  existsb (fun kv => fst kv =? k) props.

(** [target[k] = v], as [Object.assign] does it for each property of the
    source.  Every name but [__proto__] becomes an own property.  For
    [__proto__], as long as the accessor is reached, an object or null becomes
    the prototype and any other value is ignored; the accessor is no longer
    reached once the prototype is null or an object with a property
    [__proto__] of its own, which [JSON.parse] can create. *)
Definition assign_property (target : assign_target) (kv : string * value)
  : assign_target :=
  let (k, v) := kv in
  if (k =? "__proto__") && negb (has_key (own target) k) && negb (proto_shadowed target)
  then match v with
       | VObj props => mkTarget (own target) (has_key props "__proto__")
       | VArr _ => mkTarget (own target) false
       | VNull => mkTarget (own target) true
       | _ => target
       end
  else mkTarget (set_prop (own target) k v) (proto_shadowed target).

(** [Object.assign(target, source)]. *)
Definition assign (target : assign_target) (source : value) : assign_target :=
  fold_left assign_property (own_props source) target.

Definition kind_name (kind : engine_kind) : string :=
  match kind with
  | Node => "Node"
  | Npm => "NPM"
  end.

(** [if (include && packageJson[key]) Object.assign(dependencies, packageJson[key])]. *)
Definition assign_if (include : bool) (packageJson : value) (key : string)
    (dependencies : assign_target) : outcome assign_target :=
  if include then
    match get_prop packageJson key with
    | Throw e => Throw e
    | Ok entry => Ok (if truthy entry then assign dependencies entry else dependencies)
    end
  else Ok dependencies.

(** [collectDependencies]; what it returns is read through [Object.keys]
    only, so the own properties stand for it. *)
Definition collectDependencies (packageJson : value) (options : DependencyAnalysisOptions)
  : outcome (list (string * value)) :=
  match assign_if true packageJson "dependencies" empty_target with
  | Throw e => Throw e
  | Ok dependencies =>
      match assign_if (includeDev options) packageJson "devDependencies" dependencies with
      | Throw e => Throw e
      | Ok dependencies =>
          match assign_if (includePeer options) packageJson "peerDependencies"
                  dependencies with
          | Throw e => Throw e
          | Ok dependencies =>
              match assign_if (includeOptional options) packageJson
                      "optionalDependencies" dependencies with
              | Throw e => Throw e
              | Ok dependencies => Ok (own dependencies)
              end
          end
      end
  end.

Section Service.

Variable existsSync : string -> bool.
Variable readJsonSync : string -> outcome value.
Variable join : list string -> string.
Variable message_of : js_error -> string.
Variable satisfies : string -> value -> outcome bool.
(** The two cached catalogs. *)
Variable nodeVersions : list string.
Variable npmVersions : list string.

(** The body of the loop of [collectEngineRequirements]; the state is
    [depCount] and the two arrays. *)
Definition collect_requirement (projectPath : string) (totalDeps : nat)
    (state : nat * (list value * list value)) (depName : string)
  : H (nat * (list value * list value)) :=
  let depCount := S (fst state) in
  let nodeRanges := fst (snd state) in
  let npmRanges := snd (snd state) in
  h_emit (Core (ProgressShare depCount totalDeps
                  (Some ("Analyzing " ++ depName ++ "...")%string))) ;;;
  let depPackageJsonPath :=
    PackageJsonService.getDependencyPackageJsonPath join projectPath depName in
  depPackageJson <-- PackageJsonService.readPackageJson existsSync readJsonSync message_of
                       depPackageJsonPath ;;
  if truthy depPackageJson then
    engines <-- h_lift (get_prop depPackageJson "engines") ;;
    if truthy engines then
      node <-- h_lift (get_prop engines "node") ;;
      let nodeRanges := if truthy node then nodeRanges ++ [node] else nodeRanges in
      npm <-- h_lift (get_prop engines "npm") ;;
      let npmRanges := if truthy npm then npmRanges ++ [npm] else npmRanges in
      h_ret (depCount, (nodeRanges, npmRanges))
    else
      h_ret (depCount, (nodeRanges ++ [VStr ">=0.10.0"], npmRanges))
  else
    h_ret (depCount, (nodeRanges ++ [VStr ">=0.10.0"], npmRanges)).

Definition collectEngineRequirements (projectPath : string)
    (dependencies : list (string * value)) : H (list value * list value) :=
  let totalDeps := List.length (object_keys dependencies) in
  state <-- h_for_of (collect_requirement projectPath totalDeps) (0, ([], []))
              (object_keys dependencies) ;;
  h_ret (snd state).

(** The callback given to [every]. *)
Definition test_requirement (kind : engine_kind) (version : string) (rangeStr : value)
  : H bool :=
  h_try
    (h_lift (satisfies version rangeStr))
    (fun _error =>
       h_emit (ConsoleWarn ("Invalid semver range " ++ double_quote ++ to_string rangeStr
                              ++ double_quote ++ " for " ++ kind_name kind
                              ++ ". Assuming it doesn't match version " ++ version
                              ++ ".")%string) ;;;
       h_ret false).

Definition compatibleVersions (kind : engine_kind) (catalog : list string)
    (ranges : list value) : H (list string) :=
  h_filter (fun version => h_every (test_requirement kind version) ranges) catalog.

Definition calculateNodeRange (nodeRanges : list value) (hasDependencies : bool)
  : H (value * value) :=
  if (0 <? List.length nodeRanges)%nat then
    compatible <-- compatibleVersions Node nodeVersions nodeRanges ;;
    if (0 <? List.length compatible)%nat
    then h_ret (index compatible 0, index compatible (List.length compatible - 1))
    else h_ret (VNull, VNull)
  else if hasDependencies
  then h_ret (index nodeVersions 0, index nodeVersions (List.length nodeVersions - 1))
  else h_ret (VNull, VNull).

Definition calculateNpmRange (npmRanges : list value) : H (value * value) :=
  if (0 <? List.length npmRanges)%nat then
    compatible <-- compatibleVersions Npm npmVersions npmRanges ;;
    if (0 <? List.length compatible)%nat
    then h_ret (index compatible 0, index compatible (List.length compatible - 1))
    else h_ret (VNull, VNull)
  else h_ret (VNull, VNull).

Definition analyzeProject (projectPath : string) (options : DependencyAnalysisOptions)
  : H (option ProjectAnalysisResult) :=
  let packageJsonPath := PackageJsonService.getPackageJsonPath join projectPath in
  packageJson <-- PackageJsonService.readPackageJson existsSync readJsonSync message_of
                    packageJsonPath ;;
  if negb (truthy packageJson) then h_ret None
  else
    dependencies <-- h_lift (collectDependencies packageJson options) ;;
    if (List.length (object_keys dependencies) =? 0)%nat then
      h_ret (Some (mkResult packageJsonPath VNull VNull VNull VNull
                     (Some "No dependencies to analyze.")))
    else
      h_emit (Core (ProgressReport 10 1 None)) ;;;
      engineRequirements <-- collectEngineRequirements projectPath dependencies ;;
      h_emit (Core (ProgressReport 90 1 (Some "Calculating version ranges..."))) ;;;
      node <-- calculateNodeRange (fst engineRequirements)
                 (0 <? List.length (object_keys dependencies))%nat ;;
      npm <-- calculateNpmRange (snd engineRequirements) ;;
      h_emit (Core (ProgressReport 100 1 None)) ;;;
      h_ret (Some (mkResult packageJsonPath (fst node) (snd node) (fst npm) (snd npm) None)).

End Service.

(** [formatVersionRange], the static method: on the values of a result. *)
Definition formatVersionRange (minVersion maxVersion : value) : option string :=
  if negb (truthy minVersion) && negb (truthy maxVersion) then None
  else
    let range := EmptyString in
    let range :=
      if truthy minVersion then (range ++ ">=" ++ to_string minVersion)%string else range in
    let range :=
      if truthy maxVersion
      then ((if truthy minVersion then range ++ " " else range)
              ++ "<=" ++ to_string maxVersion)%string
      else range in
    Some range.

End DependencyAnalyzerService.

(** ** The command as a class ([src/commands/analyzeDependenciesCommand.js],
    the task given to [UIService.runWithProgress]) *)

(** [UI.MESSAGES.ENGINES_RECOMMENDATION]. *)
Definition ENGINES_RECOMMENDATION (workspaceName : string)
    (nodeEngineString npmEngineString : option string) : string :=
  let message :=
    ("Recommended 'engines' for " ++ workspaceName ++ ":" ++ line_feed
       ++ "Node: " ++ double_quote ++ template nodeEngineString ++ double_quote)%string in
  if truthy_string npmEngineString
  then (message ++ line_feed ++ "NPM: " ++ double_quote ++ template npmEngineString
          ++ double_quote)%string
  else (message ++ line_feed ++ "NPM: "
          ++ "(Could not determine a specific range from dependencies; consider adding manually if needed)")%string.

Section Execute.

Variable existsSync : string -> bool.
Variable readJsonSync : string -> outcome value.
Variable join : list string -> string.
Variable message_of : js_error -> string.
Variable satisfies : string -> value -> outcome bool.
Variable nodeVersions : list string.
Variable npmVersions : list string.
Variable openTextDocument : string -> outcome document.
Variable json_parse : string -> outcome value.
Variable applyEdit : string -> value -> nat -> outcome bool.
Variable showTextDocument : string -> outcome unit.
Variable choose : string -> option string.

(** [min && max ? DependencyAnalyzerService.formatVersionRange(min, max) : null]. *)
Definition formatted_range (min max : value) : option string :=
  if truthy min && truthy max
  then DependencyAnalyzerService.formatVersionRange min max
  else None.

(** The task for the workspace folder at [fsPath] called [workspaceName]. *)
Definition execute_task (fsPath workspaceName : string) : H unit :=
  h_try
    (h_emit (Core (ProgressReport 0 1 (Some "Reading project package.json..."))) ;;;
     result <-- DependencyAnalyzerService.analyzeProject existsSync readJsonSync join
                  message_of satisfies nodeVersions npmVersions fsPath
                  DependencyAnalyzerService.default_options ;;
     match result with
     | None => h_ret tt
     | Some result =>
         if strictly_equal (note result) "No dependencies to analyze." then
           h_emit (ShowInformationMessage
                     "No dependencies in project. Cannot determine support limits based on dependencies.")
         else
           let nodeEngineString := formatted_range (minNode result) (maxNode result) in
           let npmEngineString := formatted_range (minNpm result) (maxNpm result) in
           if negb (truthy_string nodeEngineString) then
             h_emit (Core (ShowErrorMessage
                             "Could not determine a compatible Node.js version range for the project dependencies."))
           else
             let message :=
               ENGINES_RECOMMENDATION workspaceName nodeEngineString npmEngineString in
             h_emit (ShowModalChoice message "Update package.json") ;;;
             if strictly_equal (choose message) "Update package.json" then
               updated <-- updateEngines openTextDocument json_parse applyEdit
                             showTextDocument message_of
                             (projectPackageJsonPath result) nodeEngineString
                             npmEngineString ;;
               h_emit (ShowInformationMessage
                         (if updated : bool
                          then "package.json has been updated with new 'engines' settings."
                          else "package.json 'engines' are already up-to-date."))
             else h_ret tt
     end)
    (fun error =>
       h_emit (ConsoleErrorLog "Error analyzing dependencies:" error) ;;;
       h_emit (Core (ShowErrorMessage
                       ("Error analyzing dependencies: " ++ message_of error)%string))).

End Execute.

(** ** Notions used to state the properties of the update *)

Definition is_edit (ev : host_event) : bool :=
  match ev with
  | ApplyEdit _ _ _ => true
  | _ => false
  end.

(** A message shown to the user, of either kind. *)
Definition is_message (ev : host_event) : bool :=
  match ev with
  | ShowInformationMessage _ | Core (ShowErrorMessage _) => true
  | _ => false
  end.

(** The properties of the [engines] object the update works on: those of the
    object in the manifest, none when the manifest holds a falsy value. *)
Definition engines_props (engines : hval) : list (string * hval) :=
  match engines with
  | HObj props => props
  | _ => []
  end.

(** [engines] is an object, or falsy and replaced by a fresh one. *)
Definition engines_usable (engines : hval) : bool :=
  match engines with
  | HObj _ => true
  | _ => negb (h_truthy engines)
  end.

(** A truthy value that is not an object: a property cannot be set on it. *)
Definition truthy_primitive (h : hval) : bool :=
  match h with
  | HObj _ | HArr _ _ => false
  | _ => h_truthy h
  end.

(** The entry [key] of [props] is the requested string, or nothing is
    requested for it. *)
Definition up_to_date (props : list (string * hval)) (key : string)
    (engineString : option string) : bool :=
  negb (truthy_string engineString)
  || negb (differs_from (h_lookup props key) (template engineString)).

(** One step of building a parsed object, as in [of_json]. *)
Definition parse_step (of_json : value -> hval) (acc : list (string * hval))
    (kv : string * value) : list (string * hval) :=
  match kv with (k, x) => h_update acc k (of_json x) end.

(** The properties of [engines] once [key] holds the requested string. *)
Definition set_engine (key : string) (engineString : option string)
    (props : list (string * hval)) : list (string * hval) :=
  if truthy_string engineString
  then h_update props key (HStr (template engineString))
  else props.

(** What [JSON.stringify] keeps of the properties of an object. *)
Definition written_props (to_json : hval -> value) (props : list (string * hval))
  : list (string * value) :=
  flat_map (fun kv => match kv with
                      | (_, HUndefined) => []
                      | (k, x) => [(k, to_json x)]
                      end) props.

(** A manifest on which no property can be set: null or a primitive. *)
Definition null_or_primitive (v : value) : bool :=
  match v with
  | VObj _ | VArr _ => false
  | _ => true
  end.

(** [n] spaces. *)
Fixpoint spaces (n : nat) : string :=
  match n with
  | O => EmptyString
  | S n' => String " "%char (spaces n')
  end.

Definition not_line_terminator (c : ascii) : bool := negb (is_line_terminator c).

Definition not_js_space (c : ascii) : bool := negb (is_js_space c).

(** An event of the analysis, as opposed to one of the editor. *)
Definition is_core (ev : host_event) : bool :=
  match ev with
  | Core _ => true
  | _ => false
  end.

Definition is_modal (ev : host_event) : bool :=
  match ev with
  | ShowModalChoice _ _ => true
  | _ => false
  end.

(** An event that opens, edits or shows a document. *)
Definition touches_document (ev : host_event) : bool :=
  match ev with
  | OpenTextDocument _ | ApplyEdit _ _ _ | ShowTextDocument _ => true
  | _ => false
  end.

(** A host computation that answers [a] and only appends to the log. *)
Definition h_logs {A} (m : H A) (a : A) : Prop :=
  forall t, exists evs, m t = (Ok a, t ++ evs).

(** What the file system holds for a manifest cannot be analyzed: no file, a
    file that does not parse, or a falsy value. *)
Definition unusable (meta : option (outcome value)) : bool :=
  match meta with
  | Some (Ok v) => negb (truthy v)
  | _ => true
  end.

(** A host computation whose events all satisfy [P], whether it returns or
    throws. *)
Definition h_only {A} (P : host_event -> bool) (m : H A) : Prop :=
  forall t, exists evs, snd (m t) = t ++ evs /\ forallb P evs = true.

Definition leaves_documents (ev : host_event) : bool := negb (touches_document ev).

(** ** A sample editor *)

(** The manifest of the sample project as a document, indented by four
    spaces. *)
Definition sample_manifest_text : string :=
  ("{" ++ line_feed
     ++ "    " ++ double_quote ++ "name" ++ double_quote ++ ": "
     ++ double_quote ++ "app" ++ double_quote ++ "," ++ line_feed
     ++ "    " ++ double_quote ++ "dependencies" ++ double_quote ++ ": {" ++ line_feed
     ++ "        " ++ double_quote ++ "dep" ++ double_quote ++ ": "
     ++ double_quote ++ "^1.0.0" ++ double_quote ++ line_feed
     ++ "    }" ++ line_feed
     ++ "}")%string.

(** The same manifest once the runtime range was written to it. *)
Definition sample_updated_manifest : value :=
  VObj [("name", VStr "app");
        ("dependencies", VObj [("dep", VStr "^1.0.0")]);
        ("engines", VObj [("node", VStr ">=18.0.0 <=20.0.0")])].

Definition sample_updated_text : string :=
  ("{" ++ line_feed
     ++ "    " ++ double_quote ++ "name" ++ double_quote ++ ": "
     ++ double_quote ++ "app" ++ double_quote ++ "," ++ line_feed
     ++ "    " ++ double_quote ++ "dependencies" ++ double_quote ++ ": {" ++ line_feed
     ++ "        " ++ double_quote ++ "dep" ++ double_quote ++ ": "
     ++ double_quote ++ "^1.0.0" ++ double_quote ++ line_feed
     ++ "    }," ++ line_feed
     ++ "    " ++ double_quote ++ "engines" ++ double_quote ++ ": {" ++ line_feed
     ++ "        " ++ double_quote ++ "node" ++ double_quote ++ ": "
     ++ double_quote ++ ">=18.0.0 <=20.0.0" ++ double_quote ++ line_feed
     ++ "    }" ++ line_feed
     ++ "}")%string.

(** A manifest on one line, and one with lines ending in a carriage return
    and a line feed. *)
Definition sample_minified_text : string :=
  ("{" ++ double_quote ++ "name" ++ double_quote ++ ":"
     ++ double_quote ++ "app" ++ double_quote ++ "}")%string.

Definition sample_crlf_text : string :=
  ("{" ++ String "013"%char line_feed
     ++ "  " ++ double_quote ++ "name" ++ double_quote ++ ": "
     ++ double_quote ++ "app" ++ double_quote ++ String "013"%char line_feed
     ++ "}")%string.

Definition sample_document : document :=
  mkDocument "file:///app/package.json" sample_manifest_text.

(** The documents of the sample editor: the manifest, the updated manifest
    and a document holding the literal null. *)
Definition sample_open (path : string) : outcome document :=
  if path =? "/app/package.json" then Ok sample_document
  else if path =? "/app/updated/package.json"
       then Ok (mkDocument "file:///app/updated/package.json" sample_updated_text)
  else if path =? "/app/null/package.json"
       then Ok (mkDocument "file:///app/null/package.json" "null")
  else Throw (JsError "Error: cannot open the document").

Definition sample_parse (text : string) : outcome value :=
  if text =? sample_manifest_text then Ok manifest_one_dependency
  else if text =? sample_updated_text then Ok sample_updated_manifest
  else if text =? "null" then Ok VNull
  else Throw (JsError "SyntaxError: Unexpected token").

(** A dependency that asks for a runtime no catalog entry provides. *)
Definition metadata_unsatisfiable : value :=
  VObj [("name", VStr "dep"); ("engines", VObj [("node", VStr ">=99.0.0")])].

(** The lines of the sample manifest, for the hover provider. *)
Definition sample_lines : list string :=
  ["{";
   ("    " ++ double_quote ++ "name" ++ double_quote ++ ": "
      ++ double_quote ++ "app" ++ double_quote ++ ",")%string;
   ("    " ++ double_quote ++ "dependencies" ++ double_quote ++ ": {")%string;
   ("        " ++ double_quote ++ "dep" ++ double_quote ++ ": "
      ++ double_quote ++ "^1.0.0" ++ double_quote)%string;
   "    }";
   "}"].

Definition sample_word_range (pos : position) : option range :=
  Some (mkRange (mkPosition (line pos) 8) (mkPosition (line pos) 22)).

(** What [updateVersionRanges] does with an error it catches. *)
Definition update_failure (e : js_error) : list host_event :=
  [ConsoleErrorLog "Failed to update package.json:" e;
   Core (ShowErrorMessage ("Failed to update package.json: " ++ error_text e)%string)].

(** What [updateVersionRanges] does once it has decided to write, by what the
    editor answers to the edit and to showing the document. *)
Definition edit_events (applyEdit : string -> value -> nat -> outcome bool)
    (showTextDocument : string -> outcome unit) (uri : string) (content : value)
    (indent : nat) : list host_event :=
  ApplyEdit uri content indent
  :: match applyEdit uri content indent with
     | Throw e => update_failure e
     | Ok _ =>
         ShowInformationMessage "package.json has been updated with new 'engines' settings."
         :: ShowTextDocument uri
         :: match showTextDocument uri with
            | Ok _ => []
            | Throw e => update_failure e
            end
     end.

(** The result both analyses give for the dependencies [names] whose metadata
    yields [constraints], when they resolve over the catalogs [nodeCatalog]
    and [npmCatalog]. *)
Definition resolved_result (satisfies : string -> value -> outcome bool)
    (packageJsonPath : string) (names : list string)
    (constraints : list value * list value) (nodeCatalog npmCatalog : list string)
  : ProjectAnalysisResult :=
  match names with
  | [] => mkResult packageJsonPath VNull VNull VNull VNull (Some "No dependencies to analyze.")
  | _ :: _ =>
      mkResult packageJsonPath
        (fst (node_range satisfies nodeCatalog (fst constraints) true))
        (snd (node_range satisfies nodeCatalog (fst constraints) true))
        (fst (npm_range satisfies npmCatalog (snd constraints)))
        (snd (npm_range satisfies npmCatalog (snd constraints)))
        None
  end.

(** No own property of [v] is called [__proto__]. *)
Definition plain_keys (v : value) : bool :=
  negb (DependencyAnalyzerService.has_key (own_props v) "__proto__").

(** An editor that applies every edit and shows every document. *)
Definition sample_apply_edit (uri : string) (content : value) (indent : nat)
  : outcome bool := Ok true.

Definition sample_show_document (uri : string) : outcome unit := Ok tt.

(** [satisfies] raises on strings at most, and the package's never raises.
    The handler of a test quotes the range in its warning, which cannot fail
    for a string. *)
Definition raises_on_strings_only (satisfies : string -> value -> outcome bool) : Prop :=
  forall version range,
    (exists c, range = VStr c) \/ (exists b, satisfies version range = Ok b).

(** * Properties *)


(** ** The monad *)

Lemma log_nil (s : store) : log [] s = s.
Proof. destruct s; unfold log; simpl. now rewrite app_nil_r. Qed.

Lemma log_log (a b : list event) (s : store) : log b (log a s) = log (a ++ b) s.
Proof. unfold log; simpl. now rewrite app_assoc. Qed.

Lemma emit_run (ev : event) (s : store) : emit ev s = (Ok tt, log [ev] s).
Proof. reflexivity. Qed.

Lemma logs_ret {A} (a : A) : logs (ret a) a.
Proof. intros s. exists []. now rewrite log_nil. Qed.

Lemma logs_bind {A B} (m : M A) (f : A -> M B) (a : A) (b : B) :
  logs m a -> logs (f a) b -> logs (bind m f) b.
Proof.
  intros Hm Hf s. destruct (Hm s) as [e1 H1]. destruct (Hf (log e1 s)) as [e2 H2].
  exists (e1 ++ e2). unfold bind. now rewrite H1, H2, log_log.
Qed.

Lemma logs_emit (ev : event) : logs (emit ev) tt.
Proof. intros s. exists [ev]. apply emit_run. Qed.

Section ResolverFacts.

Variable satisfies : string -> value -> outcome bool.

Lemma test_range_logs kind version rangeStr :
  logs (test_range satisfies kind version rangeStr) (holds satisfies version rangeStr).
Proof.
  intros s. unfold holds. destruct (satisfies version rangeStr) as [b | e] eqn:E.
  - exists []. unfold test_range, try_catch, lift. now rewrite E, log_nil.
  - assert (H : logs (emit (ConsoleError e) ;;
                      emit (WarnInvalidRange kind rangeStr version) ;; ret false) false).
    { eapply logs_bind; [apply logs_emit |].
      eapply logs_bind; [apply logs_emit | apply logs_ret]. }
    destruct (H s) as [evs Hs]. exists evs.
    unfold test_range, try_catch, lift. now rewrite E.
Qed.

Lemma js_every_logs {A} (f : A -> M bool) (g : A -> bool) (l : list A) :
  (forall x, logs (f x) (g x)) -> logs (js_every f l) (forallb g l).
Proof.
  intros Hf. induction l as [| x l IH]; simpl.
  - apply logs_ret.
  - intros s. destruct (Hf x s) as [e1 H1]. unfold bind. rewrite H1.
    destruct (g x); simpl.
    + destruct (IH (log e1 s)) as [e2 H2]. exists (e1 ++ e2).
      now rewrite H2, log_log.
    + exists e1. reflexivity.
Qed.

Lemma js_filter_logs {A} (f : A -> M bool) (g : A -> bool) (l : list A) :
  (forall x, logs (f x) (g x)) -> logs (js_filter f l) (filter g l).
Proof.
  intros Hf. induction l as [| x l IH]; simpl.
  - apply logs_ret.
  - eapply logs_bind; [apply Hf |].
    eapply logs_bind; [apply IH |].
    destruct (g x); apply logs_ret.
Qed.

Lemma compatible_versions_logs kind catalog ranges :
  logs (compatible_versions satisfies kind catalog ranges)
       (satisfying_sublist satisfies catalog ranges).
Proof.
  unfold compatible_versions, satisfying_sublist.
  apply js_filter_logs. intros v. apply js_every_logs. intros r.
  apply test_range_logs.
Qed.

Lemma last_default (l : list string) (b d d' : string) :
  last (b :: l) d = last (b :: l) d'.
Proof.
  revert b. induction l as [| c l IH]; intros b; [reflexivity |].
  change (last (c :: l) d = last (c :: l) d'). apply IH.
Qed.

Lemma nth_error_last (l : list string) (a : string) :
  nth_error (a :: l) (List.length l) = Some (last (a :: l) a).
Proof.
  revert a. induction l as [| b l IH]; intros a; [reflexivity |].
  change (nth_error (b :: l) (List.length l) = Some (last (b :: l) a)).
  rewrite IH. f_equal. apply last_default.
Qed.

Lemma index_last (l : list string) (a : string) :
  index (a :: l) (List.length (a :: l) - 1) = VStr (last (a :: l) a).
Proof.
  unfold index. simpl List.length. rewrite Nat.sub_succ, Nat.sub_0_r.
  now rewrite nth_error_last.
Qed.

Lemma picked_first_last (l : list string) :
  (if (0 <? List.length l)%nat
   then (index l 0, index l (List.length l - 1))
   else (VNull, VNull)) = first_last l.
Proof.
  destruct l as [| a l]; [reflexivity |].
  change (0 <? List.length (a :: l))%nat with true. cbv iota.
  unfold first_last. now rewrite index_last.
Qed.

Lemma calculateNodeRange_logs nodeCatalog ranges hasDependencies :
  logs (calculateNodeRange satisfies nodeCatalog ranges hasDependencies)
       (node_range satisfies nodeCatalog ranges hasDependencies).
Proof.
  unfold calculateNodeRange, node_range. destruct ranges as [| r ranges].
  - simpl. destruct hasDependencies; apply logs_ret.
  - change (0 <? List.length (r :: ranges))%nat with true. cbv iota.
    intros s. destruct (compatible_versions_logs Node nodeCatalog (r :: ranges) s) as [evs H].
    exists evs. unfold bind. rewrite H.
    rewrite <- picked_first_last.
    destruct (0 <? List.length (satisfying_sublist satisfies nodeCatalog (r :: ranges)))%nat;
      reflexivity.
Qed.

Lemma calculateNpmRange_logs npmCatalog ranges :
  logs (calculateNpmRange satisfies npmCatalog ranges)
       (npm_range satisfies npmCatalog ranges).
Proof.
  unfold calculateNpmRange, npm_range. destruct ranges as [| r ranges].
  - simpl. apply logs_ret.
  - change (0 <? List.length (r :: ranges))%nat with true. cbv iota.
    intros s. destruct (compatible_versions_logs Npm npmCatalog (r :: ranges) s) as [evs H].
    exists evs. unfold bind. rewrite H.
    rewrite <- picked_first_last.
    destruct (0 <? List.length (satisfying_sublist satisfies npmCatalog (r :: ranges)))%nat;
      reflexivity.
Qed.

End ResolverFacts.

Lemma satisfying_sublist_In satisfies catalog (L : list value) (v : string) :
  In v (satisfying_sublist satisfies catalog L)
  <-> In v catalog /\ forall r, In r L -> satisfies v r = Ok true.
Proof.
  unfold satisfying_sublist. rewrite filter_In, forallb_forall. unfold holds.
  split; intros [Hin H]; split; trivial; intros r Hr; specialize (H r Hr).
  - destruct (satisfies v r) as [[|] | e]; congruence.
  - now rewrite H.
Qed.

(** ** The resolver *)

(** C1: for a non-empty constraint list, both resolvers return (first, last)
    of the catalog-order sublist of the versions that satisfy every
    constraint, and (absent, absent) when that sublist is empty; on the
    catalog 18.0.0, 19.0.0, 19.5.0, 20.0.0 and the single constraint
    [>=18.0.0 <20.0.0] the result is (18.0.0, 19.5.0). *)
Theorem C1_resolver_first_last :
  (forall satisfies catalog (L : list value) hasDependencies s,
      L <> [] ->
      fst (calculateNodeRange satisfies catalog L hasDependencies s)
        = Ok (first_last (satisfying_sublist satisfies catalog L))
      /\ fst (calculateNpmRange satisfies catalog L s)
        = Ok (first_last (satisfying_sublist satisfies catalog L))
      /\ (forall v, In v (satisfying_sublist satisfies catalog L)
                    <-> In v catalog /\ forall r, In r L -> satisfies v r = Ok true)
      /\ (satisfying_sublist satisfies catalog L = []
          -> first_last (satisfying_sublist satisfies catalog L) = (VNull, VNull)))
  /\ resolved (calculateNodeRange Semver.satisfies
                 ["18.0.0"; "19.0.0"; "19.5.0"; "20.0.0"]
                 [VStr ">=18.0.0 <20.0.0"] true)
     = Some (VStr "18.0.0", VStr "19.5.0").
Proof.
  split.
  - intros satisfies catalog L hasDependencies s HL.
    destruct L as [| r L]; [congruence |].
    destruct (calculateNodeRange_logs satisfies catalog (r :: L) hasDependencies s) as [e1 H1].
    destruct (calculateNpmRange_logs satisfies catalog (r :: L) s) as [e2 H2].
    rewrite H1, H2. simpl fst.
    split; [reflexivity |]. split; [reflexivity |]. split.
    + intros v. apply satisfying_sublist_In.
    + intros H. now rewrite H.
  - vm_compute. reflexivity.
Qed.

Lemma C1_resolver_first_last_witness :
  [VStr ">=20.0.0"] <> []
  /\ fst (calculateNodeRange Semver.satisfies SharedConstants.COMMON_NODEJS_VERSIONS
            [VStr ">=20.0.0"] true initial_store)
     = Ok (first_last (satisfying_sublist Semver.satisfies
                         SharedConstants.COMMON_NODEJS_VERSIONS [VStr ">=20.0.0"])).
Proof.
  split; [discriminate |].
  assert (Hne : [VStr ">=20.0.0"] <> []) by discriminate.
  exact (proj1 (proj1 C1_resolver_first_last Semver.satisfies
                  SharedConstants.COMMON_NODEJS_VERSIONS [VStr ">=20.0.0"] true
                  initial_store Hne)).
Defined.

(** ** The range formatter *)

Lemma formatVersionRange_min (m : string) :
  m <> "" -> formatVersionRange (Some m) None = Some (">=" ++ m)%string.
Proof.
  intros Hm. unfold formatVersionRange. simpl.
  destruct (String.eqb_spec m ""); [contradiction | reflexivity].
Qed.

Lemma formatVersionRange_max (x : string) :
  x <> "" -> formatVersionRange None (Some x) = Some ("<=" ++ x)%string.
Proof.
  intros Hx. unfold formatVersionRange. simpl.
  destruct (String.eqb_spec x ""); [contradiction | reflexivity].
Qed.

Lemma formatVersionRange_both (m x : string) :
  m <> "" -> x <> "" ->
  formatVersionRange (Some m) (Some x) = Some (">=" ++ m ++ " " ++ "<=" ++ x)%string.
Proof.
  intros Hm Hx. unfold formatVersionRange. simpl.
  destruct (String.eqb_spec m ""); [contradiction |].
  destruct (String.eqb_spec x ""); [contradiction |]. simpl.
  f_equal. f_equal. f_equal. clear. induction m as [| c m IH]; [reflexivity |].
  simpl. now rewrite IH.
Qed.

Lemma formatVersionRange_empty_is_absent (v : option string) :
  formatVersionRange (Some "") v = formatVersionRange None v
  /\ formatVersionRange v (Some "") = formatVersionRange v None.
Proof. split; reflexivity. Qed.

(** ** The collector *)

Section CollectorFacts.

Variable existsSync : string -> bool.
Variable readJsonSync : string -> outcome value.
Variable join : list string -> string.

Let dep_path (nodeModulesPath depName : string) : string :=
  join [nodeModulesPath; depName; "package.json"].

Lemma truthy_get_prop (v : value) (k : string) :
  truthy v = true -> exists x, get_prop v k = Ok x.
Proof. destruct v; simpl; intros H; try discriminate; eexists; reflexivity. Qed.

Lemma pushed_pushed c1 e1 c2 e2 s :
  pushed c2 e2 (pushed c1 e1 s)
  = pushed (fst c1 ++ fst c2, snd c1 ++ snd c2) (e1 ++ e2) s.
Proof. unfold pushed; simpl. now rewrite !app_assoc. Qed.

Lemma collect_dependency_run nodeModulesPath totalDeps depCount depName s :
  exists evs,
    collect_dependency existsSync readJsonSync join nodeModulesPath totalDeps
      depCount depName s
    = (Ok tt,
       pushed (contribution (metadata existsSync readJsonSync
                               (dep_path nodeModulesPath depName))) evs s).
Proof.
  set (progress := ProgressShare depCount totalDeps
                     (Some ("Analyzing " ++ depName ++ "...")%string)).
  set (path := join [nodeModulesPath; depName; "package.json"]).
  assert (Hfin : forall A B T (c : list value * list value) evs,
             A = allNodeRanges s ++ fst c -> B = allNpmRanges s ++ snd c ->
             T = trace s ++ evs ->
             (Ok tt, mkStore A B T) = (Ok tt, pushed c evs s)).
  { intros A B T c evs -> -> ->. reflexivity. }
  unfold collect_dependency, metadata, dep_path, fs_exists, read_json.
  fold progress. fold path.
  unfold bind at 1 2 3. rewrite !emit_run. unfold ret at 1.
  destruct (existsSync path).
  - unfold try_catch, bind at 1 2. rewrite emit_run. unfold lift at 1.
    destruct (readJsonSync path) as [pkg | e]; simpl contribution.
    + unfold bind at 1, lift at 1.
      destruct (get_prop pkg "engines") as [engines | e].
      * destruct (truthy engines) eqn:Ht.
        -- destruct (truthy_get_prop engines "node" Ht) as [node Hn].
           destruct (truthy_get_prop engines "npm" Ht) as [npm Hp].
           rewrite Hn, Hp. unfold bind, lift.
           exists [progress; FsExists path; FsRead path].
           destruct (truthy node), (truthy npm); apply Hfin; cbn;
             rewrite <- ?app_assoc, ?app_nil_r; reflexivity.
        -- exists [progress; FsExists path; FsRead path].
           apply Hfin; cbn; rewrite <- ?app_assoc, ?app_nil_r; reflexivity.
      * exists [progress; FsExists path; FsRead path;
                WarnDependencyUnparsable depName e].
        apply Hfin; cbn; rewrite <- ?app_assoc, ?app_nil_r; reflexivity.
    + exists [progress; FsExists path; FsRead path;
              WarnDependencyUnparsable depName e].
      apply Hfin; cbn; rewrite <- ?app_assoc, ?app_nil_r; reflexivity.
  - exists [progress; FsExists path; WarnDependencyNotFound depName].
    apply Hfin; cbn; rewrite <- ?app_assoc, ?app_nil_r; reflexivity.
Qed.

Lemma collect_loop_run nodeModulesPath totalDeps names : forall depCount s,
  exists evs,
    js_for_of (collect_dependency existsSync readJsonSync join nodeModulesPath totalDeps)
      depCount names s
    = (Ok tt,
       pushed (collected (map (fun d => metadata existsSync readJsonSync
                                          (dep_path nodeModulesPath d)) names))
         evs s).
Proof.
  induction names as [| d names IH]; intros depCount s.
  - exists []. unfold pushed; cbn. destruct s; cbn. now rewrite !app_nil_r.
  - cbn [js_for_of map collected]. unfold bind.
    destruct (collect_dependency_run nodeModulesPath totalDeps (S depCount) d s)
      as [e1 H1].
    rewrite H1.
    destruct (IH (S depCount)
                (pushed (contribution (metadata existsSync readJsonSync
                                         (dep_path nodeModulesPath d))) e1 s))
      as [e2 H2].
    rewrite H2. exists (e1 ++ e2). now rewrite pushed_pushed.
Qed.

End CollectorFacts.

(** ** The orchestrator *)

Section AnalysisFacts.

Variable existsSync : string -> bool.
Variable readJsonSync : string -> outcome value.
Variable join : list string -> string.
Variable satisfies : string -> value -> outcome bool.
Variable nodeCatalog npmCatalog : list string.

Let analyze : string -> M (option ProjectAnalysisResult) :=
  analyzeProjectIncludes existsSync readJsonSync join satisfies nodeCatalog npmCatalog.

Let manifest_path (projectPath : string) : string := join [projectPath; "package.json"].

Let dep_metas (projectPath : string) (names : list string) :=
  map (fun d => metadata existsSync readJsonSync
                  (join [join [projectPath; "node_modules"]; d; "package.json"])) names.



Lemma analyze_reads_manifest (manifest : value) (names : list string) :
  dependency_names manifest = Ok names ->
  exists deps devDeps,
    get_prop manifest "dependencies" = Ok deps
    /\ get_prop manifest "devDependencies" = Ok devDeps
    /\ names = object_keys (spread2 (or_empty deps) (or_empty devDeps)).
Proof.
  intros Hn. unfold dependency_names in Hn.
  destruct (get_prop manifest "dependencies") as [deps |]; [| discriminate].
  destruct (get_prop manifest "devDependencies") as [devDeps |]; [| discriminate].
  exists deps, devDeps. repeat split. congruence.
Qed.

Lemma analyze_no_dependencies projectPath manifest s :
  existsSync (manifest_path projectPath) = true ->
  readJsonSync (manifest_path projectPath) = Ok manifest ->
  dependency_names manifest = Ok [] ->
  analyze projectPath s
  = (Ok (Some (mkResult (manifest_path projectPath) VNull VNull VNull VNull
                 (Some "No dependencies to analyze."))),
     log [FsExists (manifest_path projectPath); FsRead (manifest_path projectPath)] s).
Proof.
  intros H Hr Hn.
  destruct (analyze_reads_manifest manifest [] Hn)
    as (deps & devDeps & Hd & Hdd & Hk).
  unfold analyze, analyzeProjectIncludes, fs_exists, read_json, manifest_path in *.
  unfold bind at 1 2. rewrite emit_run. unfold ret at 1. rewrite H. cbn [negb].
  unfold bind at 1, try_catch, bind at 1 2. rewrite emit_run.
  unfold lift at 1. rewrite Hr. unfold ret at 1.
  unfold bind at 1, lift at 1. rewrite Hd.
  unfold bind at 1, lift at 1. rewrite Hdd.
  rewrite <- Hk. cbn [List.length Nat.eqb]. unfold ret. now rewrite log_log.
Qed.

Lemma analyze_with_dependencies projectPath manifest names s :
  existsSync (manifest_path projectPath) = true ->
  readJsonSync (manifest_path projectPath) = Ok manifest ->
  dependency_names manifest = Ok names ->
  names <> [] ->
  exists evs,
    analyze projectPath s
    = (Ok (Some (mkResult (manifest_path projectPath)
                   (fst (node_range satisfies nodeCatalog
                           (fst (collected (dep_metas projectPath names))) true))
                   (snd (node_range satisfies nodeCatalog
                           (fst (collected (dep_metas projectPath names))) true))
                   (fst (npm_range satisfies npmCatalog
                           (snd (collected (dep_metas projectPath names)))))
                   (snd (npm_range satisfies npmCatalog
                           (snd (collected (dep_metas projectPath names)))))
                   None)),
       mkStore (fst (collected (dep_metas projectPath names)))
         (snd (collected (dep_metas projectPath names))) (trace s ++ evs)).
Proof.
  intros H Hr Hn Hne.
  destruct (analyze_reads_manifest manifest names Hn)
    as (deps & devDeps & Hd & Hdd & Hk).
  unfold analyze, analyzeProjectIncludes, fs_exists, read_json, manifest_path in *.
  unfold bind at 1 2. rewrite emit_run. unfold ret at 1. rewrite H. cbn [negb].
  unfold bind at 1, try_catch, bind at 1 2. rewrite emit_run.
  unfold lift at 1. rewrite Hr. unfold ret at 1.
  unfold bind at 1, lift at 1. rewrite Hd.
  unfold bind at 1, lift at 1. rewrite Hdd.
  rewrite <- Hk.
  destruct names as [| d names]; [congruence |].
  set (ks := d :: names) in *.
  change (List.length ks =? 0)%nat with false. cbv iota.
  change (0 <? List.length ks)%nat with true.
  unfold bind at 1. rewrite emit_run.
  unfold bind at 1, declare_ranges at 1.
  unfold bind at 1.
  match goal with
  | |- context [js_for_of ?body 0 ks ?st] =>
      destruct (collect_loop_run existsSync readJsonSync join
                  (join [projectPath; "node_modules"]) (List.length ks) ks 0 st)
        as [e1 H1]; rewrite H1
  end.
  unfold bind at 1. rewrite emit_run.
  unfold bind at 1, get_node_ranges at 1.
  unfold bind at 1.
  match goal with
  | |- context [calculateNodeRange satisfies nodeCatalog ?L true ?st] =>
      destruct (calculateNodeRange_logs satisfies nodeCatalog L true st) as [e2 H2];
      rewrite H2
  end.
  unfold bind at 1, get_npm_ranges at 1.
  unfold bind at 1.
  match goal with
  | |- context [calculateNpmRange satisfies npmCatalog ?L ?st] =>
      destruct (calculateNpmRange_logs satisfies npmCatalog L st) as [e3 H3];
      rewrite H3
  end.
  unfold bind, ret. rewrite emit_run.
  eexists. unfold log, pushed, dep_metas. cbn.
  rewrite <- ?app_assoc. reflexivity.
Qed.

End AnalysisFacts.

(** ** Claims about the collector and the orchestrator *)

Lemma contribution_node_empty (meta : option (outcome value)) :
  fst (contribution meta) = []
  <-> exists pkg, meta = Some (Ok pkg) /\ engines_without_node pkg = true.
Proof.
  unfold contribution, engines_without_node. split.
  - destruct meta as [[pkg | e] |]; try discriminate.
    intros H. exists pkg. split; [reflexivity |].
    destruct (get_prop pkg "engines") as [engines | e]; [| discriminate].
    destruct (truthy engines) eqn:Ht; [| discriminate]. simpl in H |- *.
    destruct (get_prop engines "node") as [node | e]; [| reflexivity].
    destruct (truthy node); [discriminate | reflexivity].
  - intros (pkg & -> & H).
    destruct (get_prop pkg "engines") as [engines | e]; [| discriminate].
    destruct (truthy engines) eqn:Ht; [| discriminate]. simpl in H |- *.
    destruct (get_prop engines "node") as [node | e]; [| reflexivity].
    destruct (truthy node); [discriminate | reflexivity].
Qed.

Lemma contribution_node_one (meta : option (outcome value)) :
  fst (contribution meta) = [] \/ exists c, fst (contribution meta) = [c].
Proof.
  unfold contribution.
  destruct meta as [[pkg | e] |]; try (right; eexists; reflexivity).
  destruct (get_prop pkg "engines") as [engines | e]; [| right; eexists; reflexivity].
  destruct (truthy engines); [| right; eexists; reflexivity]. simpl.
  destruct (get_prop engines "node") as [node | e]; [| now left].
  destruct (truthy node); [right; eexists; reflexivity | now left].
Qed.

Lemma contribution_unavailable (meta : option (outcome value)) :
  unavailable meta -> contribution meta = ([VStr ">=0.10.0"], []).
Proof. intros [-> | [e ->]]; reflexivity. Qed.

Lemma contribution_undeclared (pkg : value) :
  declares_node pkg = false ->
  fst (contribution (Some (Ok pkg))) = [VStr ">=0.10.0"]
  \/ fst (contribution (Some (Ok pkg))) = [].
Proof.
  unfold declares_node, contribution.
  destruct (get_prop pkg "engines") as [engines | e]; [| now left].
  destruct (truthy engines); [| now left]. simpl.
  destruct (get_prop engines "node") as [node | e]; [| now right].
  destruct (truthy node); [discriminate | now right].
Qed.

(** C2, counterexample: a project with one dependency whose metadata has an
    empty [engines] object.  The dependency set is not empty, nothing was
    recorded for the runtime, and the runtime range is the span of the
    catalog, not (absent, absent). *)
Lemma C2_counterexample :
  let run := sample_run (Some (Ok manifest_one_dependency))
               (Some (Ok (VObj [("name", VStr "dep"); ("engines", VObj [])]))) in
  dependency_names manifest_one_dependency = Ok ["dep"]
  /\ allNodeRanges (snd run) = []
  /\ exists r, fst run = Ok (Some r)
               /\ (minNode r, maxNode r) = (VStr "18.0.0", VStr "22.4.1")
               /\ (minNode r, maxNode r) <> (VNull, VNull).
Proof.
  cbv zeta. split; [reflexivity |]. split; [vm_compute; reflexivity |].
  eexists. split; [vm_compute; reflexivity |]. split; [reflexivity | discriminate].
Qed.

(** C2, amended: on an empty constraint list the package-manager resolver
    returns (absent, absent), while the runtime resolver of a project with
    dependencies returns the first and the last entry of its catalog.  A
    dependency leaves the runtime list untouched exactly when its metadata
    was read and has an [engines] entry without a [node] entry; every other
    dependency records one runtime constraint. *)
Theorem C2_empty_constraint_list :
  forall existsSync readJsonSync join satisfies nodeCatalog npmCatalog
         nodeModulesPath totalDeps depCount depName s,
    fst (calculateNpmRange satisfies npmCatalog [] s) = Ok (VNull, VNull)
    /\ fst (calculateNodeRange satisfies nodeCatalog [] true s)
       = Ok (whole_catalog nodeCatalog)
    /\ (forall a rest, nodeCatalog = a :: rest ->
          whole_catalog nodeCatalog = (VStr a, VStr (last nodeCatalog a)))
    /\ (let meta := metadata existsSync readJsonSync
                      (join [nodeModulesPath; depName; "package.json"]) in
        let s' := snd (collect_dependency existsSync readJsonSync join nodeModulesPath
                         totalDeps depCount depName s) in
        allNodeRanges s' = allNodeRanges s ++ fst (contribution meta)
        /\ (fst (contribution meta) = []
            <-> exists pkg, meta = Some (Ok pkg) /\ engines_without_node pkg = true)
        /\ (fst (contribution meta) = [] \/ exists c, fst (contribution meta) = [c])).
Proof.
  intros. split; [reflexivity |]. split; [reflexivity |]. split.
  - intros a rest ->. unfold whole_catalog. now rewrite index_last.
  - cbv zeta.
    destruct (collect_dependency_run existsSync readJsonSync join nodeModulesPath
                totalDeps depCount depName s) as [evs H].
    rewrite H. split; [reflexivity |]. split.
    + apply contribution_node_empty.
    + apply contribution_node_one.
Qed.


(** [satisfies] of the model answers on every pair of arguments, as the
    package does. *)
Lemma semver_satisfies_answers (version : string) (range : value) :
  exists b, Semver.satisfies version range = Ok b.
Proof.
  unfold Semver.satisfies. destruct range; try (eexists; reflexivity).
  destruct (Semver.parse_range s), (Semver.parse version); eexists; reflexivity.
Qed.

(** C4: a constraint string that does not parse is one no version passes the
    test of: the package's [satisfies] answers false on it, and an
    implementation that raises instead is caught by the callback, whose
    warning quotes the constraint and cannot fail for a string.  For every
    [satisfies] that raises on strings at most, every test against such a
    constraint answers not-satisfied instead of throwing; the scan goes on
    over the remaining versions and constraints and gives the result it would
    give if every failing test had answered false, which is (absent, absent)
    for a list that holds the constraint; neither resolver throws, and the
    analysis of a project whose manifest could be read returns a result. *)
Theorem C4_malformed_constraint_not_fatal :
  forall satisfies kind catalog (L : list value) (c : string) s,
    (forall v r, (exists c', r = VStr c') \/ (exists b, satisfies v r = Ok b)) ->
    (forall v, satisfies v (VStr c) <> Ok true) ->
    (forall v, fst (test_range satisfies kind v (VStr c) s) = Ok false)
    /\ fst (compatible_versions satisfies kind catalog L s)
       = Ok (satisfying_sublist (recovering satisfies) catalog L)
    /\ (forall hasDependencies,
           fst (calculateNodeRange satisfies catalog L hasDependencies s)
           = Ok (node_range (recovering satisfies) catalog L hasDependencies))
    /\ fst (calculateNpmRange satisfies catalog L s)
       = Ok (npm_range (recovering satisfies) catalog L)
    /\ (In (VStr c) L ->
        (forall hasDependencies,
            fst (calculateNodeRange satisfies catalog L hasDependencies s)
            = Ok (VNull, VNull))
        /\ fst (calculateNpmRange satisfies catalog L s) = Ok (VNull, VNull))
    /\ (forall existsSync readJsonSync join npmCatalog projectPath manifest names,
           existsSync (join [projectPath; "package.json"]) = true ->
           readJsonSync (join [projectPath; "package.json"]) = Ok manifest ->
           dependency_names manifest = Ok names ->
           exists r,
             fst (analyzeProjectIncludes existsSync readJsonSync join satisfies
                    catalog npmCatalog projectPath s) = Ok (Some r)).
Proof.
  intros satisfies kind catalog L c s _ Hc.
  assert (Hnode : forall hasDependencies,
             fst (calculateNodeRange satisfies catalog L hasDependencies s)
             = Ok (node_range (recovering satisfies) catalog L hasDependencies)).
  { intros hasDependencies.
    destruct (calculateNodeRange_logs satisfies catalog L hasDependencies s) as [evs H].
    now rewrite H. }
  assert (Hnpm : fst (calculateNpmRange satisfies catalog L s)
                 = Ok (npm_range (recovering satisfies) catalog L)).
  { destruct (calculateNpmRange_logs satisfies catalog L s) as [evs H]. now rewrite H. }
  split; [| split; [| split; [| split; [| split]]]].
  - intros v. destruct (test_range_logs satisfies kind v (VStr c) s) as [evs H].
    rewrite H. cbn [fst]. f_equal. unfold holds.
    destruct (satisfies v (VStr c)) as [[|] |] eqn:E; try reflexivity.
    exfalso. now apply (Hc v).
  - destruct (compatible_versions_logs satisfies kind catalog L s) as [evs H].
    now rewrite H.
  - exact Hnode.
  - exact Hnpm.
  - intros Hin.
    assert (Hnone : forall versions,
               satisfying_sublist (recovering satisfies) versions L = []).
    { unfold satisfying_sublist.
      induction versions as [| v versions IH]; [reflexivity |]. cbn [filter].
      assert (Hv : forallb (holds (recovering satisfies) v) L = false).
      { apply not_true_is_false. intros Hall. rewrite forallb_forall in Hall.
        specialize (Hall _ Hin). unfold holds, recovering, holds in Hall.
        destruct (satisfies v (VStr c)) as [[|] |] eqn:E; try discriminate.
        now apply (Hc v). }
      now rewrite Hv. }
    destruct L as [| r L]; [destruct Hin |].
    split.
    + intros hasDependencies. rewrite Hnode. cbn [node_range]. now rewrite Hnone.
    + rewrite Hnpm. cbn [npm_range]. now rewrite Hnone.
  - intros existsSync readJsonSync join npmCatalog projectPath manifest names Hx Hr Hn.
    destruct names as [| d names].
    + rewrite (analyze_no_dependencies existsSync readJsonSync join satisfies catalog
                 npmCatalog projectPath manifest s Hx Hr Hn).
      eexists. reflexivity.
    + destruct (analyze_with_dependencies existsSync readJsonSync join satisfies catalog
                  npmCatalog projectPath manifest (d :: names) s Hx Hr Hn) as [evs H];
        [discriminate |].
      rewrite H. eexists. reflexivity.
Qed.

Lemma C4_malformed_constraint_not_fatal_witness :
  fst (test_range Semver.satisfies Npm "9.0.0" (VStr ">=not.a.version") initial_store)
  = Ok false
  /\ fst (calculateNpmRange Semver.satisfies SharedConstants.COMMON_NPM_VERSIONS
            [VStr ">=not.a.version"; VStr ">=9.0.0"] initial_store)
     = Ok (VNull, VNull).
Proof.
  assert (Hanswers : forall v r,
             (exists c', r = VStr c') \/ (exists b, Semver.satisfies v r = Ok b)).
  { intros v r. right. apply semver_satisfies_answers. }
  assert (Hmalformed : forall v, Semver.satisfies v (VStr ">=not.a.version") <> Ok true).
  { intros v. unfold Semver.satisfies.
    change (Semver.parse_range ">=not.a.version") with (@None (list (list Semver.comparator))).
    discriminate. }
  destruct (C4_malformed_constraint_not_fatal Semver.satisfies Npm
              SharedConstants.COMMON_NPM_VERSIONS
              [VStr ">=not.a.version"; VStr ">=9.0.0"] ">=not.a.version" initial_store
              Hanswers Hmalformed) as (Htest & _ & _ & _ & Hnull & _).
  split; [exact (Htest "9.0.0") | exact (proj2 (Hnull (or_introl eq_refl)))].
Defined.

(** C8: when the merged dependency object of the manifest has no keys, the
    analysis returns the result carrying the no-dependencies note with all
    four bounds absent, and the only file-system accesses are the probe and
    the read of the manifest itself. *)
Theorem C8_no_dependencies :
  forall existsSync readJsonSync join satisfies nodeCatalog npmCatalog
         projectPath manifest s,
    existsSync (join [projectPath; "package.json"]) = true ->
    readJsonSync (join [projectPath; "package.json"]) = Ok manifest ->
    dependency_names manifest = Ok [] ->
    analyzeProjectIncludes existsSync readJsonSync join satisfies nodeCatalog npmCatalog
      projectPath s
    = (Ok (Some (mkResult (join [projectPath; "package.json"])
                   VNull VNull VNull VNull (Some Constants.NOTE_NO_DEPENDENCIES))),
       log [FsExists (join [projectPath; "package.json"]);
            FsRead (join [projectPath; "package.json"])] s).
Proof.
  intros. now apply analyze_no_dependencies with (manifest := manifest).
Qed.

Lemma C8_no_dependencies_witness :
  sample_run (Some (Ok manifest_no_dependencies)) None
  = (Ok (Some (mkResult "/app/package.json" VNull VNull VNull VNull
                 (Some "No dependencies to analyze."))),
     log [FsExists "/app/package.json"; FsRead "/app/package.json"] initial_store).
Proof.
  exact (C8_no_dependencies
           (sample_exists (Some (Ok manifest_no_dependencies)) None)
           (sample_read (Some (Ok manifest_no_dependencies)) None)
           sample_join Semver.satisfies
           SharedConstants.COMMON_NODEJS_VERSIONS SharedConstants.COMMON_NPM_VERSIONS
           "/app" manifest_no_dependencies initial_store
           eq_refl eq_refl eq_refl).
Defined.



(** C3: a dependency whose metadata is missing or unreadable adds exactly the
    default [>=0.10.0] to the runtime constraints and nothing to the
    package-manager constraints.  Hence a project whose only dependency is
    such an entry gets the same runtime range as a project whose only
    dependency has readable metadata without a runtime constraint of its own,
    and its package-manager range stays (absent, absent). *)
Theorem C3_unavailable_metadata_defaults :
  forall existsSync1 readJsonSync1 existsSync2 readJsonSync2 join
         projectPath1 projectPath2 manifest1 manifest2 dep1 dep2 pkg2
         totalDeps depCount s s1 s2,
    existsSync1 (join [projectPath1; "package.json"]) = true ->
    readJsonSync1 (join [projectPath1; "package.json"]) = Ok manifest1 ->
    dependency_names manifest1 = Ok [dep1] ->
    unavailable (metadata existsSync1 readJsonSync1
                   (join [join [projectPath1; "node_modules"]; dep1; "package.json"])) ->
    existsSync2 (join [projectPath2; "package.json"]) = true ->
    readJsonSync2 (join [projectPath2; "package.json"]) = Ok manifest2 ->
    dependency_names manifest2 = Ok [dep2] ->
    metadata existsSync2 readJsonSync2
      (join [join [projectPath2; "node_modules"]; dep2; "package.json"]) = Some (Ok pkg2) ->
    declares_node pkg2 = false ->
    (let s' := snd (collect_dependency existsSync1 readJsonSync1 join
                      (join [projectPath1; "node_modules"]) totalDeps depCount dep1 s) in
     allNodeRanges s' = allNodeRanges s ++ [VStr Constants.DEFAULT_NODE_VERSION_RANGE]
     /\ allNpmRanges s' = allNpmRanges s)
    /\ exists r1 r2,
         fst (analyze_shipped existsSync1 readJsonSync1 join projectPath1 s1) = Ok (Some r1)
         /\ fst (analyze_shipped existsSync2 readJsonSync2 join projectPath2 s2) = Ok (Some r2)
         /\ minNode r1 = minNode r2 /\ maxNode r1 = maxNode r2
         /\ minNpm r1 = VNull /\ maxNpm r1 = VNull.
Proof.
  intros existsSync1 readJsonSync1 existsSync2 readJsonSync2 join
         projectPath1 projectPath2 manifest1 manifest2 dep1 dep2 pkg2
         totalDeps depCount s s1 s2 Hx1 Hr1 Hn1 Hu1 Hx2 Hr2 Hn2 Hm2 Hd2.
  pose proof (contribution_unavailable _ Hu1) as Hc1.
  split.
  - cbv zeta.
    destruct (collect_dependency_run existsSync1 readJsonSync1 join
                (join [projectPath1; "node_modules"]) totalDeps depCount dep1 s)
      as [evs H].
    rewrite H. cbn [snd pushed allNodeRanges allNpmRanges]. rewrite Hc1. cbn [fst snd].
    now rewrite app_nil_r.
  - destruct (analyze_with_dependencies existsSync1 readJsonSync1 join Semver.satisfies
                SharedConstants.COMMON_NODEJS_VERSIONS SharedConstants.COMMON_NPM_VERSIONS
                projectPath1 manifest1 [dep1] s1 Hx1 Hr1 Hn1) as [e1 H1]; [discriminate |].
    destruct (analyze_with_dependencies existsSync2 readJsonSync2 join Semver.satisfies
                SharedConstants.COMMON_NODEJS_VERSIONS SharedConstants.COMMON_NPM_VERSIONS
                projectPath2 manifest2 [dep2] s2 Hx2 Hr2 Hn2) as [e2 H2]; [discriminate |].
    unfold analyze_shipped. rewrite H1, H2. cbn [fst map collected].
    rewrite Hc1, Hm2. cbn [fst snd app]. rewrite !app_nil_r.
    eexists. eexists. split; [reflexivity |]. split; [reflexivity |].
    cbn [minNode maxNode minNpm maxNpm].
    destruct (contribution_undeclared pkg2 Hd2) as [-> | ->];
      repeat split; vm_compute; reflexivity.
Qed.

Lemma C3_unavailable_metadata_defaults_witness :
  exists r1 r2,
    fst (sample_run (Some (Ok manifest_one_dependency)) None) = Ok (Some r1)
    /\ fst (sample_run (Some (Ok manifest_one_dependency))
              (Some (Ok (VObj [("name", VStr "dep")])))) = Ok (Some r2)
    /\ minNode r1 = minNode r2 /\ maxNode r1 = maxNode r2
    /\ minNpm r1 = VNull /\ maxNpm r1 = VNull.
Proof.
  assert (Hu : unavailable
                 (metadata (sample_exists (Some (Ok manifest_one_dependency)) None)
                    (sample_read (Some (Ok manifest_one_dependency)) None)
                    (sample_join [sample_join ["/app"; "node_modules"]; "dep"; "package.json"]))).
  { left. reflexivity. }
  exact (proj2 (C3_unavailable_metadata_defaults
                  (sample_exists (Some (Ok manifest_one_dependency)) None)
                  (sample_read (Some (Ok manifest_one_dependency)) None)
                  (sample_exists (Some (Ok manifest_one_dependency))
                     (Some (Ok (VObj [("name", VStr "dep")]))))
                  (sample_read (Some (Ok manifest_one_dependency))
                     (Some (Ok (VObj [("name", VStr "dep")]))))
                  sample_join "/app" "/app"
                  manifest_one_dependency manifest_one_dependency "dep" "dep"
                  (VObj [("name", VStr "dep")]) 1 1 initial_store initial_store initial_store
                  eq_refl eq_refl eq_refl Hu eq_refl eq_refl eq_refl eq_refl eq_refl)).
Defined.

(** ** Claims about the range formatter *)

(** C5, counterexample: the empty string is a non-null minimum, yet the
    formatter returns null for it instead of [>=] followed by the minimum;
    next to a maximum it emits the maximum clause only. *)
Lemma C5_counterexample :
  formatVersionRange (Some "") None = None
  /\ formatVersionRange (Some "") None <> Some (">=" ++ "")%string
  /\ formatVersionRange (Some "") (Some "16.0.0")
     <> Some (">=" ++ "" ++ " " ++ "<=" ++ "16.0.0")%string.
Proof. repeat split; discriminate. Qed.

(** C5, amended: [formatRange(null, null)] is null; for bounds that are
    neither null nor the empty string, a lone minimum gives [>=minimum], a
    lone maximum gives [<=maximum], and both give [>=minimum <=maximum] with
    the minimum clause first whatever the two versions are. *)
Theorem C5_format_range :
  forall m x : string,
    m <> "" -> x <> "" ->
    formatVersionRange None None = None
    /\ formatVersionRange (Some m) None = Some (">=" ++ m)%string
    /\ formatVersionRange None (Some x) = Some ("<=" ++ x)%string
    /\ formatVersionRange (Some m) (Some x)
       = Some (">=" ++ m ++ " " ++ "<=" ++ x)%string.
Proof.
  intros m x Hm Hx. split; [reflexivity |].
  split; [now apply formatVersionRange_min |].
  split; [now apply formatVersionRange_max |].
  now apply formatVersionRange_both.
Qed.

Lemma C5_format_range_witness :
  formatVersionRange None None = None
  /\ formatVersionRange (Some "12.0.0") None = Some ">=12.0.0"
  /\ formatVersionRange None (Some "16.0.0") = Some "<=16.0.0"
  /\ formatVersionRange (Some "12.0.0") (Some "16.0.0") = Some ">=12.0.0 <=16.0.0".
Proof.
  assert (H1 : "12.0.0" <> "") by discriminate.
  assert (H2 : "16.0.0" <> "") by discriminate.
  exact (C5_format_range "12.0.0" "16.0.0" H1 H2).
Defined.

(** C10: the formatter treats an empty-string bound exactly like an absent
    one: next to a non-empty bound only the clause of that bound is emitted,
    two empty strings give null, and replacing an empty string by null never
    changes the result. *)
Theorem C10_empty_string_is_absent :
  forall x : string,
    x <> "" ->
    formatVersionRange (Some "") (Some x) = Some ("<=" ++ x)%string
    /\ formatVersionRange (Some x) (Some "") = Some (">=" ++ x)%string
    /\ formatVersionRange (Some "") (Some "") = None
    /\ (forall v, formatVersionRange (Some "") v = formatVersionRange None v
                  /\ formatVersionRange v (Some "") = formatVersionRange v None).
Proof.
  intros x Hx.
  split.
  { rewrite (proj1 (formatVersionRange_empty_is_absent (Some x))).
    now apply formatVersionRange_max. }
  split.
  { rewrite (proj2 (formatVersionRange_empty_is_absent (Some x))).
    now apply formatVersionRange_min. }
  split; [reflexivity |].
  apply formatVersionRange_empty_is_absent.
Qed.

Lemma C10_empty_string_is_absent_witness :
  formatVersionRange (Some "") (Some "16.0.0") = Some "<=16.0.0"
  /\ formatVersionRange (Some "16.0.0") (Some "") = Some ">=16.0.0"
  /\ formatVersionRange (Some "") (Some "") = None.
Proof.
  assert (H : "16.0.0" <> "") by discriminate.
  destruct (C10_empty_string_is_absent "16.0.0" H) as (H1 & H2 & H3 & _).
  exact (conj H1 (conj H2 H3)).
Defined.

(** ** Catalogs and the range invariant *)

Lemma last_In_cons (l : list string) (a : string) : In (last (a :: l) a) (a :: l).
Proof.
  revert a. induction l as [| b l IH]; intros a; [now left |].
  right. change (In (last (b :: l) a) (b :: l)).
  rewrite (last_default l b a b). apply IH.
Qed.

Lemma range_invariant_cons compare (a : string) (l : list string) (r : value * value) :
  range_invariant compare l r -> range_invariant compare (a :: l) r.
Proof.
  intros [-> | (lo & hi & -> & Hlo & Hhi & Hle)]; [now left |].
  right. exists lo, hi. repeat split; trivial; now right.
Qed.

Lemma first_last_filter_invariant compare (f : string -> bool) (catalog : list string) :
  ascending compare catalog = true ->
  range_invariant compare catalog (first_last (filter f catalog)).
Proof.
  induction catalog as [| a l IH]; intros Hasc; [now left |].
  simpl in Hasc. apply andb_prop in Hasc as [Hasc Hl].
  apply andb_prop in Hasc as [Haa Hal].
  simpl filter. destruct (f a).
  - right. exists a, (last (a :: filter f l) a).
    split; [reflexivity |]. split; [now left |].
    destruct (last_In_cons (filter f l) a) as [<- | Hin].
    + split; [now left | exact Haa].
    + apply filter_In in Hin as [Hin _]. split; [now right |].
      rewrite forallb_forall in Hal. now apply Hal.
  - apply range_invariant_cons. now apply IH.
Qed.

Lemma filter_all (l : list string) : filter (fun _ => true) l = l.
Proof. induction l as [| a l IH]; [reflexivity |]. simpl. now rewrite IH. Qed.

Lemma whole_catalog_invariant compare (catalog : list string) :
  catalog <> [] -> ascending compare catalog = true ->
  range_invariant compare catalog (whole_catalog catalog).
Proof.
  intros Hne Hasc. destruct catalog as [| a l]; [congruence |].
  unfold whole_catalog. rewrite index_last.
  change (index (a :: l) 0, VStr (last (a :: l) a)) with (first_last (a :: l)).
  rewrite <- (filter_all (a :: l)) at 2. now apply first_last_filter_invariant.
Qed.

Lemma node_range_invariant compare satisfies catalog (L : list value) hasDependencies :
  catalog <> [] -> ascending compare catalog = true ->
  range_invariant compare catalog (node_range satisfies catalog L hasDependencies).
Proof.
  intros Hne Hasc. unfold node_range. destruct L as [| r L].
  - destruct hasDependencies; [now apply whole_catalog_invariant | now left].
  - now apply first_last_filter_invariant.
Qed.

Lemma npm_range_invariant compare satisfies catalog (L : list value) :
  ascending compare catalog = true ->
  range_invariant compare catalog (npm_range satisfies catalog L).
Proof.
  intros Hasc. unfold npm_range. destruct L as [| r L]; [now left |].
  now apply first_last_filter_invariant.
Qed.

Lemma SharedConstants_loads :
  SharedConstants.COMMON_NODEJS_VERSIONS_init = Some SharedConstants.COMMON_NODEJS_VERSIONS
  /\ SharedConstants.COMMON_NPM_VERSIONS_init = Some SharedConstants.COMMON_NPM_VERSIONS
  /\ SharedConstants.COMMON_NODEJS_VERSIONS = SharedConstants.NODEJS_VERSIONS_LITERAL
  /\ SharedConstants.COMMON_NPM_VERSIONS = SharedConstants.NPM_VERSIONS_LITERAL.
Proof. repeat split; vm_compute; reflexivity. Qed.

Lemma Constants_loads :
  Constants.COMMON_NODEJS_VERSIONS_init = Some Constants.COMMON_NODEJS_VERSIONS
  /\ Constants.COMMON_NPM_VERSIONS_init = Some Constants.COMMON_NPM_VERSIONS
  /\ Constants.COMMON_NODEJS_VERSIONS = ["18.20.8"; "20.19.1"; "22.15.0"; "24.0.1"]
  /\ Constants.COMMON_NPM_VERSIONS = ["10.8.2"; "10.9.2"; "11.3.0"].
Proof. repeat split; vm_compute; reflexivity. Qed.

(** C6: whatever constraints were collected, the range each resolver
    returns over its shipped catalog (both generations of the constants) is
    either (absent, absent) or a pair of entries of that catalog whose first
    component precedes or equals the second in semantic-version order. *)
Theorem C6_resolved_range_invariant :
  forall satisfies (L : list value) hasDependencies s,
    (exists r,
        fst (calculateNodeRange satisfies SharedConstants.COMMON_NODEJS_VERSIONS
               L hasDependencies s) = Ok r
        /\ range_invariant Semver.compare SharedConstants.COMMON_NODEJS_VERSIONS r)
    /\ (exists r,
           fst (calculateNpmRange satisfies SharedConstants.COMMON_NPM_VERSIONS L s) = Ok r
           /\ range_invariant Semver.compare SharedConstants.COMMON_NPM_VERSIONS r)
    /\ (exists r,
           fst (calculateNodeRange satisfies Constants.COMMON_NODEJS_VERSIONS
                  L hasDependencies s) = Ok r
           /\ range_invariant Semver.compare Constants.COMMON_NODEJS_VERSIONS r)
    /\ (exists r,
           fst (calculateNpmRange satisfies Constants.COMMON_NPM_VERSIONS L s) = Ok r
           /\ range_invariant Semver.compare Constants.COMMON_NPM_VERSIONS r).
Proof.
  intros satisfies L hasDependencies s.
  split; [| split; [| split]].
  - destruct (calculateNodeRange_logs satisfies SharedConstants.COMMON_NODEJS_VERSIONS
                L hasDependencies s) as [evs H].
    rewrite H. eexists. split; [reflexivity |].
    apply node_range_invariant; [discriminate | vm_compute; reflexivity].
  - destruct (calculateNpmRange_logs satisfies SharedConstants.COMMON_NPM_VERSIONS L s)
      as [evs H].
    rewrite H. eexists. split; [reflexivity |].
    apply npm_range_invariant. vm_compute; reflexivity.
  - destruct (calculateNodeRange_logs satisfies Constants.COMMON_NODEJS_VERSIONS
                L hasDependencies s) as [evs H].
    rewrite H. eexists. split; [reflexivity |].
    apply node_range_invariant; [discriminate | vm_compute; reflexivity].
  - destruct (calculateNpmRange_logs satisfies Constants.COMMON_NPM_VERSIONS L s)
      as [evs H].
    rewrite H. eexists. split; [reflexivity |].
    apply npm_range_invariant. vm_compute; reflexivity.
Qed.

(** ** Sorting and catalog construction *)

Section SortFacts.

Variable compare : string -> string -> option comparison.

Let le (a b : string) : Prop := le_by compare a b = true.

Lemma sort_insert_perm (x : string) (l : list string) :
  (forall y, In y l -> compare x y <> None) ->
  exists s, sort_insert compare x l = Some s /\ Permutation (x :: l) s.
Proof.
  induction l as [| y l IH]; intros Hdef.
  - exists [x]. split; [reflexivity | apply Permutation_refl].
  - simpl. destruct (compare x y) as [[| |] |] eqn:E.
    + exists (x :: y :: l). split; [reflexivity | apply Permutation_refl].
    + exists (x :: y :: l). split; [reflexivity | apply Permutation_refl].
    + destruct IH as (s & Hs & Hp).
      { intros z Hz. apply Hdef. now right. }
      exists (y :: s). rewrite Hs. split; [reflexivity |].
      eapply Permutation_trans; [apply perm_swap |]. now apply perm_skip.
    + exfalso. apply (Hdef y); [now left | exact E].
Qed.

Lemma total_on_defined (l : list string) (a b : string) :
  total_on compare l -> In a l -> In b l -> compare a b <> None.
Proof. intros Ht Ha Hb. destruct (Ht a b Ha Hb) as (c & -> & _). discriminate. Qed.

Lemma js_sort_perm (l : list string) :
  total_on compare l ->
  exists s, js_sort compare l = Some s /\ Permutation l s.
Proof.
  induction l as [| x l IH]; intros Ht.
  - exists []. split; [reflexivity | apply Permutation_refl].
  - destruct IH as (s & Hs & Hp).
    { intros a b Ha Hb. apply Ht; now right. }
    destruct (sort_insert_perm x s) as (s' & Hs' & Hp').
    { intros y Hy. apply (total_on_defined (x :: l)); trivial; [now left |].
      right. eapply Permutation_in; [apply Permutation_sym; exact Hp | exact Hy]. }
    exists s'. simpl. rewrite Hs, Hs'. split; [reflexivity |].
    eapply Permutation_trans; [apply perm_skip; exact Hp | exact Hp'].
Qed.

Lemma sort_insert_sorted (u : list string) (x : string) (l s : list string) :
  total_on compare u -> transitive_on compare u ->
  In x u -> incl l u ->
  StronglySorted le l -> sort_insert compare x l = Some s -> StronglySorted le s.
Proof.
  intros Ht Htr Hx. revert s.
  induction l as [| y l IH]; intros s Hincl Hsorted Hins.
  - injection Hins as <-. constructor; [constructor | constructor].
  - assert (Hy : In y u) by (apply Hincl; now left).
    assert (Hl : incl l u) by (intros z Hz; apply Hincl; now right).
    inversion Hsorted as [| ? ? Hsl Hyl]; subst.
    simpl in Hins. destruct (compare x y) as [[| |] |] eqn:E.
    + injection Hins as <-. constructor; [exact Hsorted |].
      assert (Hxy : le x y) by (unfold le, le_by; now rewrite E).
      constructor; [exact Hxy |].
      rewrite Forall_forall in Hyl |- *. intros z Hz.
      apply (Htr x y z);
        [exact Hx | exact Hy | now apply Hl | exact Hxy | now apply Hyl].
    + injection Hins as <-. constructor; [exact Hsorted |].
      assert (Hxy : le x y) by (unfold le, le_by; now rewrite E).
      constructor; [exact Hxy |].
      rewrite Forall_forall in Hyl |- *. intros z Hz.
      apply (Htr x y z);
        [exact Hx | exact Hy | now apply Hl | exact Hxy | now apply Hyl].
    + destruct (sort_insert compare x l) as [s' |] eqn:Es; [| discriminate].
      injection Hins as <-.
      constructor; [now apply IH |].
      destruct (sort_insert_perm x l) as (s'' & Hs'' & Hp).
      { intros z Hz. apply (total_on_defined u); auto. }
      rewrite Es in Hs''. injection Hs'' as <-.
      rewrite Forall_forall in Hyl |- *. intros z Hz.
      apply Permutation_sym in Hp. apply (Permutation_in _ Hp) in Hz.
      destruct Hz as [<- | Hz]; [| now apply Hyl].
      destruct (Ht x y Hx Hy) as (c & Hc & Hc'). rewrite E in Hc. injection Hc as <-.
      unfold le, le_by. now rewrite Hc'.
    + discriminate.
Qed.

Lemma js_sort_sorted (u l s : list string) :
  total_on compare u -> transitive_on compare u -> incl l u ->
  js_sort compare l = Some s -> StronglySorted le s.
Proof.
  intros Ht Htr. revert s. induction l as [| x l IH]; intros s Hincl Hs.
  - injection Hs as <-. constructor.
  - simpl in Hs. destruct (js_sort compare l) as [s' |] eqn:Es; [| discriminate].
    assert (Hl : incl l u) by (intros z Hz; apply Hincl; now right).
    destruct (js_sort_perm l) as (s'' & Hs'' & Hp).
    { intros a b Ha Hb. apply Ht; now apply Hl. }
    rewrite Es in Hs''. injection Hs'' as <-.
    apply (sort_insert_sorted u x s' s); auto.
    + apply Hincl. now left.
    + intros z Hz. apply Hl. eapply Permutation_in; [apply Permutation_sym; exact Hp | exact Hz].
Qed.

Lemma sorted_unique (s1 s2 : list string) :
  (forall a b, In a s1 -> In b s1 -> le a b -> le b a -> a = b) ->
  StronglySorted le s1 -> StronglySorted le s2 -> Permutation s1 s2 -> s1 = s2.
Proof.
  intros Hanti H1. revert s2 Hanti.
  induction H1 as [| x1 l1 Hl1 IH Hx1]; intros s2 Hanti H2 Hp.
  - apply Permutation_nil in Hp. now subst.
  - destruct H2 as [| x2 l2 Hl2 Hx2].
    + apply Permutation_sym, Permutation_nil in Hp. discriminate.
    + assert (x1 = x2) as <-.
      { rewrite Forall_forall in Hx1, Hx2.
        assert (Hi2 : In x2 (x1 :: l1))
          by (eapply Permutation_in; [apply Permutation_sym; exact Hp | now left]).
        assert (Hi1 : In x1 (x2 :: l2))
          by (eapply Permutation_in; [exact Hp | now left]).
        destruct Hi2 as [? | Hi2]; [assumption |].
        destruct Hi1 as [? | Hi1]; [now symmetry |].
        apply Hanti; [now left | now right | now apply Hx1 | now apply Hx2]. }
      f_equal. apply IH; trivial.
      * intros a b Ha Hb. apply Hanti; now right.
      * now apply Permutation_cons_inv in Hp.
Qed.

End SortFacts.

Lemma filter_perm (f : string -> bool) (l l' : list string) :
  Permutation l l' -> Permutation (filter f l) (filter f l').
Proof.
  induction 1 as [| x l l' Hp IH | x y l | l l' l'' Hp1 IH1 Hp2 IH2]; simpl.
  - apply Permutation_refl.
  - destruct (f x); [now apply perm_skip | exact IH].
  - destruct (f x), (f y); try apply Permutation_refl. apply perm_swap.
  - eapply Permutation_trans; eassumption.
Qed.


(** Construction under any validity test and any comparator that is a total
    preorder on the valid entries. *)
Lemma catalog_construction_general :
  forall valid compare (raw raw' : list string),
    Permutation raw raw' ->
    total_on compare (filter valid raw) ->
    transitive_on compare (filter valid raw) ->
    exists cat cat',
      build_catalog valid compare raw = Some cat
      /\ build_catalog valid compare raw' = Some cat'
      /\ (forall v, In v cat <-> In v raw /\ valid v = true)
      /\ Permutation (filter valid raw) cat
      /\ StronglySorted (fun a b => le_by compare a b = true) cat
      /\ StronglySorted (fun a b => le_by compare a b = true) cat'
      /\ Permutation cat cat'
      /\ (distinct_precedence valid compare raw -> cat = cat').
Proof.
  intros valid compare raw raw' Hp Ht Htr.
  pose proof (filter_perm valid raw raw' Hp) as Hfp.
  assert (Ht' : total_on compare (filter valid raw')).
  { intros a b Ha Hb.
    apply Ht; eapply Permutation_in; try (apply Permutation_sym; exact Hfp); assumption. }
  assert (Hincl : incl (filter valid raw') (filter valid raw)).
  { intros z Hz. eapply Permutation_in; [apply Permutation_sym; exact Hfp | exact Hz]. }
  destruct (js_sort_perm compare (filter valid raw) Ht) as (cat & Hcat & Hpc).
  destruct (js_sort_perm compare (filter valid raw') Ht') as (cat' & Hcat' & Hpc').
  pose proof (js_sort_sorted compare (filter valid raw) (filter valid raw) cat
                Ht Htr (incl_refl _) Hcat) as Hs.
  pose proof (js_sort_sorted compare (filter valid raw) (filter valid raw') cat'
                Ht Htr Hincl Hcat') as Hs'.
  assert (Hcc : Permutation cat cat').
  { eapply Permutation_trans; [apply Permutation_sym; exact Hpc |].
    eapply Permutation_trans; [exact Hfp | exact Hpc']. }
  exists cat, cat'. unfold build_catalog.
  split; [exact Hcat |]. split; [exact Hcat' |]. split.
  { intros v. rewrite <- filter_In. split; intros Hv.
    - eapply Permutation_in; [apply Permutation_sym; exact Hpc | exact Hv].
    - eapply Permutation_in; [exact Hpc | exact Hv]. }
  split; [exact Hpc |]. split; [exact Hs |]. split; [exact Hs' |].
  split; [exact Hcc |].
  intros Hdist. apply (sorted_unique compare); trivial.
  intros a b Ha Hb Hab Hba.
  apply (Permutation_in _ (Permutation_sym Hpc)) in Ha, Hb.
  pose proof Ha as Ha'. pose proof Hb as Hb'.
  apply filter_In in Ha' as [Hia Hva]. apply filter_In in Hb' as [Hib Hvb].
  apply Hdist; trivial.
  destruct (Ht a b Ha Hb) as (c & Hc & Hc').
  unfold le_by in Hab, Hba. rewrite Hc in Hab. rewrite Hc' in Hba.
  rewrite Hc. destruct c; simpl in *; congruence.
Qed.

(** ** The precedence order of the package *)

Section OrderFacts.

Context {A : Type}.
Variable cmp : A -> A -> comparison.
Hypothesis Hord : is_order cmp.

Lemma order_refl (a : A) : cmp a a = Eq.
Proof.
  destruct Hord as (Hsym & _ & _). specialize (Hsym a a).
  destruct (cmp a a); simpl in Hsym; congruence.
Qed.

Lemma order_eq_r (a b c : A) : cmp b c = Eq -> cmp a b = cmp a c.
Proof.
  destruct Hord as (Hsym & Heq & _). intros H.
  assert (Hcb : cmp c b = Eq) by (rewrite Hsym, H; reflexivity).
  rewrite (Hsym b a), (Hsym c a). f_equal. symmetry. now apply Heq.
Qed.

Lemma order_gt_lt (a b : A) : cmp a b = Gt -> cmp b a = Lt.
Proof. destruct Hord as (Hsym & _ & _). intros H. now rewrite Hsym, H. Qed.

Lemma order_le_trans (a b c : A) : cmp a b <> Gt -> cmp b c <> Gt -> cmp a c <> Gt.
Proof.
  destruct Hord as (Hsym & Heq & Htr). intros Hab Hbc.
  destruct (cmp a b) eqn:Eab; [| | congruence].
  - now rewrite (Heq a b c Eab).
  - destruct (cmp b c) eqn:Ebc; [| | congruence].
    + rewrite <- (order_eq_r a b c Ebc), Eab. discriminate.
    + rewrite (Htr a b c Eab Ebc). discriminate.
Qed.

End OrderFacts.

Lemma order_lex {A : Type} (c1 c2 : A -> A -> comparison) :
  is_order c1 -> is_order c2 -> is_order (fun a b => Semver.lex (c1 a b) (c2 a b)).
Proof.
  intros H1 H2.
  pose proof H1 as (Hs1 & He1 & Ht1). pose proof H2 as (Hs2 & He2 & Ht2).
  split; [| split].
  - intros a b. rewrite Hs1, Hs2. destruct (c1 a b); reflexivity.
  - intros a b c H. unfold Semver.lex in H.
    destruct (c1 a b) eqn:E1; try discriminate.
    now rewrite (He1 a b c E1), (He2 a b c H).
  - intros a b c Hab Hbc. unfold Semver.lex in Hab, Hbc.
    destruct (c1 a b) eqn:Eab; try discriminate.
    + rewrite (He1 a b c Eab).
      destruct (c1 b c) eqn:Ebc; try discriminate; [| reflexivity].
      simpl. now apply (Ht2 a b c).
    + destruct (c1 b c) eqn:Ebc; try discriminate.
      * now rewrite <- (order_eq_r c1 H1 a b c Ebc), Eab.
      * now rewrite (Ht1 a b c Eab Ebc).
Qed.

Lemma order_on {A B : Type} (cmp : B -> B -> comparison) (f : A -> B) :
  is_order cmp -> is_order (fun a b => cmp (f a) (f b)).
Proof.
  intros (Hs & He & Ht). split; [| split]; intros; eauto.
Qed.

Lemma order_of_eq {A : Type} (cmp : A -> A -> comparison) :
  (forall a b, cmp b a = CompOpp (cmp a b)) ->
  (forall a b, cmp a b = Eq -> a = b) ->
  (forall a b c, cmp a b = Lt -> cmp b c = Lt -> cmp a c = Lt) ->
  is_order cmp.
Proof.
  intros Hs He Ht. split; [exact Hs |]. split; [| exact Ht].
  intros a b c H. now rewrite (He a b H).
Qed.

Lemma N_order : is_order N.compare.
Proof.
  apply order_of_eq.
  - intros a b. apply N.compare_antisym.
  - intros a b. apply N.compare_eq.
  - intros a b c. rewrite !N.compare_lt_iff. apply N.lt_trans.
Qed.

Lemma ascii_order : is_order Ascii.compare.
Proof.
  apply order_of_eq.
  - intros a b. apply Ascii.compare_antisym.
  - intros a b. apply Ascii.compare_eq_iff.
  - intros a b c. unfold Ascii.compare. rewrite !N.compare_lt_iff. apply N.lt_trans.
Qed.

Lemma string_compare_lt_trans (a b c : string) :
  String.compare a b = Lt -> String.compare b c = Lt -> String.compare a c = Lt.
Proof.
  revert b c. induction a as [| x a IH]; intros [| y b] [| z c]; simpl;
    try discriminate; try reflexivity.
  pose proof ascii_order as Ho. pose proof Ho as (Hs & He & Ht).
  destruct (Ascii.compare x y) eqn:Exy; try discriminate.
  - rewrite (He x y z Exy).
    destruct (Ascii.compare y z); try discriminate; [apply IH | reflexivity].
  - intros _. destruct (Ascii.compare y z) eqn:Eyz; try discriminate.
    + now rewrite <- (order_eq_r _ Ho x y z Eyz), Exy.
    + now rewrite (Ht x y z Exy Eyz).
Qed.

Lemma string_order : is_order String.compare.
Proof.
  apply order_of_eq.
  - intros a b. apply String.compare_antisym.
  - intros a b. apply String.compare_eq_iff.
  - apply string_compare_lt_trans.
Qed.

Lemma ident_order : is_order Semver.compare_ident.
Proof.
  pose proof N_order as (Ns & Ne & Nt). pose proof string_order as (Ss & Se & St).
  apply order_of_eq.
  - intros [x | x] [y | y]; simpl; auto.
  - intros [x | x] [y | y]; simpl; try discriminate; intros H; f_equal.
    + now apply N.compare_eq.
    + now apply String.compare_eq_iff.
  - intros [x | x] [y | y] [z | z]; simpl; try discriminate; try reflexivity.
    + apply Nt.
    + apply St.
Qed.

Lemma idents_sym (a b : list Semver.ident) :
  Semver.compare_idents b a = CompOpp (Semver.compare_idents a b).
Proof.
  pose proof ident_order as (Hs & _ & _).
  revert b. induction a as [| x a IH]; intros [| y b]; simpl; try reflexivity.
  rewrite Hs, IH. destruct (Semver.compare_ident x y); reflexivity.
Qed.

Lemma idents_eq (a b : list Semver.ident) :
  Semver.compare_idents a b = Eq -> a = b.
Proof.
  pose proof ident_order as Ho.
  revert b. induction a as [| x a IH]; intros [| y b]; simpl; try discriminate;
    [reflexivity |].
  destruct (Semver.compare_ident x y) eqn:E; try discriminate.
  intros H. f_equal; [| now apply IH].
  destruct x as [x | x], y as [y | y]; simpl in E; try discriminate; f_equal.
  - now apply N.compare_eq.
  - now apply String.compare_eq_iff.
Qed.

Lemma idents_lt_trans (a b c : list Semver.ident) :
  Semver.compare_idents a b = Lt -> Semver.compare_idents b c = Lt ->
  Semver.compare_idents a c = Lt.
Proof.
  pose proof ident_order as Ho. pose proof Ho as (Hs & He & Ht).
  revert b c. induction a as [| x a IH]; intros [| y b] [| z c]; simpl;
    try discriminate; try reflexivity.
  destruct (Semver.compare_ident x y) eqn:Exy; try discriminate.
  - rewrite (He x y z Exy).
    destruct (Semver.compare_ident y z); try discriminate; [apply IH | reflexivity].
  - intros _. destruct (Semver.compare_ident y z) eqn:Eyz; try discriminate.
    + now rewrite <- (order_eq_r _ Ho x y z Eyz), Exy.
    + now rewrite (Ht x y z Exy Eyz).
Qed.

Lemma pre_order : is_order Semver.compare_pre.
Proof.
  apply order_of_eq.
  - intros [| x a] [| y b]; try reflexivity.
    unfold Semver.compare_pre. apply idents_sym.
  - intros [| x a] [| y b]; try discriminate; [reflexivity |].
    unfold Semver.compare_pre. apply idents_eq.
  - intros [| x a] [| y b] [| z c]; try discriminate; try reflexivity.
    unfold Semver.compare_pre. apply idents_lt_trans.
Qed.

Lemma versions_order : is_order Semver.compare_versions.
Proof.
  unfold Semver.compare_versions.
  apply (order_lex (fun a b => (Semver.major a ?= Semver.major b)%N)).
  { apply (order_on N.compare Semver.major), N_order. }
  apply (order_lex (fun a b => (Semver.minor a ?= Semver.minor b)%N)).
  { apply (order_on N.compare Semver.minor), N_order. }
  apply (order_lex (fun a b => (Semver.patch a ?= Semver.patch b)%N)).
  { apply (order_on N.compare Semver.patch), N_order. }
  apply (order_on Semver.compare_pre Semver.prerelease), pre_order.
Qed.

Lemma valid_parse (v : string) :
  Semver.valid v = true -> exists ver, Semver.parse v = Some ver.
Proof.
  unfold Semver.valid. destruct (Semver.parse v) as [ver |]; [| discriminate].
  intros _. now exists ver.
Qed.

Lemma semver_compare_total (l : list string) :
  total_on Semver.compare (filter Semver.valid l).
Proof.
  intros a b Ha Hb. apply filter_In in Ha as [_ Ha]. apply filter_In in Hb as [_ Hb].
  destruct (valid_parse a Ha) as [va Hva]. destruct (valid_parse b Hb) as [vb Hvb].
  exists (Semver.compare_versions va vb). unfold Semver.compare. rewrite Hva, Hvb.
  split; [reflexivity |]. f_equal. apply versions_order.
Qed.

Lemma semver_compare_transitive (l : list string) :
  transitive_on Semver.compare (filter Semver.valid l).
Proof.
  intros a b c Ha Hb Hc.
  apply filter_In in Ha as [_ Ha]. apply filter_In in Hb as [_ Hb].
  apply filter_In in Hc as [_ Hc].
  destruct (valid_parse a Ha) as [va Hva]. destruct (valid_parse b Hb) as [vb Hvb].
  destruct (valid_parse c Hc) as [vc Hvc].
  unfold le_by, Semver.compare. rewrite Hva, Hvb, Hvc. intros Hab Hbc.
  pose proof (order_le_trans _ versions_order va vb vc) as Htr.
  destruct (Semver.compare_versions va vb); try discriminate;
    destruct (Semver.compare_versions vb vc); try discriminate;
    destruct (Semver.compare_versions va vc); try reflexivity;
    exfalso; apply Htr; congruence.
Qed.



(** A constructed catalog is ascending, so the range invariant holds over
    every catalog that construction can produce, not only the shipped ones. *)
Lemma sorted_ascending compare (l : list string) :
  total_on compare l ->
  StronglySorted (fun a b => le_by compare a b = true) l ->
  ascending compare l = true.
Proof.
  intros Ht Hs. induction Hs as [| a l Hl IH Ha]; [reflexivity |].
  simpl. rewrite IH.
  - rewrite andb_true_r. apply andb_true_intro. split.
    + destruct (Ht a a (or_introl eq_refl) (or_introl eq_refl)) as (c & Hc & Hc').
      unfold le_by. rewrite Hc. rewrite Hc in Hc'. injection Hc' as Hc'.
      destruct c; try reflexivity; discriminate.
    + apply forallb_forall. rewrite Forall_forall in Ha. exact Ha.
  - intros x y Hx Hy. apply Ht; now right.
Qed.

Lemma constructed_catalog_invariant (raw cat : list string) satisfies
    (L : list value) hasDependencies :
  build_catalog Semver.valid Semver.compare raw = Some cat ->
  range_invariant Semver.compare cat (npm_range satisfies cat L)
  /\ (cat <> [] ->
      range_invariant Semver.compare cat (node_range satisfies cat L hasDependencies)).
Proof.
  intros Hb.
  destruct (catalog_construction_general Semver.valid Semver.compare raw raw
              (Permutation_refl _) (semver_compare_total raw)
              (semver_compare_transitive raw))
    as (c & _ & Hc & _ & _ & Hp & Hs & _).
  rewrite Hb in Hc. injection Hc as <-.
  assert (Hasc : ascending Semver.compare cat = true).
  { apply sorted_ascending; [| exact Hs].
    intros a b Ha Hb'. apply (semver_compare_total raw);
      eapply Permutation_in; try (apply Permutation_sym; exact Hp); assumption. }
  split; [now apply npm_range_invariant |].
  intros Hne. now apply node_range_invariant.
Qed.

(** A manifest object without dependency fields declares no dependencies. *)
Lemma no_dependency_fields (props : list (string * value)) :
  lookup_prop props "dependencies" = VUndefined ->
  lookup_prop props "devDependencies" = VUndefined ->
  dependency_names (VObj props) = Ok [].
Proof.
  intros H1 H2. unfold dependency_names, get_prop. now rewrite H1, H2.
Qed.


(** * Further properties of the resolver *)

Lemma satisfying_sublist_ext satisfies catalog (L L' : list value) :
  (forall r, In r L <-> In r L') ->
  satisfying_sublist satisfies catalog L = satisfying_sublist satisfies catalog L'.
Proof.
  intros H. unfold satisfying_sublist. apply filter_ext. intros v.
  destruct (forallb (holds satisfies v) L) eqn:E; symmetry.
  - rewrite forallb_forall in E |- *. intros r Hr. apply E. now apply H.
  - destruct (forallb (holds satisfies v) L') eqn:E'; [| reflexivity].
    rewrite forallb_forall in E'. rewrite <- E. symmetry.
    apply forallb_forall. intros r Hr. apply E'. now apply H.
Qed.

Lemma same_elements_nil (L L' : list value) :
  (forall r, In r L <-> In r L') -> L = [] -> L' = [].
Proof.
  intros H ->. destruct L' as [| r L']; [reflexivity |].
  exfalso. apply (proj2 (H r)). now left.
Qed.

(** X1: the resolvers read the collected constraints as a set: two lists
    with the same elements, in whatever order and with whatever repetitions,
    give the same runtime range and the same package-manager range. *)
Theorem resolver_reads_constraints_as_set :
  forall satisfies catalog (L L' : list value) hasDependencies s s',
    (forall r, In r L <-> In r L') ->
    fst (calculateNodeRange satisfies catalog L hasDependencies s)
    = fst (calculateNodeRange satisfies catalog L' hasDependencies s')
    /\ fst (calculateNpmRange satisfies catalog L s)
       = fst (calculateNpmRange satisfies catalog L' s').
Proof.
  intros satisfies catalog L L' hasDependencies s s' H.
  destruct (calculateNodeRange_logs satisfies catalog L hasDependencies s) as [e1 H1].
  destruct (calculateNodeRange_logs satisfies catalog L' hasDependencies s') as [e2 H2].
  destruct (calculateNpmRange_logs satisfies catalog L s) as [e3 H3].
  destruct (calculateNpmRange_logs satisfies catalog L' s') as [e4 H4].
  rewrite H1, H2, H3, H4. cbn [fst].
  unfold node_range, npm_range.
  destruct L as [| r L].
  - rewrite (same_elements_nil [] L' H eq_refl). split; reflexivity.
  - destruct L' as [| r' L'].
    + exfalso. apply (proj1 (H r)). now left.
    + rewrite (satisfying_sublist_ext satisfies catalog (r :: L) (r' :: L') H).
      split; reflexivity.
Qed.

Lemma resolver_reads_constraints_as_set_witness :
  fst (calculateNodeRange Semver.satisfies SharedConstants.COMMON_NODEJS_VERSIONS
         [VStr ">=20.0.0"; VStr "<22.0.0"; VStr ">=20.0.0"] true initial_store)
  = fst (calculateNodeRange Semver.satisfies SharedConstants.COMMON_NODEJS_VERSIONS
           [VStr "<22.0.0"; VStr ">=20.0.0"] true initial_store).
Proof.
  assert (H : forall r, In r [VStr ">=20.0.0"; VStr "<22.0.0"; VStr ">=20.0.0"]
                        <-> In r [VStr "<22.0.0"; VStr ">=20.0.0"]).
  { intros r. simpl. tauto. }
  exact (proj1 (resolver_reads_constraints_as_set Semver.satisfies
                  SharedConstants.COMMON_NODEJS_VERSIONS _ _ true
                  initial_store initial_store H)).
Defined.

Lemma first_last_null (l : list string) : first_last l = (VNull, VNull) <-> l = [].
Proof.
  destruct l as [| a l]; simpl; split; intros H; try reflexivity; discriminate.
Qed.

Lemma resolver_result (satisfies : string -> value -> outcome bool) catalog
    (L : list value) hasDependencies s (r : value * value) :
  L <> [] ->
  fst (calculateNodeRange satisfies catalog L hasDependencies s) = Ok r
  \/ fst (calculateNpmRange satisfies catalog L s) = Ok r ->
  r = first_last (satisfying_sublist satisfies catalog L).
Proof.
  intros HL H. destruct L as [| c L]; [congruence |].
  destruct (calculateNodeRange_logs satisfies catalog (c :: L) hasDependencies s) as [e1 H1].
  destruct (calculateNpmRange_logs satisfies catalog (c :: L) s) as [e2 H2].
  rewrite H1, H2 in H. cbn [fst node_range npm_range] in H.
  destruct H as [H | H]; congruence.
Qed.

Lemma satisfying_sublist_nil satisfies catalog (L : list value) :
  satisfying_sublist satisfies catalog L = []
  <-> forall v, In v catalog -> exists c, In c L /\ satisfies v c <> Ok true.
Proof.
  unfold satisfying_sublist. split.
  - intros Hnil v Hv.
    destruct (forallb (holds satisfies v) L) eqn:E.
    + exfalso. assert (Hin : In v (filter (fun v => forallb (holds satisfies v) L) catalog))
        by (apply filter_In; now split).
      rewrite Hnil in Hin. exact Hin.
    + assert (Hex : existsb (fun c => negb (holds satisfies v c)) L = true).
      { clear -E. induction L as [| c L IH]; [discriminate |]. simpl in *.
        destruct (holds satisfies v c); [now apply IH | reflexivity]. }
      apply existsb_exists in Hex as (c & Hc & Hn). exists c. split; [exact Hc |].
      unfold holds in Hn. intros Habs. rewrite Habs in Hn. discriminate.
  - intros H. destruct (filter _ catalog) as [| v S] eqn:E; [reflexivity |].
    exfalso. assert (Hin : In v (filter (fun v => forallb (holds satisfies v) L) catalog))
      by (rewrite E; now left).
    apply filter_In in Hin as [Hv Hall]. destruct (H v Hv) as (c & Hc & Hn).
    rewrite forallb_forall in Hall. specialize (Hall c Hc). unfold holds in Hall.
    destruct (satisfies v c) as [[|] | e]; congruence.
Qed.

(** X2: with constraints present, a resolver returns (absent, absent) exactly
    when no version of the catalog satisfies all of them: one constraint that
    no catalog version meets, or that never parses, empties the range, and a
    single compatible version is enough to get bounds. *)
Theorem resolver_absent_iff_unsatisfiable :
  forall satisfies catalog (L : list value) hasDependencies s r,
    L <> [] ->
    fst (calculateNodeRange satisfies catalog L hasDependencies s) = Ok r
    \/ fst (calculateNpmRange satisfies catalog L s) = Ok r ->
    (r = (VNull, VNull)
     <-> forall v, In v catalog -> exists c, In c L /\ satisfies v c <> Ok true).
Proof.
  intros satisfies catalog L hasDependencies s r HL Hr.
  rewrite (resolver_result satisfies catalog L hasDependencies s r HL Hr).
  rewrite first_last_null. apply satisfying_sublist_nil.
Qed.

Lemma resolver_absent_iff_unsatisfiable_witness :
  fst (calculateNpmRange Semver.satisfies SharedConstants.COMMON_NPM_VERSIONS
         [VStr ">=9.0.0"; VStr "<9.0.0"] initial_store) = Ok (VNull, VNull)
  /\ forall v, In v SharedConstants.COMMON_NPM_VERSIONS ->
       exists c, In c [VStr ">=9.0.0"; VStr "<9.0.0"] /\ Semver.satisfies v c <> Ok true.
Proof.
  assert (Hr : fst (calculateNpmRange Semver.satisfies SharedConstants.COMMON_NPM_VERSIONS
                      [VStr ">=9.0.0"; VStr "<9.0.0"] initial_store) = Ok (VNull, VNull))
    by (vm_compute; reflexivity).
  assert (HL : [VStr ">=9.0.0"; VStr "<9.0.0"] <> []) by discriminate.
  split; [exact Hr |].
  exact (proj1 (resolver_absent_iff_unsatisfiable Semver.satisfies
                  SharedConstants.COMMON_NPM_VERSIONS _ true initial_store
                  (VNull, VNull) HL (or_intror Hr)) eq_refl).
Defined.

Lemma ascending_filter compare (f : string -> bool) (l : list string) :
  ascending compare l = true -> ascending compare (filter f l) = true.
Proof.
  induction l as [| a l IH]; intros H; [reflexivity |].
  simpl in H. apply andb_prop in H as [H Hl]. apply andb_prop in H as [Haa Hal].
  simpl. destruct (f a); [| now apply IH].
  simpl. rewrite Haa, (IH Hl), andb_true_r. cbn [andb].
  apply forallb_forall. intros x Hx. apply filter_In in Hx as [Hx _].
  rewrite forallb_forall in Hal. now apply Hal.
Qed.

Lemma ascending_first compare (a : string) (l : list string) (x : string) :
  ascending compare (a :: l) = true -> In x (a :: l) -> le_by compare a x = true.
Proof.
  intros H Hx. simpl in H. apply andb_prop in H as [H _].
  apply andb_prop in H as [Haa Hal]. destruct Hx as [<- | Hx]; [exact Haa |].
  rewrite forallb_forall in Hal. now apply Hal.
Qed.

Lemma ascending_last compare (l : list string) (d x : string) :
  ascending compare l = true -> In x l -> le_by compare x (last l d) = true.
Proof.
  induction l as [| a l IH]; intros H Hx; [contradiction |].
  pose proof H as H'. simpl in H'. apply andb_prop in H' as [H' Hl].
  apply andb_prop in H' as [Haa Hal].
  destruct l as [| b l]; [destruct Hx as [<- | []]; exact Haa |].
  change (last (a :: b :: l) d) with (last (b :: l) d).
  destruct Hx as [<- | Hx]; [| now apply IH].
  rewrite forallb_forall in Hal. apply Hal.
  rewrite (last_default l b d b). apply last_In_cons.
Qed.

Lemma first_last_bounds compare (S : list string) (lo hi : string) :
  ascending compare S = true ->
  first_last S = (VStr lo, VStr hi) ->
  In lo S /\ In hi S
  /\ forall v, In v S -> le_by compare lo v = true /\ le_by compare v hi = true.
Proof.
  intros Hasc H. destruct S as [| a S]; [discriminate |].
  unfold first_last in H. injection H as <- <-.
  split; [now left |]. split; [apply last_In_cons |].
  intros v Hv. split.
  - now apply (ascending_first compare a S).
  - exact (ascending_last compare (a :: S) a v Hasc Hv).
Qed.

Lemma bounds_cover satisfies compare catalog (L : list value) (lo hi : string) :
  ascending compare catalog = true ->
  first_last (satisfying_sublist satisfies catalog L) = (VStr lo, VStr hi) ->
  In lo catalog /\ In hi catalog
  /\ (forall c, In c L -> satisfies lo c = Ok true /\ satisfies hi c = Ok true)
  /\ (forall v, In v catalog -> (forall c, In c L -> satisfies v c = Ok true) ->
        le_by compare lo v = true /\ le_by compare v hi = true).
Proof.
  intros Hasc H.
  destruct (first_last_bounds compare _ lo hi
              (ascending_filter compare _ catalog Hasc) H) as (Hlo & Hhi & Hall).
  fold (satisfying_sublist satisfies catalog L) in Hlo, Hhi, Hall.
  apply satisfying_sublist_In in Hlo as [Hlo1 Hlo].
  apply satisfying_sublist_In in Hhi as [Hhi1 Hhi].
  split; [exact Hlo1 |]. split; [exact Hhi1 |]. split.
  - intros c Hc. split; [now apply Hlo | now apply Hhi].
  - intros v Hv Hsat. apply Hall. apply satisfying_sublist_In. now split.
Qed.

(** X3: over a catalog in ascending order, the bounds a resolver returns are
    themselves catalog versions that satisfy every constraint, and every
    catalog version that satisfies every constraint lies between them: no
    compatible version falls outside the range. *)
Theorem resolved_range_covers_compatible :
  forall satisfies compare catalog (L : list value) hasDependencies s lo hi,
    L <> [] ->
    ascending compare catalog = true ->
    fst (calculateNodeRange satisfies catalog L hasDependencies s) = Ok (VStr lo, VStr hi)
    \/ fst (calculateNpmRange satisfies catalog L s) = Ok (VStr lo, VStr hi) ->
    (forall c, In c L -> satisfies lo c = Ok true /\ satisfies hi c = Ok true)
    /\ (forall v, In v catalog -> (forall c, In c L -> satisfies v c = Ok true) ->
          le_by compare lo v = true /\ le_by compare v hi = true).
Proof.
  intros satisfies compare catalog L hasDependencies s lo hi HL Hasc Hr.
  pose proof (resolver_result satisfies catalog L hasDependencies s _ HL Hr) as H.
  symmetry in H.
  destruct (bounds_cover satisfies compare catalog L lo hi Hasc H) as (_ & _ & H1 & H2).
  split; assumption.
Qed.

Lemma resolved_range_covers_compatible_witness :
  Semver.satisfies "20.0.0" (VStr ">=20.0.0") = Ok true
  /\ Semver.satisfies "21.7.3" (VStr "<22.0.0") = Ok true.
Proof.
  assert (HL : [VStr ">=20.0.0"; VStr "<22.0.0"] <> []) by discriminate.
  assert (Hasc : ascending Semver.compare SharedConstants.COMMON_NODEJS_VERSIONS = true)
    by (vm_compute; reflexivity).
  assert (Hr : fst (calculateNodeRange Semver.satisfies
                      SharedConstants.COMMON_NODEJS_VERSIONS
                      [VStr ">=20.0.0"; VStr "<22.0.0"] true initial_store)
               = Ok (VStr "20.0.0", VStr "21.7.3")) by (vm_compute; reflexivity).
  destruct (resolved_range_covers_compatible Semver.satisfies Semver.compare
              SharedConstants.COMMON_NODEJS_VERSIONS _ true initial_store
              "20.0.0" "21.7.3" HL Hasc (or_introl Hr)) as [Hb _].
  split.
  - exact (proj1 (Hb (VStr ">=20.0.0") (or_introl eq_refl))).
  - exact (proj2 (Hb (VStr "<22.0.0") (or_intror (or_introl eq_refl)))).
Defined.

(** X4: further constraints can only narrow the result.  If every
    constraint of [L] is also in [L'], then over an ascending catalog the
    range for [L'] is absent whenever the range for [L] is, and otherwise
    lies inside it. *)
Theorem more_constraints_narrow_the_range :
  forall satisfies compare catalog (L L' : list value) hasDependencies s s' r r',
    L <> [] ->
    incl L L' ->
    ascending compare catalog = true ->
    fst (calculateNodeRange satisfies catalog L hasDependencies s) = Ok r ->
    fst (calculateNodeRange satisfies catalog L' hasDependencies s') = Ok r' ->
    (r = (VNull, VNull) -> r' = (VNull, VNull))
    /\ (forall lo' hi', r' = (VStr lo', VStr hi') ->
          exists lo hi, r = (VStr lo, VStr hi)
                        /\ le_by compare lo lo' = true /\ le_by compare hi' hi = true).
Proof.
  intros satisfies compare catalog L L' hasDependencies s s' r r' HL Hincl Hasc Hr Hr'.
  assert (HL' : L' <> []).
  { destruct L as [| c L]; [congruence |]. intros ->. apply (Hincl c). now left. }
  pose proof (resolver_result satisfies catalog L hasDependencies s _ HL
                (or_introl Hr)) as E.
  pose proof (resolver_result satisfies catalog L' hasDependencies s' _ HL'
                (or_introl Hr')) as E'.
  subst r r'. split.
  - rewrite !first_last_null, !satisfying_sublist_nil. intros H v Hv.
    destruct (H v Hv) as (c & Hc & Hn). exists c. split; [now apply Hincl | exact Hn].
  - intros lo' hi' H'.
    destruct (bounds_cover satisfies compare catalog L' lo' hi' Hasc H')
      as (Hlo' & Hhi' & Hb' & _).
    destruct (satisfying_sublist satisfies catalog L) as [| a S] eqn:ES.
    + exfalso. assert (Hin : In lo' (satisfying_sublist satisfies catalog L)).
      { apply satisfying_sublist_In. split; [exact Hlo' |].
        intros c Hc. apply (Hb' c). now apply Hincl. }
      rewrite ES in Hin. exact Hin.
    + exists a, (last (a :: S) a). split; [reflexivity |].
      assert (E : first_last (satisfying_sublist satisfies catalog L)
                  = (VStr a, VStr (last (a :: S) a))) by (now rewrite ES).
      destruct (bounds_cover satisfies compare catalog L a (last (a :: S) a) Hasc E)
        as (_ & _ & _ & Hc).
      split.
      * apply (Hc lo' Hlo'). intros c Hin. apply (Hb' c). now apply Hincl.
      * apply (Hc hi' Hhi'). intros c Hin. apply (Hb' c). now apply Hincl.
Qed.

Lemma more_constraints_narrow_the_range_witness :
  exists lo hi,
    (VStr "18.0.0", VStr "21.7.3") = (VStr lo, VStr hi)
    /\ le_by Semver.compare lo "20.0.0" = true
    /\ le_by Semver.compare "21.7.3" hi = true.
Proof.
  assert (HL : [VStr "<22.0.0"] <> []) by discriminate.
  assert (Hincl : incl [VStr "<22.0.0"] [VStr ">=20.0.0"; VStr "<22.0.0"]).
  { intros c Hc. now right. }
  assert (Hasc : ascending Semver.compare SharedConstants.COMMON_NODEJS_VERSIONS = true)
    by (vm_compute; reflexivity).
  assert (Hr : fst (calculateNodeRange Semver.satisfies
                      SharedConstants.COMMON_NODEJS_VERSIONS
                      [VStr "<22.0.0"] true initial_store)
               = Ok (VStr "18.0.0", VStr "21.7.3")) by (vm_compute; reflexivity).
  assert (Hr' : fst (calculateNodeRange Semver.satisfies
                       SharedConstants.COMMON_NODEJS_VERSIONS
                       [VStr ">=20.0.0"; VStr "<22.0.0"] true initial_store)
                = Ok (VStr "20.0.0", VStr "21.7.3")) by (vm_compute; reflexivity).
  exact (proj2 (more_constraints_narrow_the_range Semver.satisfies Semver.compare
                  SharedConstants.COMMON_NODEJS_VERSIONS _ _ true initial_store
                  initial_store _ _ HL Hincl Hasc Hr Hr') "20.0.0" "21.7.3" eq_refl).
Defined.

(** * Further properties of catalog construction *)

Lemma js_sort_of_sorted compare (l : list string) :
  StronglySorted (fun a b => le_by compare a b = true) l ->
  js_sort compare l = Some l.
Proof.
  induction 1 as [| a l Hl IH Ha]; [reflexivity |].
  simpl. rewrite IH. destruct l as [| b l]; [reflexivity |].
  simpl. inversion Ha as [| ? ? Hab _]; subst. unfold le_by in Hab.
  destruct (compare a b) as [[| |] |]; try discriminate; reflexivity.
Qed.

Lemma filter_id (f : string -> bool) (l : list string) :
  (forall x, In x l -> f x = true) -> filter f l = l.
Proof.
  induction l as [| a l IH]; intros H; [reflexivity |].
  simpl. rewrite (H a (or_introl eq_refl)). f_equal. apply IH.
  intros x Hx. apply H. now right.
Qed.

(** X5: a constructed catalog is a fixed point of construction: all its
    entries are valid and sorting it again returns it unchanged, which is
    what the repository's constants tests check on the shipped lists. *)
Theorem catalog_construction_idempotent :
  forall raw cat : list string,
    build_catalog Semver.valid Semver.compare raw = Some cat ->
    (forall v, In v cat -> Semver.valid v = true)
    /\ js_sort Semver.compare cat = Some cat
    /\ build_catalog Semver.valid Semver.compare cat = Some cat.
Proof.
  intros raw cat Hb.
  destruct (catalog_construction_general Semver.valid Semver.compare raw raw
              (Permutation_refl _) (semver_compare_total raw)
              (semver_compare_transitive raw))
    as (c & _ & Hc & _ & Hin & _ & Hs & _).
  rewrite Hb in Hc. injection Hc as <-.
  assert (Hv : forall v, In v cat -> Semver.valid v = true).
  { intros v Hv. now apply Hin in Hv as [_ Hv]. }
  split; [exact Hv |]. split; [now apply js_sort_of_sorted |].
  unfold build_catalog. rewrite (filter_id _ _ Hv). now apply js_sort_of_sorted.
Qed.

Lemma catalog_construction_idempotent_witness :
  js_sort Semver.compare Constants.COMMON_NODEJS_VERSIONS
  = Some Constants.COMMON_NODEJS_VERSIONS.
Proof.
  exact (proj1 (proj2 (catalog_construction_idempotent
                         Constants.NODEJS_VERSIONS_WITH_ALIASES
                         Constants.COMMON_NODEJS_VERSIONS
                         (proj1 Constants_loads)))).
Defined.

(** * Further properties of the collector and the orchestrator *)

Lemma logs_only_ret {A} P (a : A) : logs_only P (ret a) a.
Proof. intros s. exists []. split; [now rewrite log_nil | reflexivity]. Qed.

Lemma logs_only_bind {A B} P (m : M A) (f : A -> M B) (a : A) (b : B) :
  logs_only P m a -> logs_only P (f a) b -> logs_only P (bind m f) b.
Proof.
  intros Hm Hf s. destruct (Hm s) as (e1 & H1 & P1).
  destruct (Hf (log e1 s)) as (e2 & H2 & P2).
  exists (e1 ++ e2). unfold bind. rewrite H1, H2, log_log. split; [reflexivity |].
  now rewrite forallb_app, P1, P2.
Qed.

Lemma test_range_diagnostics satisfies kind version rangeStr :
  logs_only is_range_diagnostic (test_range satisfies kind version rangeStr)
    (holds satisfies version rangeStr).
Proof.
  intros s. unfold holds. destruct (satisfies version rangeStr) as [b | e] eqn:E.
  - exists []. unfold test_range, try_catch, lift. now rewrite E, log_nil.
  - exists [ConsoleError e; WarnInvalidRange kind rangeStr version].
    unfold test_range, try_catch, lift. rewrite E.
    unfold bind, ret. rewrite !emit_run, log_log. split; reflexivity.
Qed.

Lemma js_every_diagnostics {A} P (f : A -> M bool) (g : A -> bool) (l : list A) :
  (forall x, logs_only P (f x) (g x)) -> logs_only P (js_every f l) (forallb g l).
Proof.
  intros Hf. induction l as [| x l IH]; simpl.
  - apply logs_only_ret.
  - intros s. destruct (Hf x s) as (e1 & H1 & P1). unfold bind. rewrite H1.
    destruct (g x); simpl.
    + destruct (IH (log e1 s)) as (e2 & H2 & P2). exists (e1 ++ e2).
      rewrite H2, log_log. split; [reflexivity |]. now rewrite forallb_app, P1, P2.
    + exists e1. split; [reflexivity | exact P1].
Qed.

Lemma js_filter_diagnostics {A} P (f : A -> M bool) (g : A -> bool) (l : list A) :
  (forall x, logs_only P (f x) (g x)) -> logs_only P (js_filter f l) (filter g l).
Proof.
  intros Hf. induction l as [| x l IH]; simpl.
  - apply logs_only_ret.
  - eapply logs_only_bind; [apply Hf |].
    eapply logs_only_bind; [apply IH |].
    destruct (g x); apply logs_only_ret.
Qed.

Lemma compatible_versions_diagnostics satisfies kind catalog ranges :
  logs_only is_range_diagnostic (compatible_versions satisfies kind catalog ranges)
    (satisfying_sublist satisfies catalog ranges).
Proof.
  unfold compatible_versions, satisfying_sublist.
  apply js_filter_diagnostics. intros v. apply js_every_diagnostics. intros r.
  apply test_range_diagnostics.
Qed.

Lemma calculateNodeRange_diagnostics satisfies catalog ranges hasDependencies :
  logs_only is_range_diagnostic
    (calculateNodeRange satisfies catalog ranges hasDependencies)
    (node_range satisfies catalog ranges hasDependencies).
Proof.
  unfold calculateNodeRange, node_range. destruct ranges as [| r ranges].
  - simpl. destruct hasDependencies; apply logs_only_ret.
  - change (0 <? List.length (r :: ranges))%nat with true. cbv iota.
    intros s.
    destruct (compatible_versions_diagnostics satisfies Node catalog (r :: ranges) s)
      as (evs & H & P).
    exists evs. unfold bind. rewrite H. rewrite <- picked_first_last.
    split; [| exact P].
    destruct (0 <? List.length (satisfying_sublist satisfies catalog (r :: ranges)))%nat;
      reflexivity.
Qed.

Lemma calculateNpmRange_diagnostics satisfies catalog ranges :
  logs_only is_range_diagnostic (calculateNpmRange satisfies catalog ranges)
    (npm_range satisfies catalog ranges).
Proof.
  unfold calculateNpmRange, npm_range. destruct ranges as [| r ranges].
  - simpl. apply logs_only_ret.
  - change (0 <? List.length (r :: ranges))%nat with true. cbv iota.
    intros s.
    destruct (compatible_versions_diagnostics satisfies Npm catalog (r :: ranges) s)
      as (evs & H & P).
    exists evs. unfold bind. rewrite H. rewrite <- picked_first_last.
    split; [| exact P].
    destruct (0 <? List.length (satisfying_sublist satisfies catalog (r :: ranges)))%nat;
      reflexivity.
Qed.

Section TraceFacts.

Variable existsSync : string -> bool.
Variable readJsonSync : string -> outcome value.
Variable join : list string -> string.

Lemma collect_dependency_exact nodeModulesPath totalDeps depCount depName s :
  collect_dependency existsSync readJsonSync join nodeModulesPath totalDeps
    depCount depName s
  = (Ok tt,
     pushed (contribution (metadata existsSync readJsonSync
                             (join [nodeModulesPath; depName; "package.json"])))
       (dependency_events depCount totalDeps depName
          (join [nodeModulesPath; depName; "package.json"])
          (metadata existsSync readJsonSync
             (join [nodeModulesPath; depName; "package.json"]))) s).
Proof.
  set (path := join [nodeModulesPath; depName; "package.json"]).
  assert (Hfin : forall A B T (c : list value * list value) evs,
             A = allNodeRanges s ++ fst c -> B = allNpmRanges s ++ snd c ->
             T = trace s ++ evs ->
             (Ok tt, mkStore A B T) = (Ok tt, pushed c evs s)).
  { intros A B T c evs -> -> ->. reflexivity. }
  unfold collect_dependency, metadata, dependency_events, fs_exists, read_json.
  fold path.
  unfold bind at 1 2 3. rewrite !emit_run. unfold ret at 1.
  destruct (existsSync path).
  - unfold try_catch, bind at 1 2. rewrite emit_run. unfold lift at 1.
    destruct (readJsonSync path) as [pkg | e]; simpl contribution.
    + unfold bind at 1, lift at 1.
      destruct (get_prop pkg "engines") as [engines | e].
      * destruct (truthy engines) eqn:Ht.
        -- destruct (truthy_get_prop engines "node" Ht) as [node Hn].
           destruct (truthy_get_prop engines "npm" Ht) as [npm Hp].
           rewrite Hn, Hp. unfold bind, lift.
           destruct (truthy node), (truthy npm); apply Hfin; cbn;
             rewrite <- ?app_assoc, ?app_nil_r; reflexivity.
        -- apply Hfin; cbn; rewrite <- ?app_assoc, ?app_nil_r; reflexivity.
      * apply Hfin; cbn; rewrite <- ?app_assoc, ?app_nil_r; reflexivity.
    + apply Hfin; cbn; rewrite <- ?app_assoc, ?app_nil_r; reflexivity.
  - apply Hfin; cbn; rewrite <- ?app_assoc, ?app_nil_r; reflexivity.
Qed.

Lemma collect_loop_exact nodeModulesPath totalDeps names : forall depCount s,
  js_for_of (collect_dependency existsSync readJsonSync join nodeModulesPath totalDeps)
    depCount names s
  = (Ok tt,
     pushed (collected (map (fun d => metadata existsSync readJsonSync
                                        (join [nodeModulesPath; d; "package.json"]))
                          names))
       (loop_events existsSync readJsonSync
          (fun d => join [nodeModulesPath; d; "package.json"]) totalDeps depCount names)
       s).
Proof.
  induction names as [| d names IH]; intros depCount s.
  - unfold pushed; cbn. destruct s; cbn. now rewrite !app_nil_r.
  - cbn [js_for_of map collected loop_events]. unfold bind.
    rewrite collect_dependency_exact, IH. now rewrite pushed_pushed.
Qed.

End TraceFacts.

Section RunFacts.

Variable existsSync : string -> bool.
Variable readJsonSync : string -> outcome value.
Variable join : list string -> string.
Variable satisfies : string -> value -> outcome bool.
Variable nodeCatalog npmCatalog : list string.

Let analyze : string -> M (option ProjectAnalysisResult) :=
  analyzeProjectIncludes existsSync readJsonSync join satisfies nodeCatalog npmCatalog.

Let manifest_path (projectPath : string) : string := join [projectPath; "package.json"].

Let dep_path (projectPath d : string) : string :=
  join [join [projectPath; "node_modules"]; d; "package.json"].

Let dep_metas (projectPath : string) (names : list string) :=
  map (fun d => metadata existsSync readJsonSync (dep_path projectPath d)) names.

Lemma analyze_exact projectPath manifest names s :
  existsSync (manifest_path projectPath) = true ->
  readJsonSync (manifest_path projectPath) = Ok manifest ->
  dependency_names manifest = Ok names ->
  names <> [] ->
  exists diag,
    forallb is_range_diagnostic diag = true
    /\ analyze projectPath s
       = (Ok (Some (mkResult (manifest_path projectPath)
                      (fst (node_range satisfies nodeCatalog
                              (fst (collected (dep_metas projectPath names))) true))
                      (snd (node_range satisfies nodeCatalog
                              (fst (collected (dep_metas projectPath names))) true))
                      (fst (npm_range satisfies npmCatalog
                              (snd (collected (dep_metas projectPath names)))))
                      (snd (npm_range satisfies npmCatalog
                              (snd (collected (dep_metas projectPath names)))))
                      None)),
          mkStore (fst (collected (dep_metas projectPath names)))
            (snd (collected (dep_metas projectPath names)))
            (trace s
               ++ [FsExists (manifest_path projectPath);
                   FsRead (manifest_path projectPath);
                   ProgressReport 10 1 (Some "Scanning dependencies...")]
               ++ loop_events existsSync readJsonSync (dep_path projectPath)
                    (List.length names) 0 names
               ++ [ProgressReport 90 1 (Some "Calculating version ranges...")]
               ++ diag
               ++ [ProgressReport 100 1 None])).
Proof.
  intros H Hr Hn Hne.
  destruct (analyze_reads_manifest manifest names Hn)
    as (deps & devDeps & Hd & Hdd & Hk).
  unfold analyze, analyzeProjectIncludes, fs_exists, read_json, manifest_path in *.
  unfold bind at 1 2. rewrite emit_run. unfold ret at 1. rewrite H. cbn [negb].
  unfold bind at 1, try_catch, bind at 1 2. rewrite emit_run.
  unfold lift at 1. rewrite Hr. unfold ret at 1.
  unfold bind at 1, lift at 1. rewrite Hd.
  unfold bind at 1, lift at 1. rewrite Hdd.
  rewrite <- Hk.
  destruct names as [| d names]; [congruence |].
  set (ks := d :: names) in *.
  change (List.length ks =? 0)%nat with false. cbv iota.
  change (0 <? List.length ks)%nat with true.
  unfold bind at 1. rewrite emit_run.
  unfold bind at 1, declare_ranges at 1.
  unfold bind at 1. rewrite collect_loop_exact.
  unfold bind at 1. rewrite emit_run.
  unfold bind at 1, get_node_ranges at 1.
  unfold bind at 1.
  match goal with
  | |- context [calculateNodeRange satisfies nodeCatalog ?L true ?st] =>
      destruct (calculateNodeRange_diagnostics satisfies nodeCatalog L true st)
        as (e2 & H2 & P2); rewrite H2
  end.
  unfold bind at 1, get_npm_ranges at 1.
  unfold bind at 1.
  match goal with
  | |- context [calculateNpmRange satisfies npmCatalog ?L ?st] =>
      destruct (calculateNpmRange_diagnostics satisfies npmCatalog L st)
        as (e3 & H3 & P3); rewrite H3
  end.
  unfold bind, ret. rewrite emit_run.
  exists (e2 ++ e3). split; [now rewrite forallb_app, P2, P3 |].
  unfold log, pushed, dep_metas, dep_path. subst ks.
  cbn [allNodeRanges allNpmRanges trace app fst snd].
  repeat (rewrite <- app_assoc; cbn [app]). reflexivity.
Qed.

Lemma analyze_null_manifest projectPath manifest s :
  existsSync (manifest_path projectPath) = true ->
  readJsonSync (manifest_path projectPath) = Ok manifest ->
  manifest = VNull \/ manifest = VUndefined ->
  exists e,
    analyze projectPath s
    = (Throw e,
       log [FsExists (manifest_path projectPath); FsRead (manifest_path projectPath)] s).
Proof.
  intros H Hr Hm.
  unfold analyze, analyzeProjectIncludes, fs_exists, read_json, manifest_path in *.
  unfold bind at 1 2. rewrite emit_run. unfold ret at 1. rewrite H. cbn [negb].
  unfold bind at 1, try_catch, bind at 1 2. rewrite emit_run.
  unfold lift at 1. rewrite Hr. unfold ret at 1.
  unfold bind at 1, lift at 1.
  destruct Hm as [-> | ->]; cbn [get_prop]; rewrite log_log; eexists; reflexivity.
Qed.

End RunFacts.

Lemma dependency_names_defined (manifest : value) :
  manifest <> VNull -> manifest <> VUndefined ->
  exists names, dependency_names manifest = Ok names.
Proof.
  intros H1 H2. unfold dependency_names.
  destruct manifest; try congruence; cbn [get_prop]; eexists; reflexivity.
Qed.

(** X6: the only thing that makes the analysis itself throw once the
    manifest was read is a manifest whose JSON text is the literal [null]:
    then the run rejects with a TypeError after the two manifest accesses,
    showing nothing.  For every other manifest value the run returns a
    result, whatever the dependencies' files hold and whatever [satisfies]
    does. *)
Theorem analysis_throws_only_on_null_manifest :
  forall existsSync readJsonSync join satisfies nodeCatalog npmCatalog
         projectPath manifest s,
    existsSync (join [projectPath; "package.json"]) = true ->
    readJsonSync (join [projectPath; "package.json"]) = Ok manifest ->
    let run := analyzeProjectIncludes existsSync readJsonSync join satisfies
                 nodeCatalog npmCatalog projectPath s in
    ((exists e, fst run = Throw e) <-> (manifest = VNull \/ manifest = VUndefined))
    /\ (manifest = VNull \/ manifest = VUndefined ->
        snd run = log [FsExists (join [projectPath; "package.json"]);
                       FsRead (join [projectPath; "package.json"])] s)
    /\ (manifest <> VNull -> manifest <> VUndefined ->
        exists r, fst run = Ok (Some r)).
Proof.
  intros existsSync readJsonSync join satisfies nodeCatalog npmCatalog
         projectPath manifest s Hx Hr run.
  assert (Hok : manifest <> VNull -> manifest <> VUndefined ->
                exists r, fst run = Ok (Some r)).
  { intros H1 H2. destruct (dependency_names_defined manifest H1 H2) as [names Hn].
    unfold run. destruct names as [| d names].
    - rewrite (analyze_no_dependencies existsSync readJsonSync join satisfies nodeCatalog
                 npmCatalog projectPath manifest s Hx Hr Hn).
      eexists. reflexivity.
    - destruct (analyze_with_dependencies existsSync readJsonSync join satisfies
                  nodeCatalog npmCatalog projectPath manifest (d :: names) s Hx Hr Hn)
        as [evs H]; [discriminate |].
      rewrite H. eexists. reflexivity. }
  split; [| split; [| exact Hok]].
  - split.
    + intros [e He].
      destruct manifest; try (now left); try (now right);
        (destruct Hok as [r Hr']; [discriminate | discriminate | congruence]).
    + intros Hm.
      destruct (analyze_null_manifest existsSync readJsonSync join satisfies nodeCatalog
                  npmCatalog projectPath manifest s Hx Hr Hm) as [e He].
      exists e. unfold run. now rewrite He.
  - intros Hm.
    destruct (analyze_null_manifest existsSync readJsonSync join satisfies nodeCatalog
                npmCatalog projectPath manifest s Hx Hr Hm) as [e He].
    unfold run. now rewrite He.
Qed.

Lemma analysis_throws_only_on_null_manifest_witness :
  exists e, fst (sample_run (Some (Ok VNull)) None) = Throw e.
Proof.
  exact (proj2 (proj1 (analysis_throws_only_on_null_manifest
                         (sample_exists (Some (Ok VNull)) None)
                         (sample_read (Some (Ok VNull)) None)
                         sample_join Semver.satisfies
                         SharedConstants.COMMON_NODEJS_VERSIONS
                         SharedConstants.COMMON_NPM_VERSIONS
                         "/app" VNull initial_store eq_refl eq_refl))
           (or_introl eq_refl)).
Defined.

Lemma filter_diagnostics_out (P : event -> bool) (diag : list event) :
  (forall ev, is_range_diagnostic ev = true -> P ev = false) ->
  forallb is_range_diagnostic diag = true -> filter P diag = [].
Proof.
  intros HP. induction diag as [| ev diag IH]; intros H; [reflexivity |].
  simpl in H. apply andb_prop in H as [Hev H]. simpl.
  rewrite (HP ev Hev). now apply IH.
Qed.

Lemma loop_fs_events existsSync readJsonSync path_of totalDeps names : forall depCount,
  filter is_fs_event
    (loop_events existsSync readJsonSync path_of totalDeps depCount names)
  = dependency_probes existsSync path_of names.
Proof.
  induction names as [| d names IH]; intros depCount; [reflexivity |].
  cbn [loop_events dependency_probes flat_map]. rewrite filter_app, IH.
  fold (dependency_probes existsSync path_of names). f_equal.
  unfold dependency_events, metadata.
  destruct (existsSync (path_of d)); [| reflexivity].
  destruct (readJsonSync (path_of d)) as [pkg | e]; [| reflexivity].
  destruct (get_prop pkg "engines"); reflexivity.
Qed.

Lemma loop_progress_events existsSync readJsonSync path_of totalDeps names :
  forall depCount,
  filter is_progress_event
    (loop_events existsSync readJsonSync path_of totalDeps depCount names)
  = progress_ticks totalDeps depCount names.
Proof.
  induction names as [| d names IH]; intros depCount; [reflexivity |].
  cbn [loop_events progress_ticks]. rewrite filter_app, IH.
  unfold dependency_events, metadata.
  destruct (existsSync (path_of d)); [| reflexivity].
  destruct (readJsonSync (path_of d)) as [pkg | e]; [| reflexivity].
  destruct (get_prop pkg "engines"); reflexivity.
Qed.

(** X7: the file-system accesses of a run over a manifest with dependencies
    are, in this order, the probe and the read of the manifest and then, for
    each dependency name in key order, one probe of
    [node_modules/<name>/package.json] followed by one read exactly when the
    probe found the file.  Nothing else is probed, and a file that was not
    found is never read. *)
Theorem analysis_file_accesses :
  forall existsSync readJsonSync join satisfies nodeCatalog npmCatalog
         projectPath manifest names s,
    existsSync (join [projectPath; "package.json"]) = true ->
    readJsonSync (join [projectPath; "package.json"]) = Ok manifest ->
    dependency_names manifest = Ok names ->
    names <> [] ->
    exists evs,
      trace (snd (analyzeProjectIncludes existsSync readJsonSync join satisfies
                    nodeCatalog npmCatalog projectPath s)) = trace s ++ evs
      /\ filter is_fs_event evs
         = [FsExists (join [projectPath; "package.json"]);
            FsRead (join [projectPath; "package.json"])]
           ++ dependency_probes existsSync
                (fun d => join [join [projectPath; "node_modules"]; d; "package.json"])
                names.
Proof.
  intros existsSync readJsonSync join satisfies nodeCatalog npmCatalog
         projectPath manifest names s Hx Hr Hn Hne.
  destruct (analyze_exact existsSync readJsonSync join satisfies nodeCatalog npmCatalog
              projectPath manifest names s Hx Hr Hn Hne) as (diag & Hd & H).
  rewrite H. cbn [snd trace]. eexists. split; [reflexivity |].
  rewrite !filter_app, loop_fs_events.
  rewrite (filter_diagnostics_out is_fs_event diag); [| | exact Hd].
  - cbn [filter is_fs_event app]. now rewrite app_nil_r.
  - intros [] Hev; try discriminate; reflexivity.
Qed.

Lemma analysis_file_accesses_witness :
  exists evs,
    trace (snd (sample_run (Some (Ok manifest_one_dependency)) None)) = [] ++ evs
    /\ filter is_fs_event evs
       = [FsExists "/app/package.json"; FsRead "/app/package.json";
          FsExists "/app/node_modules/dep/package.json"].
Proof.
  assert (Hne : ["dep"] <> []) by discriminate.
  exact (analysis_file_accesses
           (sample_exists (Some (Ok manifest_one_dependency)) None)
           (sample_read (Some (Ok manifest_one_dependency)) None)
           sample_join Semver.satisfies
           SharedConstants.COMMON_NODEJS_VERSIONS SharedConstants.COMMON_NPM_VERSIONS
           "/app" manifest_one_dependency ["dep"] initial_store
           eq_refl eq_refl eq_refl Hne).
Defined.

(** X8: the progress reports of a run over [n] dependencies are, in order,
    an increment of 10, then for the i-th dependency the increment
    [(i / n) * 80], in the floating-point arithmetic of the program and so
    recorded by its operands [i] and [n], with the message naming the
    dependency, then 90 and finally 100 without a message; a dependency's tick
    is reported whether or not its metadata could be read. *)
Theorem analysis_progress_reports :
  forall existsSync readJsonSync join satisfies nodeCatalog npmCatalog
         projectPath manifest names s,
    existsSync (join [projectPath; "package.json"]) = true ->
    readJsonSync (join [projectPath; "package.json"]) = Ok manifest ->
    dependency_names manifest = Ok names ->
    names <> [] ->
    exists evs,
      trace (snd (analyzeProjectIncludes existsSync readJsonSync join satisfies
                    nodeCatalog npmCatalog projectPath s)) = trace s ++ evs
      /\ filter is_progress_event evs
         = [ProgressReport 10 1 (Some "Scanning dependencies...")]
           ++ progress_ticks (List.length names) 0 names
           ++ [ProgressReport 90 1 (Some "Calculating version ranges...");
               ProgressReport 100 1 None].
Proof.
  intros existsSync readJsonSync join satisfies nodeCatalog npmCatalog
         projectPath manifest names s Hx Hr Hn Hne.
  destruct (analyze_exact existsSync readJsonSync join satisfies nodeCatalog npmCatalog
              projectPath manifest names s Hx Hr Hn Hne) as (diag & Hd & H).
  rewrite H. cbn [snd trace]. eexists. split; [reflexivity |].
  rewrite !filter_app, loop_progress_events.
  rewrite (filter_diagnostics_out is_progress_event diag); [| | exact Hd].
  - reflexivity.
  - intros [] Hev; try discriminate; reflexivity.
Qed.

Lemma analysis_progress_reports_witness :
  exists evs,
    trace (snd (sample_run (Some (Ok manifest_one_dependency)) None)) = [] ++ evs
    /\ filter is_progress_event evs
       = [ProgressReport 10 1 (Some "Scanning dependencies...");
          ProgressShare 1 1 (Some "Analyzing dep...");
          ProgressReport 90 1 (Some "Calculating version ranges...");
          ProgressReport 100 1 None].
Proof.
  assert (Hne : ["dep"] <> []) by discriminate.
  exact (analysis_progress_reports
           (sample_exists (Some (Ok manifest_one_dependency)) None)
           (sample_read (Some (Ok manifest_one_dependency)) None)
           sample_join Semver.satisfies
           SharedConstants.COMMON_NODEJS_VERSIONS SharedConstants.COMMON_NPM_VERSIONS
           "/app" manifest_one_dependency ["dep"] initial_store
           eq_refl eq_refl eq_refl Hne).
Defined.

Lemma insert_index_length (k : N * string) (l : list (N * string)) :
  List.length (insert_index k l) = S (List.length l).
Proof.
  induction l as [| k' l IH]; [reflexivity |].
  simpl. destruct (fst k <=? fst k')%N; simpl; [reflexivity | now rewrite IH].
Qed.

Lemma object_keys_length (props : list (string * value)) :
  List.length (object_keys props) = List.length props.
Proof.
  unfold object_keys. rewrite length_app, !length_map.
  induction props as [| [k v] props IH]; [reflexivity |].
  cbn [map fst fold_right filter]. destruct (array_index k) as [n |].
  - rewrite insert_index_length. simpl. now rewrite IH.
  - simpl. rewrite Nat.add_succ_r. now rewrite IH.
Qed.

Lemma set_prop_not_nil props k v : set_prop props k v <> [].
Proof. destruct props as [| [k' v'] props]; simpl; [| destruct (k' =? k)]; discriminate. Qed.

Lemma fold_set_prop_nil (src acc : list (string * value)) :
  fold_left (fun a kv => set_prop a (fst kv) (snd kv)) src acc = []
  <-> src = [] /\ acc = [].
Proof.
  revert acc. induction src as [| kv src IH]; intros acc; simpl.
  - split; [intros ->; now split | now intros [_ ->]].
  - rewrite IH. split; intros [H1 H2]; [| discriminate].
    exfalso. now apply set_prop_not_nil in H2.
Qed.

Lemma own_props_or_empty (v : value) : own_props (or_empty v) = own_props v.
Proof.
  unfold or_empty. destruct v as [| | [|] | n | s | items | props]; try reflexivity.
  - simpl. destruct (n =? 0)%Z; reflexivity.
  - destruct s; reflexivity.
Qed.

Lemma isEmptyObject_own_props (v : value) :
  isEmptyObject v = true <-> own_props v = [].
Proof.
  unfold isEmptyObject.
  destruct v; try (split; reflexivity);
    rewrite Nat.eqb_eq, object_keys_length; apply length_zero_iff_nil.
Qed.

Lemma merged_keys_nil (deps devDeps : value) :
  object_keys (spread2 (or_empty deps) (or_empty devDeps)) = []
  <-> isEmptyObject deps = true /\ isEmptyObject devDeps = true.
Proof.
  rewrite <- length_zero_iff_nil, object_keys_length, length_zero_iff_nil.
  unfold spread2. rewrite fold_set_prop_nil, !own_props_or_empty.
  rewrite !isEmptyObject_own_props. tauto.
Qed.

(** X9: the analysis takes the no-dependencies exit exactly when
    [isEmptyObject] holds of both the [dependencies] and the
    [devDependencies] entry of the manifest (missing, falsy or without keys);
    as soon as one of them has a key the run goes on and its result carries
    no note. *)
Theorem no_dependencies_exit_iff_both_empty :
  forall existsSync readJsonSync join satisfies nodeCatalog npmCatalog
         projectPath manifest deps devDeps s,
    existsSync (join [projectPath; "package.json"]) = true ->
    readJsonSync (join [projectPath; "package.json"]) = Ok manifest ->
    get_prop manifest "dependencies" = Ok deps ->
    get_prop manifest "devDependencies" = Ok devDeps ->
    exists r,
      fst (analyzeProjectIncludes existsSync readJsonSync join satisfies
             nodeCatalog npmCatalog projectPath s) = Ok (Some r)
      /\ (note r = Some "No dependencies to analyze."
          <-> isEmptyObject deps = true /\ isEmptyObject devDeps = true)
      /\ (note r = None
          <-> isEmptyObject deps = false \/ isEmptyObject devDeps = false).
Proof.
  intros existsSync readJsonSync join satisfies nodeCatalog npmCatalog
         projectPath manifest deps devDeps s Hx Hr Hd Hdd.
  assert (Hn : dependency_names manifest
               = Ok (object_keys (spread2 (or_empty deps) (or_empty devDeps)))).
  { unfold dependency_names. now rewrite Hd, Hdd. }
  pose proof (merged_keys_nil deps devDeps) as Hnil.
  destruct (object_keys (spread2 (or_empty deps) (or_empty devDeps)))
    as [| d names] eqn:E.
  - rewrite (analyze_no_dependencies existsSync readJsonSync join satisfies nodeCatalog
               npmCatalog projectPath manifest s Hx Hr Hn).
    eexists. split; [reflexivity |]. cbn [note].
    destruct (proj1 Hnil eq_refl) as [H1 H2]. rewrite H1, H2.
    split; split; intros H; try reflexivity; try discriminate; try (now split).
    destruct H; discriminate.
  - destruct (analyze_with_dependencies existsSync readJsonSync join satisfies
                nodeCatalog npmCatalog projectPath manifest (d :: names) s Hx Hr Hn)
      as [evs H]; [discriminate |].
    rewrite H. eexists. split; [reflexivity |]. cbn [note].
    split; split; intros H'; try reflexivity; try discriminate.
    + apply Hnil in H'. discriminate.
    + destruct (isEmptyObject deps) eqn:E1; [| now left].
      destruct (isEmptyObject devDeps) eqn:E2; [| now right].
      exfalso. assert (Hc : d :: names = []) by (now apply Hnil). discriminate.
Qed.

Lemma no_dependencies_exit_iff_both_empty_witness :
  exists r,
    fst (sample_run (Some (Ok manifest_no_dependencies)) None) = Ok (Some r)
    /\ (note r = Some "No dependencies to analyze."
        <-> isEmptyObject VUndefined = true /\ isEmptyObject (VObj []) = true)
    /\ (note r = None
        <-> isEmptyObject VUndefined = false \/ isEmptyObject (VObj []) = false).
Proof.
  exact (no_dependencies_exit_iff_both_empty
           (sample_exists (Some (Ok manifest_no_dependencies)) None)
           (sample_read (Some (Ok manifest_no_dependencies)) None)
           sample_join Semver.satisfies
           SharedConstants.COMMON_NODEJS_VERSIONS SharedConstants.COMMON_NPM_VERSIONS
           "/app" manifest_no_dependencies VUndefined (VObj []) initial_store
           eq_refl eq_refl eq_refl eq_refl).
Defined.

Lemma collected_node_In (metas : list (option (outcome value))) (c : value) :
  In c (fst (collected metas)) -> exists m, In m metas /\ In c (fst (contribution m)).
Proof.
  induction metas as [| m metas IH]; simpl; [contradiction |].
  intros H. apply in_app_or in H as [H | H].
  - exists m. split; [now left | exact H].
  - destruct (IH H) as (m' & Hm' & Hc). exists m'. split; [now right | exact Hc].
Qed.

Lemma collected_npm_In (metas : list (option (outcome value))) (c : value) :
  In c (snd (collected metas)) -> exists m, In m metas /\ In c (snd (contribution m)).
Proof.
  induction metas as [| m metas IH]; simpl; [contradiction |].
  intros H. apply in_app_or in H as [H | H].
  - exists m. split; [now left | exact H].
  - destruct (IH H) as (m' & Hm' & Hc). exists m'. split; [now right | exact Hc].
Qed.

Lemma contribution_node_origin (m : option (outcome value)) (c : value) :
  In c (fst (contribution m)) ->
  c = VStr ">=0.10.0"
  \/ exists pkg engines,
       m = Some (Ok pkg) /\ get_prop pkg "engines" = Ok engines
       /\ get_prop engines "node" = Ok c /\ truthy c = true.
Proof.
  unfold contribution.
  destruct m as [[pkg | e] |]; try (intros [<- | []]; now left).
  destruct (get_prop pkg "engines") as [engines | e] eqn:Ee;
    [| intros [<- | []]; now left].
  destruct (truthy engines); [| intros [<- | []]; now left]. cbn [fst].
  destruct (get_prop engines "node") as [node | e] eqn:En; [| contradiction].
  destruct (truthy node) eqn:Ht; [| contradiction].
  intros [<- | []]. right. exists pkg, engines. auto.
Qed.

Lemma contribution_npm_origin (m : option (outcome value)) (c : value) :
  In c (snd (contribution m)) ->
  exists pkg engines,
    m = Some (Ok pkg) /\ get_prop pkg "engines" = Ok engines
    /\ get_prop engines "npm" = Ok c /\ truthy c = true.
Proof.
  unfold contribution.
  destruct m as [[pkg | e] |]; try contradiction.
  destruct (get_prop pkg "engines") as [engines | e] eqn:Ee; [| contradiction].
  destruct (truthy engines); [| contradiction]. cbn [snd].
  destruct (get_prop engines "npm") as [npm | e] eqn:En; [| contradiction].
  destruct (truthy npm) eqn:Ht; [| contradiction].
  intros [<- | []]. exists pkg, engines. auto.
Qed.

Lemma collected_lengths (metas : list (option (outcome value))) :
  List.length (fst (collected metas)) <= List.length metas
  /\ List.length (snd (collected metas)) <= List.length metas.
Proof.
  induction metas as [| m metas [IH1 IH2]]; [split; reflexivity |].
  cbn [collected fst snd]. rewrite !length_app.
  assert (H1 : List.length (fst (contribution m)) <= 1).
  { destruct (contribution_node_one m) as [-> | [c ->]]; simpl; lia. }
  assert (H2 : List.length (snd (contribution m)) <= 1).
  { unfold contribution. destruct m as [[pkg | e] |]; simpl; try lia.
    destruct (get_prop pkg "engines") as [engines | e]; simpl; try lia.
    destruct (truthy engines); simpl; try lia.
    destruct (get_prop engines "npm") as [npm | e]; simpl; try lia.
    destruct (truthy npm); simpl; lia. }
  simpl. lia.
Qed.

(** X10: where the collected constraints come from.  After a run over a
    manifest with dependencies, every package-manager constraint is the
    truthy [engines.npm] value of some dependency's readable metadata, taken
    over verbatim (there is no package-manager default); every runtime
    constraint is either the default [>=0.10.0] or such an [engines.node]
    value; and neither list is longer than the dependency set. *)
Theorem collected_constraints_origin :
  forall existsSync readJsonSync join satisfies nodeCatalog npmCatalog
         projectPath manifest names s,
    existsSync (join [projectPath; "package.json"]) = true ->
    readJsonSync (join [projectPath; "package.json"]) = Ok manifest ->
    dependency_names manifest = Ok names ->
    names <> [] ->
    let s' := snd (analyzeProjectIncludes existsSync readJsonSync join satisfies
                     nodeCatalog npmCatalog projectPath s) in
    let declared (key : string) (c : value) :=
      exists d pkg engines,
        In d names
        /\ metadata existsSync readJsonSync
             (join [join [projectPath; "node_modules"]; d; "package.json"])
           = Some (Ok pkg)
        /\ get_prop pkg "engines" = Ok engines
        /\ get_prop engines key = Ok c /\ truthy c = true in
    (forall c, In c (allNpmRanges s') -> declared "npm" c)
    /\ (forall c, In c (allNodeRanges s') -> c = VStr ">=0.10.0" \/ declared "node" c)
    /\ List.length (allNodeRanges s') <= List.length names
    /\ List.length (allNpmRanges s') <= List.length names.
Proof.
  intros existsSync readJsonSync join satisfies nodeCatalog npmCatalog
         projectPath manifest names s Hx Hr Hn Hne s' declared.
  destruct (analyze_with_dependencies existsSync readJsonSync join satisfies
              nodeCatalog npmCatalog projectPath manifest names s Hx Hr Hn Hne)
    as [evs H].
  subst s'. rewrite H. cbn [snd allNodeRanges allNpmRanges].
  set (metas := map _ names).
  split; [| split; [| split]].
  - intros c Hc. apply collected_npm_In in Hc as (m & Hm & Hc).
    apply in_map_iff in Hm as (d & <- & Hd).
    apply contribution_npm_origin in Hc as (pkg & engines & H1 & H2 & H3 & H4).
    exists d, pkg, engines. auto.
  - intros c Hc. apply collected_node_In in Hc as (m & Hm & Hc).
    apply in_map_iff in Hm as (d & <- & Hd).
    apply contribution_node_origin in Hc as [-> | (pkg & engines & H1 & H2 & H3 & H4)];
      [now left | right].
    exists d, pkg, engines. auto.
  - pose proof (collected_lengths metas) as [H1 _]. unfold metas in *.
    now rewrite length_map in H1.
  - pose proof (collected_lengths metas) as [_ H2]. unfold metas in *.
    now rewrite length_map in H2.
Qed.

Lemma collected_constraints_origin_witness :
  List.length (allNodeRanges (snd (sample_run (Some (Ok manifest_one_dependency)) None)))
  <= List.length ["dep"].
Proof.
  assert (Hne : ["dep"] <> []) by discriminate.
  exact (proj1 (proj2 (proj2 (collected_constraints_origin
                                (sample_exists (Some (Ok manifest_one_dependency)) None)
                                (sample_read (Some (Ok manifest_one_dependency)) None)
                                sample_join Semver.satisfies
                                SharedConstants.COMMON_NODEJS_VERSIONS
                                SharedConstants.COMMON_NPM_VERSIONS
                                "/app" manifest_one_dependency ["dep"] initial_store
                                eq_refl eq_refl eq_refl Hne)))).
Defined.

(** ** Mutable objects *)

Lemma h_lookup_update_same :
  forall props k x, h_lookup (h_update props k x) k = x.
Proof.
  induction props as [| [k' x'] props IH]; intros k x; cbn.
  - now rewrite String.eqb_refl.
  - destruct (k' =? k) eqn:E; cbn; rewrite E; auto.
Qed.

Lemma h_lookup_update_other :
  forall props k k' x, k <> k' -> h_lookup (h_update props k x) k' = h_lookup props k'.
Proof.
  induction props as [| [k0 x0] props IH]; intros k k' x Hne; cbn.
  - destruct (k =? k') eqn:E; [apply String.eqb_eq in E; contradiction | reflexivity].
  - destruct (k0 =? k) eqn:E; cbn.
    + apply String.eqb_eq in E. subst k0.
      destruct (k =? k') eqn:E'; [apply String.eqb_eq in E'; contradiction | reflexivity].
    + destruct (k0 =? k'); auto.
Qed.

Lemma h_update_keys :
  forall props k x k', In k' (map fst (h_update props k x)) <-> k' = k \/ In k' (map fst props).
Proof.
  induction props as [| [k0 x0] props IH]; intros k x k'; cbn.
  - intuition.
  - destruct (k0 =? k) eqn:E; cbn.
    + apply String.eqb_eq in E. subst k0. intuition.
    + rewrite IH. intuition.
Qed.

Lemma h_update_nodup :
  forall props k x, NoDup (map fst props) -> NoDup (map fst (h_update props k x)).
Proof.
  induction props as [| [k0 x0] props IH]; intros k x Hnd; cbn.
  - constructor; [intros [] | constructor].
  - inversion Hnd as [| ? ? Hnotin Hnd']; subst.
    destruct (k0 =? k) eqn:E; cbn.
    + now constructor.
    + constructor; [| now apply IH].
      rewrite h_update_keys. intros [-> | Hin]; [| contradiction].
      now rewrite String.eqb_refl in E.
Qed.

Lemma of_json_object :
  forall props, of_json (VObj props) = HObj (fold_left (parse_step of_json) props []).
Proof. reflexivity. Qed.

Lemma parse_fold_nodup :
  forall l acc, NoDup (map fst acc) -> NoDup (map fst (fold_left (parse_step of_json) l acc)).
Proof.
  induction l as [| [k x] l IH]; intros acc Hnd; cbn; [assumption |].
  apply IH. now apply h_update_nodup.
Qed.

(** The objects [JSON.parse] builds never repeat a key. *)
Lemma of_json_nodup :
  forall v props, of_json v = HObj props -> NoDup (map fst props).
Proof.
  intros v props H. destruct v as [| | | | | | jprops]; try discriminate.
  rewrite of_json_object in H. injection H as <-.
  apply parse_fold_nodup. constructor.
Qed.

Lemma parse_fold_lookup_origin :
  forall l acc k,
    h_lookup (fold_left (parse_step of_json) l acc) k = h_lookup acc k
    \/ exists v, h_lookup (fold_left (parse_step of_json) l acc) k = of_json v.
Proof.
  induction l as [| [k0 x] l IH]; intros acc k; cbn; [now left |].
  destruct (IH (h_update acc k0 (of_json x)) k) as [H | H]; [| now right].
  rewrite H. destruct (String.eqb_spec k0 k) as [-> | Hne].
  - right. exists x. apply h_lookup_update_same.
  - left. now apply h_lookup_update_other.
Qed.

(** An object found inside a parsed object is a parsed object as well. *)
Lemma of_json_lookup_nodup :
  forall v props k inner,
    of_json v = HObj props -> h_lookup props k = HObj inner -> NoDup (map fst inner).
Proof.
  intros v props k inner H Hk. destruct v as [| | | | | | jprops]; try discriminate.
  rewrite of_json_object in H. injection H as <-.
  destruct (parse_fold_lookup_origin jprops [] k) as [H | [v H]]; rewrite H in Hk.
  - discriminate.
  - eapply of_json_nodup; eauto.
Qed.

Lemma h_update_unchanged :
  forall props k x, h_lookup props k = x -> x <> HUndefined -> h_update props k x = props.
Proof.
  induction props as [| [k0 x0] props IH]; intros k x H Hx; cbn in *.
  - congruence.
  - destruct (k0 =? k) eqn:E; [now subst | f_equal; auto].
Qed.

Lemma h_update_update :
  forall props k x y, h_update (h_update props k x) k y = h_update props k y.
Proof.
  induction props as [| [k0 x0] props IH]; intros k x y; cbn.
  - now rewrite String.eqb_refl.
  - destruct (k0 =? k) eqn:E; cbn; rewrite E; [reflexivity | now rewrite IH].
Qed.

Lemma differs_from_false :
  forall h s, differs_from h s = false -> h = HStr s.
Proof.
  intros h s H. destruct h; try discriminate. cbn in H.
  apply negb_false_iff, String.eqb_eq in H. now subst.
Qed.

Lemma up_to_date_other :
  forall props k k' x s, k <> k' -> up_to_date (h_update props k x) k' s = up_to_date props k' s.
Proof.
  intros. unfold up_to_date. now rewrite h_lookup_update_other.
Qed.

(** ** Writing and reading back *)

Lemma to_json_object :
  forall props, to_json (HObj props) = VObj (written_props to_json props).
Proof. reflexivity. Qed.

Lemma written_props_cons :
  forall k x props,
    written_props to_json ((k, x) :: props)
    = match x with
      | HUndefined => written_props to_json props
      | _ => (k, to_json x) :: written_props to_json props
      end.
Proof. intros k x props. destruct x; reflexivity. Qed.

Lemma h_lookup_absent :
  forall props k, ~ In k (map fst props) -> h_lookup props k = HUndefined.
Proof.
  induction props as [| [k0 x0] props IH]; intros k H; cbn in *; [reflexivity |].
  destruct (String.eqb_spec k0 k) as [-> | Hne]; [exfalso; auto | apply IH; auto].
Qed.

(** Parsing what was written for an object: a property that held a value
    other than [undefined] reads back as that value written and parsed. *)
Lemma read_back_fold :
  forall props acc k,
    NoDup (map fst props) ->
    h_lookup (fold_left (parse_step of_json) (written_props to_json props) acc) k
    = match h_lookup props k with
      | HUndefined => h_lookup acc k
      | x => of_json (to_json x)
      end.
Proof.
  induction props as [| [k0 x0] props IH]; intros acc k Hnd; [reflexivity |].
  inversion Hnd as [| ? ? Hnotin Hnd']; subst.
  rewrite written_props_cons. cbn [h_lookup].
  destruct (String.eqb_spec k0 k) as [-> | Hne].
  - pose proof (h_lookup_absent props k Hnotin) as Habs.
    destruct x0; cbn [fold_left parse_step]; rewrite IH by assumption; rewrite Habs;
      try apply h_lookup_update_same; reflexivity.
  - destruct x0; cbn [fold_left parse_step]; rewrite IH by assumption;
      try rewrite (h_lookup_update_other acc k0 k _ Hne); reflexivity.
Qed.

Lemma read_back :
  forall props k,
    NoDup (map fst props) ->
    exists props',
      of_json (to_json (HObj props)) = HObj props'
      /\ h_lookup props' k = of_json (to_json (h_lookup props k)).
Proof.
  intros props k Hnd. rewrite to_json_object, of_json_object.
  eexists. split; [reflexivity |].
  rewrite read_back_fold by assumption. now destruct (h_lookup props k).
Qed.

(** ** The update *)

Section UpdateFacts.

Variable openTextDocument : string -> outcome document.
Variable json_parse : string -> outcome value.
Variable applyEdit : string -> value -> nat -> outcome bool.
Variable showTextDocument : string -> outcome unit.
Variable message_of : js_error -> string.

Lemma assign_engine_run :
  forall key s props ep updated t,
    h_lookup props "engines" = HObj ep ->
    assign_engine key s (HObj props, updated) t
    = (Ok (HObj (h_update props "engines" (HObj (set_engine key s ep))),
           updated || (truthy_string s && negb (up_to_date ep key s))), t).
Proof.
  intros key s props ep updated t He.
  assert (Hsame : HObj (h_update props "engines" (HObj ep)) = HObj props).
  { f_equal. apply h_update_unchanged; [assumption | discriminate]. }
  unfold assign_engine, set_engine, up_to_date.
  destruct (truthy_string s) eqn:Hs; cbn [negb orb andb].
  - unfold h_bind, h_lift. cbn [h_get]. rewrite He. cbn [h_get].
    destruct (differs_from (h_lookup ep key) (template s)) eqn:Hd; cbn [negb h_set h_ret].
    + now rewrite orb_true_r.
    + apply differs_from_false in Hd.
      rewrite (h_update_unchanged ep key (HStr (template s)) Hd) by discriminate.
      unfold h_ret. now rewrite Hsame, orb_false_r.
  - unfold h_ret. now rewrite Hsame, orb_false_r.
Qed.

Lemma assign_engine_silent :
  forall key s state t, snd (assign_engine key s state t) = t.
Proof.
  intros key s [pj updated] t. unfold assign_engine, h_bind, h_lift, h_ret.
  destruct (truthy_string s); [| reflexivity].
  destruct (h_get pj "engines") as [engines |]; [| reflexivity].
  destruct (h_get engines key) as [current |]; [| reflexivity].
  destruct (differs_from current (template s)); [| reflexivity].
  destruct (h_set engines key _); [| reflexivity].
  destruct (h_set pj "engines" _); reflexivity.
Qed.

(** The merge only computes: it leaves the log as it is. *)
Lemma merge_engines_silent :
  forall doc node npm t, snd (merge_engines json_parse doc node npm t) = t.
Proof.
  intros doc node npm t. unfold merge_engines, h_bind, h_lift.
  destruct (json_parse (doc_text doc)) as [parsed |]; [| reflexivity].
  destruct (h_get (of_json parsed) "engines") as [engines |]; [| reflexivity].
  assert (Hens : forall pj, snd (match assign_engine "node" node (pj, false) t with
                                 | (Ok a, t') => assign_engine "npm" npm a t'
                                 | (Throw e, t') => (Throw e, t')
                                 end) = t).
  { intros pj. pose proof (assign_engine_silent "node" node (pj, false) t) as H1.
    destruct (assign_engine "node" node (pj, false) t) as [[a |] t']; cbn in H1; subst t'.
    - apply assign_engine_silent.
    - reflexivity. }
  destruct (negb (h_truthy engines)).
  - destruct (h_set (of_json parsed) "engines" (HObj [])); [apply Hens | reflexivity].
  - unfold h_ret. apply Hens.
Qed.

(** The merge on a manifest that is an object whose [engines] is an object
    or falsy. *)
Lemma merge_engines_object :
  forall doc node npm parsed props t,
    json_parse (doc_text doc) = Ok parsed ->
    of_json parsed = HObj props ->
    engines_usable (h_lookup props "engines") = true ->
    let ep := engines_props (h_lookup props "engines") in
    merge_engines json_parse doc node npm t
    = (Ok (HObj (h_update props "engines"
                   (HObj (set_engine "npm" npm (set_engine "node" node ep)))),
           (truthy_string node && negb (up_to_date ep "node" node))
           || (truthy_string npm && negb (up_to_date ep "npm" npm))), t).
Proof.
  intros doc node npm parsed props t Hparse Hobj Huse ep.
  assert (Hnpm : up_to_date (set_engine "node" node ep) "npm" npm = up_to_date ep "npm" npm).
  { unfold set_engine. destruct (truthy_string node); [| reflexivity].
    apply up_to_date_other. discriminate. }
  assert (Hgo : forall props1,
             h_lookup props1 "engines" = HObj ep ->
             (forall x, h_update props1 "engines" x = h_update props "engines" x) ->
             (match assign_engine "node" node (HObj props1, false) t with
              | (Ok a, t') => assign_engine "npm" npm a t'
              | (Throw e, t') => (Throw e, t')
              end)
             = (Ok (HObj (h_update props "engines"
                            (HObj (set_engine "npm" npm (set_engine "node" node ep)))),
                    (truthy_string node && negb (up_to_date ep "node" node))
                    || (truthy_string npm && negb (up_to_date ep "npm" npm))), t)).
  { intros props1 H1 H2.
    rewrite (assign_engine_run "node" node props1 ep false t H1).
    rewrite (assign_engine_run "npm" npm _ (set_engine "node" node ep) _ t
               (h_lookup_update_same _ _ _)).
    rewrite h_update_update, H2, Hnpm. reflexivity. }
  assert (Hfresh : ep = [] ->
             (match assign_engine "node" node
                      (HObj (h_update props "engines" (HObj [])), false) t with
              | (Ok a, t') => assign_engine "npm" npm a t'
              | (Throw e, t') => (Throw e, t')
              end)
             = (Ok (HObj (h_update props "engines"
                            (HObj (set_engine "npm" npm (set_engine "node" node ep)))),
                    (truthy_string node && negb (up_to_date ep "node" node))
                    || (truthy_string npm && negb (up_to_date ep "npm" npm))), t)).
  { intros Hep. apply Hgo.
    - rewrite Hep. apply h_lookup_update_same.
    - intro x. apply h_update_update. }
  unfold merge_engines, h_bind, h_lift. rewrite Hparse, Hobj. cbn [h_get].
  subst ep.
  destruct (h_lookup props "engines") as [| | b | n | s | items named | eprops] eqn:He;
    cbn in Huse; try discriminate; cbn [h_truthy negb h_set engines_props] in *.
  - now apply Hfresh.
  - now apply Hfresh.
  - apply negb_true_iff in Huse. subst b. cbn [negb]. now apply Hfresh.
  - rewrite Huse. now apply Hfresh.
  - rewrite Huse. now apply Hfresh.
  - unfold h_ret. now apply Hgo.
Qed.


Lemma not_up_to_date :
  forall ep key s, truthy_string s && negb (up_to_date ep key s) = negb (up_to_date ep key s).
Proof.
  intros. unfold up_to_date. now destruct (truthy_string s).
Qed.

(** The whole run on a manifest that is an object whose [engines] is an
    object or falsy. *)
Lemma update_run_object :
  forall path node npm doc parsed props t,
    openTextDocument path = Ok doc ->
    json_parse (doc_text doc) = Ok parsed ->
    of_json parsed = HObj props ->
    engines_usable (h_lookup props "engines") = true ->
    let ep := engines_props (h_lookup props "engines") in
    let written :=
      HObj (h_update props "engines"
              (HObj (set_engine "npm" npm (set_engine "node" node ep)))) in
    updateVersionRanges openTextDocument json_parse applyEdit showTextDocument
      path node npm t
    = (Ok tt,
       t ++ OpenTextDocument path
         :: (if up_to_date ep "node" node && up_to_date ep "npm" npm
             then [ShowInformationMessage "package.json 'engines' are already up-to-date."]
             else edit_events applyEdit showTextDocument (doc_uri doc) (to_json written)
                    (detect_indent (doc_text doc)))).
Proof.
  intros path node npm doc parsed props t Hopen Hparse Hobj Huse ep written.
  unfold updateVersionRanges, h_try, open_document.
  unfold h_bind at 1. unfold h_bind at 1. unfold h_emit at 1, h_lift at 1.
  rewrite Hopen. unfold h_bind at 1.
  rewrite (merge_engines_object doc node npm parsed props _ Hparse Hobj Huse).
  fold ep. rewrite !not_up_to_date, <- negb_andb. cbn [snd fst].
  destruct (up_to_date ep "node" node && up_to_date ep "npm" npm); cbn [negb].
  - unfold h_emit. now rewrite <- app_assoc.
  - fold written. unfold write_document, show_document, edit_events, update_failure.
    unfold h_bind, h_emit, h_lift.
    destruct (applyEdit (doc_uri doc) (to_json written) (detect_indent (doc_text doc)))
      as [b | e].
    + destruct (showTextDocument (doc_uri doc)) as [[] | e];
        now rewrite <- !app_assoc.
    + now rewrite <- !app_assoc.
Qed.

(** X11: when the manifest is an object whose [engines] entry is an object or
    falsy, and a requested engine string differs from what the entry holds,
    [updateVersionRanges] asks the editor to replace the document by the
    manifest in which [engines] holds the requested strings; an engine for
    which nothing is requested, every other entry of [engines] and every other
    field of the manifest stay as they were.  When the editor accepts the
    call, whatever it answers, the success notice is shown and then the
    document; an edit or a showing that fails is logged and reported as a
    failure, the latter after the success notice. *)
Theorem update_writes_requested_engines :
  forall path node npm doc parsed props t,
    openTextDocument path = Ok doc ->
    json_parse (doc_text doc) = Ok parsed ->
    of_json parsed = HObj props ->
    engines_usable (h_lookup props "engines") = true ->
    let ep := engines_props (h_lookup props "engines") in
    up_to_date ep "node" node && up_to_date ep "npm" npm = false ->
    exists written ep',
      updateVersionRanges openTextDocument json_parse applyEdit showTextDocument
        path node npm t
      = (Ok tt,
         t ++ [OpenTextDocument path;
               ApplyEdit (doc_uri doc) (to_json written) (detect_indent (doc_text doc))]
           ++ match applyEdit (doc_uri doc) (to_json written)
                      (detect_indent (doc_text doc)) with
              | Throw e => update_failure e
              | Ok _ =>
                  [ShowInformationMessage
                     "package.json has been updated with new 'engines' settings.";
                   ShowTextDocument (doc_uri doc)]
                  ++ match showTextDocument (doc_uri doc) with
                     | Ok _ => []
                     | Throw e => update_failure e
                     end
              end)
      /\ h_get written "engines" = Ok (HObj ep')
      /\ (truthy_string node = true -> h_lookup ep' "node" = HStr (template node))
      /\ (truthy_string npm = true -> h_lookup ep' "npm" = HStr (template npm))
      /\ (truthy_string node = false -> h_lookup ep' "node" = h_lookup ep "node")
      /\ (truthy_string npm = false -> h_lookup ep' "npm" = h_lookup ep "npm")
      /\ (forall k, k <> "node" -> k <> "npm" -> h_lookup ep' k = h_lookup ep k)
      /\ (forall k, k <> "engines" -> h_get written k = h_get (of_json parsed) k).
Proof.
  intros path node npm doc parsed props t Hopen Hparse Hobj Huse ep Hch.
  exists (HObj (h_update props "engines"
                  (HObj (set_engine "npm" npm (set_engine "node" node ep))))),
         (set_engine "npm" npm (set_engine "node" node ep)).
  split.
  { rewrite (update_run_object path node npm doc parsed props t Hopen Hparse Hobj Huse).
    fold ep. rewrite Hch. unfold edit_events.
    destruct (applyEdit _ _ _) as [b | e]; [| reflexivity].
    destruct (showTextDocument _); reflexivity. }
  split; [cbn [h_get]; now rewrite h_lookup_update_same |].
  unfold set_engine.
  split; [| split; [| split; [| split; [| split]]]].
  - intros Hn. rewrite Hn. destruct (truthy_string npm).
    + rewrite h_lookup_update_other by discriminate. apply h_lookup_update_same.
    + apply h_lookup_update_same.
  - intros Hm. rewrite Hm. apply h_lookup_update_same.
  - intros Hn. rewrite Hn. destruct (truthy_string npm); [| reflexivity].
    now rewrite h_lookup_update_other by discriminate.
  - intros Hm. rewrite Hm. destruct (truthy_string node); [| reflexivity].
    now rewrite h_lookup_update_other by discriminate.
  - intros k Hk1 Hk2.
    destruct (truthy_string npm); [rewrite h_lookup_update_other by congruence |];
      (destruct (truthy_string node); [rewrite h_lookup_update_other by congruence |]);
      reflexivity.
  - intros k Hk. rewrite Hobj. cbn [h_get]. f_equal.
    apply h_lookup_update_other. congruence.
Qed.

(** X12: when every requested engine string is already what [engines] holds
    (in particular when nothing is requested), [updateVersionRanges] edits
    nothing: it opens the document and says that the engines are up to date,
    also when it had to create the [engines] object on its copy. *)
Theorem update_skips_when_up_to_date :
  forall path node npm doc parsed props t,
    openTextDocument path = Ok doc ->
    json_parse (doc_text doc) = Ok parsed ->
    of_json parsed = HObj props ->
    engines_usable (h_lookup props "engines") = true ->
    let ep := engines_props (h_lookup props "engines") in
    up_to_date ep "node" node && up_to_date ep "npm" npm = true ->
    updateVersionRanges openTextDocument json_parse applyEdit showTextDocument
      path node npm t
    = (Ok tt,
       t ++ [OpenTextDocument path;
             ShowInformationMessage "package.json 'engines' are already up-to-date."]).
Proof.
  intros path node npm doc parsed props t Hopen Hparse Hobj Huse ep Hup.
  rewrite (update_run_object path node npm doc parsed props t Hopen Hparse Hobj Huse).
  fold ep. now rewrite Hup.
Qed.


Lemma set_engine_nodup :
  forall key s props, NoDup (map fst props) -> NoDup (map fst (set_engine key s props)).
Proof.
  intros key s props H. unfold set_engine.
  destruct (truthy_string s); [now apply h_update_nodup | assumption].
Qed.

Lemma set_engine_up_to_date :
  forall key s props, up_to_date (set_engine key s props) key s = true.
Proof.
  intros key s props. unfold up_to_date, set_engine.
  destruct (truthy_string s); [| reflexivity]. cbn [negb orb].
  rewrite h_lookup_update_same. cbn. now rewrite String.eqb_refl.
Qed.

Lemma up_to_date_read_back :
  forall props props' key s,
    (forall k, h_lookup props' k = of_json (to_json (h_lookup props k))) ->
    up_to_date props key s = true -> up_to_date props' key s = true.
Proof.
  intros props props' key s Hrb. unfold up_to_date.
  destruct (truthy_string s); [| reflexivity]. cbn [negb orb].
  intros H. apply negb_true_iff, differs_from_false in H.
  rewrite Hrb, H. cbn. now rewrite String.eqb_refl.
Qed.

(** X13: an update is not repeated.  After [updateVersionRanges] has edited a
    manifest that is an object whose [engines] entry is an object or falsy, a
    second call with the same engine strings on a document holding what was
    written finds the engines up to date and edits nothing. *)
Theorem update_twice_edits_once :
  forall path node npm doc parsed props path' doc' uri content indent t,
    openTextDocument path = Ok doc ->
    json_parse (doc_text doc) = Ok parsed ->
    of_json parsed = HObj props ->
    engines_usable (h_lookup props "engines") = true ->
    In (ApplyEdit uri content indent)
       (snd (updateVersionRanges openTextDocument json_parse applyEdit showTextDocument
               path node npm [])) ->
    openTextDocument path' = Ok doc' ->
    json_parse (doc_text doc') = Ok content ->
    updateVersionRanges openTextDocument json_parse applyEdit showTextDocument
      path' node npm t
    = (Ok tt,
       t ++ [OpenTextDocument path';
             ShowInformationMessage "package.json 'engines' are already up-to-date."]).
Proof.
  intros path node npm doc parsed props path' doc' uri content indent t
         Hopen Hparse Hobj Huse Hin Hopen' Hparse'.
  rewrite (update_run_object path node npm doc parsed props [] Hopen Hparse Hobj Huse) in Hin.
  set (ep := engines_props (h_lookup props "engines")) in *.
  set (ep' := set_engine "npm" npm (set_engine "node" node ep)) in *.
  cbn [snd app] in Hin.
  destruct (up_to_date ep "node" node && up_to_date ep "npm" npm).
  { destruct Hin as [Hin | [Hin | []]]; discriminate. }
  assert (Hcontent : content = to_json (HObj (h_update props "engines" (HObj ep')))).
  { unfold edit_events, update_failure in Hin.
    destruct Hin as [Hin | [Hin | Hin]]; [discriminate | now injection Hin |].
    exfalso. destruct (applyEdit _ _ _) as [b | e].
    - destruct Hin as [Hin | [Hin | Hin]]; try discriminate.
      destruct (showTextDocument _) as [u | e]; [destruct Hin |].
      destruct Hin as [Hin | [Hin | []]]; discriminate.
    - destruct Hin as [Hin | [Hin | []]]; discriminate. }
  subst content.
  assert (Hnd : NoDup (map fst props)) by (eapply of_json_nodup; eauto).
  assert (Hnd0 : NoDup (map fst ep)).
  { subst ep. destruct (h_lookup props "engines") eqn:He; try constructor.
    eapply of_json_lookup_nodup; eauto. }
  assert (Hnd' : NoDup (map fst ep')) by (subst ep'; now do 2 apply set_engine_nodup).
  destruct (read_back (h_update props "engines" (HObj ep')) "engines"
              (h_update_nodup _ _ _ Hnd)) as (props2 & Hobj2 & Hen2).
  rewrite h_lookup_update_same in Hen2.
  rewrite to_json_object, of_json_object in Hen2.
  assert (Hup : forall key s, up_to_date ep' key s = true ->
                  up_to_date (engines_props (h_lookup props2 "engines")) key s = true).
  { intros key s. rewrite Hen2. cbn [engines_props].
    apply up_to_date_read_back. intro k.
    now rewrite read_back_fold by assumption; destruct (h_lookup ep' k). }
  rewrite (update_run_object path' node npm doc' _ props2 t Hopen' Hparse' Hobj2)
    by now rewrite Hen2.
  rewrite (Hup "node" node), (Hup "npm" npm); [reflexivity | |].
  - subst ep'. apply set_engine_up_to_date.
  - subst ep'. unfold set_engine at 1.
    destruct (truthy_string npm) eqn:Hm.
    + rewrite up_to_date_other by discriminate. apply set_engine_up_to_date.
    + apply set_engine_up_to_date.
Qed.


(** X14: what the answer of [PackageJsonService.updateEngines] tells.  It
    answers true only when the editor accepted the edit call and then showed
    the document; what the editor answered to the edit is not looked at, so
    true does not say that the document was replaced.  It answers false when
    it only opened the document.  When it throws, the error is a new one whose
    message starts with the failure notice, and either nothing was edited, or
    the edit call itself was rejected, or the edit call was accepted and
    showing the document was rejected afterwards. *)
Theorem updateEngines_answer_and_edits :
  forall path node npm t,
    match updateEngines openTextDocument json_parse applyEdit showTextDocument
            message_of path node npm t with
    | (Ok true, t') =>
        exists doc content b,
          openTextDocument path = Ok doc
          /\ applyEdit (doc_uri doc) content (detect_indent (doc_text doc)) = Ok b
          /\ showTextDocument (doc_uri doc) = Ok tt
          /\ t' = t ++ [OpenTextDocument path;
                        ApplyEdit (doc_uri doc) content (detect_indent (doc_text doc));
                        ShowTextDocument (doc_uri doc)]
    | (Ok false, t') => t' = t ++ [OpenTextDocument path]
    | (Throw e, t') =>
        exists cause,
          e = JsError ("Error: Failed to update package.json: " ++ message_of cause)%string
          /\ (t' = t ++ [OpenTextDocument path]
              \/ exists doc content,
                   openTextDocument path = Ok doc
                   /\ ((applyEdit (doc_uri doc) content (detect_indent (doc_text doc))
                        = Throw cause
                        /\ t' = t ++ [OpenTextDocument path;
                                      ApplyEdit (doc_uri doc) content
                                        (detect_indent (doc_text doc))])
                       \/ (exists b,
                             applyEdit (doc_uri doc) content (detect_indent (doc_text doc))
                             = Ok b
                             /\ showTextDocument (doc_uri doc) = Throw cause
                             /\ t' = t ++ [OpenTextDocument path;
                                           ApplyEdit (doc_uri doc) content
                                             (detect_indent (doc_text doc));
                                           ShowTextDocument (doc_uri doc)])))
    end.
Proof.
  intros path node npm t.
  unfold updateEngines, h_try, open_document.
  unfold h_bind at 1. unfold h_bind at 1. unfold h_emit at 1, h_lift at 1.
  destruct (openTextDocument path) as [doc | e] eqn:Hopen.
  - unfold h_bind at 1.
    pose proof (merge_engines_silent doc node npm (t ++ [OpenTextDocument path])) as Hs.
    destruct (merge_engines json_parse doc node npm (t ++ [OpenTextDocument path]))
      as [[[pj updated] | e] t'] eqn:Hm; cbn [snd] in Hs; subst t'; cbn [snd fst].
    + destruct updated; cbn [negb].
      * unfold write_document, show_document, h_bind, h_emit, h_lift, h_ret.
        destruct (applyEdit (doc_uri doc) (to_json pj) (detect_indent (doc_text doc)))
          as [b | e] eqn:Hedit.
        -- destruct (showTextDocument (doc_uri doc)) as [[] | e] eqn:Hshow;
             rewrite <- !app_assoc; cbn [app].
           ++ exists doc, (to_json pj), b. now repeat split.
           ++ exists e. split; [reflexivity |]. right. exists doc, (to_json pj).
              split; [reflexivity |]. right. exists b. now repeat split.
        -- rewrite <- !app_assoc; cbn [app].
           exists e. split; [reflexivity |]. right. exists doc, (to_json pj).
           split; [reflexivity |]. left. now split.
      * reflexivity.
    + unfold h_lift. exists e. split; [reflexivity | now left].
  - unfold h_lift. exists e. split; [reflexivity | now left].
Qed.

(** X15: [updateVersionRanges] never throws, whether opening the document,
    parsing, the edit or showing the document fail, each with an error
    object, or not, and applies at most one edit.  A call shows one
    message (the success notice, the up-to-date notice or the failure), except
    when showing the document is rejected after the edit: the success notice
    has been shown by then, and the failure message follows it. *)
Theorem update_never_throws_and_reports :
  forall path node npm t,
    exists evs,
      updateVersionRanges openTextDocument json_parse applyEdit showTextDocument
        path node npm t = (Ok tt, t ++ evs)
      /\ List.length (filter is_edit evs) <= 1
      /\ ((List.length (filter is_message evs) = 1
           /\ forall doc, openTextDocument path = Ok doc ->
                In (ShowTextDocument (doc_uri doc)) evs ->
                showTextDocument (doc_uri doc) = Ok tt)
          \/ exists doc e,
               openTextDocument path = Ok doc
               /\ In (ShowTextDocument (doc_uri doc)) evs
               /\ showTextDocument (doc_uri doc) = Throw e
               /\ filter is_message evs
                  = [ShowInformationMessage
                       "package.json has been updated with new 'engines' settings.";
                     Core (ShowErrorMessage
                             ("Failed to update package.json: " ++ error_text e)%string)]).
Proof.
  intros path node npm t.
  unfold updateVersionRanges, h_try, open_document.
  unfold h_bind at 1. unfold h_bind at 1. unfold h_emit at 1, h_lift at 1.
  destruct (openTextDocument path) as [doc | e] eqn:Hopen.
  - unfold h_bind at 1.
    pose proof (merge_engines_silent doc node npm (t ++ [OpenTextDocument path])) as Hs.
    destruct (merge_engines json_parse doc node npm (t ++ [OpenTextDocument path]))
      as [[[pj updated] | e] t'] eqn:Hm; cbn [snd] in Hs; subst t'; cbn [snd fst].
    + destruct updated.
      * unfold write_document, show_document, h_bind, h_emit, h_lift.
        destruct (applyEdit (doc_uri doc) (to_json pj) (detect_indent (doc_text doc)))
          as [b | e] eqn:Hedit.
        -- destruct (showTextDocument (doc_uri doc)) as [[] | e] eqn:Hshow;
             rewrite <- !app_assoc; cbn [app];
             (eexists; split; [reflexivity |]); (split; [cbn; lia |]).
           ++ left. split; [reflexivity |]. intros doc' Hd _.
              injection Hd as <-. assumption.
           ++ right. exists doc, e. repeat split; try assumption.
              cbn. auto.
        -- rewrite <- !app_assoc; cbn [app].
           eexists. split; [reflexivity |]. split; [cbn; lia |].
           left. split; [reflexivity |]. intros doc' _ Hin. exfalso.
           destruct Hin as [Hin | [Hin | [Hin | [Hin | []]]]]; discriminate.
      * unfold h_emit. rewrite <- !app_assoc. cbn [app].
        eexists. split; [reflexivity |]. split; [cbn; lia |].
        left. split; [reflexivity |]. intros doc' _ Hin. exfalso.
        destruct Hin as [Hin | [Hin | []]]; discriminate.
    + unfold h_bind, h_emit. rewrite <- !app_assoc. cbn [app].
      eexists. split; [reflexivity |]. split; [cbn; lia |].
      left. split; [reflexivity |]. intros doc' _ Hin. exfalso.
      destruct Hin as [Hin | [Hin | [Hin | []]]]; discriminate.
  - unfold h_bind, h_emit. rewrite <- !app_assoc. cbn [app].
    eexists. split; [reflexivity |]. split; [cbn; lia |].
    left. split; [reflexivity |]. intros doc' Hd. discriminate.
Qed.

(** X16: a manifest on which the engines cannot be set is never edited.  When
    the document parses to null or to a primitive, or when its [engines]
    entry is a truthy primitive and an engine string is requested, the
    assignment throws; [updateVersionRanges] logs the error and shows the
    failure message with its text. *)
Theorem update_rejects_unsettable_manifest :
  forall path node npm doc parsed t,
    openTextDocument path = Ok doc ->
    json_parse (doc_text doc) = Ok parsed ->
    null_or_primitive parsed = true
    \/ (exists props,
          of_json parsed = HObj props
          /\ truthy_primitive (h_lookup props "engines") = true
          /\ truthy_string node || truthy_string npm = true) ->
    exists e,
      updateVersionRanges openTextDocument json_parse applyEdit showTextDocument
        path node npm t
      = (Ok tt,
         t ++ [OpenTextDocument path;
               ConsoleErrorLog "Failed to update package.json:" e;
               Core (ShowErrorMessage
                       ("Failed to update package.json: " ++ error_text e)%string)]).
Proof.
  intros path node npm doc parsed t Hopen Hparse Hbad.
  assert (Hm : exists e, merge_engines json_parse doc node npm (t ++ [OpenTextDocument path])
                         = (Throw e, t ++ [OpenTextDocument path])).
  { unfold merge_engines, h_bind, h_lift. rewrite Hparse.
    destruct Hbad as [Hprim | (props & Hobj & Hen & Hreq)].
    - destruct parsed; try discriminate; cbn; eexists; reflexivity.
    - rewrite Hobj. cbn [h_get].
      assert (Htr : h_truthy (h_lookup props "engines") = true)
        by (destruct (h_lookup props "engines"); try discriminate; assumption).
      rewrite Htr. cbn [negb]. unfold h_ret, assign_engine, h_bind, h_lift, h_ret.
      cbn [h_get].
      destruct (h_lookup props "engines") as [| | b | n | s | |] eqn:He;
        try discriminate;
        (destruct (truthy_string node) eqn:Hn;
         [ cbn; eexists; reflexivity
         | cbn [orb] in Hreq; rewrite Hreq; cbn [h_get]; rewrite He; cbn;
           eexists; reflexivity ]). }
  destruct Hm as [e Hm]. exists e.
  unfold updateVersionRanges, h_try, open_document.
  unfold h_bind at 1. unfold h_bind at 1. unfold h_emit at 1, h_lift at 1.
  rewrite Hopen. unfold h_bind at 1. rewrite Hm.
  unfold h_bind, h_emit. now rewrite <- !app_assoc.
Qed.

End UpdateFacts.

(** ** Indentation *)

Lemma blanks_then_quote_run :
  forall blanks rest,
    blanks <> EmptyString ->
    all_chars is_js_space blanks = true ->
    blanks_then_quote (blanks ++ String "034"%char rest) = Some (String.length blanks).
Proof.
  induction blanks as [| c blanks IH]; intros rest Hne Hall; [congruence |].
  cbn [all_chars] in Hall. apply andb_true_iff in Hall as [Hc Hall].
  cbn [String.append blanks_then_quote String.length]. rewrite Hc.
  destruct blanks as [| c' blanks'].
  - cbn. reflexivity.
  - cbn [String.append].
    assert (Hq : (c' =? "034")%char = false).
    { cbn [all_chars] in Hall. apply andb_true_iff in Hall as [Hc' _].
      destruct (Ascii.eqb_spec c' "034"%char) as [-> | ]; [discriminate | reflexivity]. }
    rewrite Hq. change (String c' (blanks' ++ String "034"%char rest))
      with (String c' blanks' ++ String "034"%char rest)%string.
    rewrite IH by (assumption || discriminate). reflexivity.
Qed.

Lemma indent_match_inside_line :
  forall pre t rest,
    all_chars not_line_terminator pre = true ->
    is_line_terminator t = true ->
    indent_match false (pre ++ String t rest) = indent_match true rest.
Proof.
  induction pre as [| c pre IH]; intros t rest Hall Ht; cbn [String.append indent_match].
  - now rewrite Ht.
  - cbn [all_chars] in Hall. apply andb_true_iff in Hall as [Hc Hall].
    unfold not_line_terminator in Hc. apply negb_true_iff in Hc. rewrite Hc.
    now apply IH.
Qed.

Lemma line_terminator_is_space :
  forall c, is_line_terminator c = true -> is_js_space c = true.
Proof.
  intros c. unfold is_line_terminator, is_js_space.
  intros H. apply orb_true_iff in H as [H | H]; apply Nat.eqb_eq in H; rewrite H; reflexivity.
Qed.

(** The search skips a first line that starts with a character that is not
    blank. *)
Lemma indent_match_skips_first_line :
  forall c0 pre t rest,
    is_js_space c0 = false ->
    all_chars not_line_terminator pre = true ->
    is_line_terminator t = true ->
    indent_match true (String c0 pre ++ String t rest) = indent_match true rest.
Proof.
  intros c0 pre t rest Hc0 Hpre Ht.
  cbn [String.append indent_match blanks_then_quote]. rewrite Hc0.
  assert (Hl : is_line_terminator c0 = false).
  { destruct (is_line_terminator c0) eqn:E; [| reflexivity].
    apply line_terminator_is_space in E. congruence. }
  rewrite Hl. now apply indent_match_inside_line.
Qed.

Lemma indent_match_at_blank_run :
  forall blanks rest,
    blanks <> EmptyString ->
    all_chars is_js_space blanks = true ->
    indent_match true (blanks ++ String "034"%char rest) = Some (String.length blanks).
Proof.
  intros blanks rest Hne Hall.
  pose proof (blanks_then_quote_run blanks rest Hne Hall) as Hrun.
  destruct blanks as [| b blanks']; [congruence |].
  cbn [String.append indent_match].
  change (String b (blanks' ++ String "034"%char rest))
    with (String b blanks' ++ String "034"%char rest)%string.
  now rewrite Hrun.
Qed.

(** X17: the indentation [updateVersionRanges] and [updateEngines] rewrite a
    document with.  When the first line starts with a character that is not
    blank (the opening brace) and the line terminator that ends it is
    followed by a run of blank characters and a double quote, the indentation
    is the length of that run. *)
Theorem indent_is_blank_run_before_first_key :
  forall c0 pre t blanks rest,
    is_js_space c0 = false ->
    all_chars not_line_terminator pre = true ->
    is_line_terminator t = true ->
    blanks <> EmptyString ->
    all_chars is_js_space blanks = true ->
    detect_indent (String c0 pre ++ String t (blanks ++ String "034"%char rest))
    = String.length blanks.
Proof.
  intros c0 pre t blanks rest Hc0 Hpre Ht Hne Hall.
  unfold detect_indent.
  rewrite (indent_match_skips_first_line c0 pre t _ Hc0 Hpre Ht).
  now rewrite (indent_match_at_blank_run blanks rest Hne Hall).
Qed.

Lemma spaces_blank : forall n, all_chars is_js_space (spaces n) = true.
Proof. induction n; cbn; auto. Qed.

Lemma spaces_length : forall n, String.length (spaces n) = n.
Proof. induction n; cbn; auto. Qed.

(** X18: in a document whose lines end in a carriage return and a line feed,
    the line feed counts as indentation: a first key indented by [n] spaces
    gives the indentation [n + 1], and a key that is not indented at all gives
    1. *)
Theorem indent_counts_line_feed_after_carriage_return :
  forall c0 pre n rest,
    is_js_space c0 = false ->
    all_chars not_line_terminator pre = true ->
    detect_indent (String c0 pre
                     ++ String "013"%char
                          (String "010"%char (spaces n ++ String "034"%char rest)))
    = S n.
Proof.
  intros c0 pre n rest Hc0 Hpre.
  unfold detect_indent.
  rewrite (indent_match_skips_first_line c0 pre "013"%char _ Hc0 Hpre eq_refl).
  change (String "010"%char (spaces n ++ String "034"%char rest))
    with (String "010"%char (spaces n) ++ String "034"%char rest)%string.
  rewrite indent_match_at_blank_run.
  - cbn [String.length]. now rewrite spaces_length.
  - discriminate.
  - cbn [all_chars]. now rewrite spaces_blank.
Qed.

Lemma indent_match_no_blank :
  forall text b, all_chars not_js_space text = true -> indent_match b text = None.
Proof.
  induction text as [| c text IH]; intros b Hall; [reflexivity |].
  cbn [all_chars] in Hall. apply andb_true_iff in Hall as [Hc Hall].
  unfold not_js_space in Hc. apply negb_true_iff in Hc.
  cbn [indent_match blanks_then_quote]. rewrite Hc.
  destruct b; now apply IH.
Qed.

(** X19: a document without any blank character (a manifest on one line,
    without spaces) is rewritten with the default indentation of two. *)
Theorem indent_defaults_to_two :
  forall text, all_chars not_js_space text = true -> detect_indent text = 2.
Proof.
  intros text Hall. unfold detect_indent. now rewrite indent_match_no_blank.
Qed.

(** ** The command *)

Lemma update_extends_log :
  forall openTextDocument json_parse applyEdit showTextDocument path node npm t,
    exists evs,
      updateVersionRanges openTextDocument json_parse applyEdit showTextDocument
        path node npm t = (Ok tt, t ++ evs).
Proof.
  intros openTextDocument json_parse applyEdit showTextDocument path node npm t.
  unfold updateVersionRanges, h_try, open_document.
  unfold h_bind at 1. unfold h_bind at 1. unfold h_emit at 1, h_lift at 1.
  destruct (openTextDocument path) as [doc | e] eqn:Hopen.
  - unfold h_bind at 1.
    pose proof (merge_engines_silent json_parse doc node npm (t ++ [OpenTextDocument path]))
      as Hs.
    destruct (merge_engines json_parse doc node npm (t ++ [OpenTextDocument path]))
      as [[[pj updated] | e] t'] eqn:Hm; cbn [snd] in Hs; subst t'; cbn [snd fst].
    + destruct updated.
      * unfold write_document, show_document, h_bind, h_emit, h_lift.
        destruct (applyEdit _ _ _) as [b | e];
          [destruct (showTextDocument _) as [[] | e] |];
          rewrite <- !app_assoc; cbn [app]; eexists; reflexivity.
      * unfold h_emit. rewrite <- !app_assoc. cbn [app]. eexists. reflexivity.
    + unfold h_bind, h_emit. rewrite <- !app_assoc. cbn [app]. eexists. reflexivity.
  - unfold h_bind, h_emit. rewrite <- !app_assoc. cbn [app]. eexists. reflexivity.
Qed.

Lemma core_events_are_core :
  forall evs, forallb is_core (map Core evs) = true.
Proof. induction evs; cbn; auto. Qed.

Lemma strictly_equal_true :
  forall selection action, strictly_equal selection action = true -> selection = Some action.
Proof.
  intros [s |] action H; [| discriminate]. cbn in H.
  apply String.eqb_eq in H. now subst.
Qed.

Section CommandFacts.

Variable existsSync : string -> bool.
Variable readJsonSync : string -> outcome value.
Variable join : list string -> string.
Variable satisfies : string -> value -> outcome bool.
Variable nodeCatalog npmCatalog : list string.
Variable openTextDocument : string -> outcome document.
Variable json_parse : string -> outcome value.
Variable applyEdit : string -> value -> nat -> outcome bool.
Variable showTextDocument : string -> outcome unit.
Variable basename : string -> string.
Variable choose : string -> option string.

Let task : string -> H unit :=
  analyze_task existsSync readJsonSync join satisfies nodeCatalog npmCatalog
    openTextDocument json_parse applyEdit showTextDocument basename choose.

Let analyze : string -> M (option ProjectAnalysisResult) :=
  analyzeProjectIncludes existsSync readJsonSync join satisfies nodeCatalog npmCatalog.

(** The task, given what the analysis does on a fresh store. *)
Lemma task_after_analysis :
  forall projectPath t,
    task projectPath t
    = let start := t ++ [Core (ProgressReport 0 1 (Some "Reading project package.json..."))] in
      match analyze projectPath initial_store with
      | (Throw e, s) =>
          (Ok tt,
           start ++ map Core (trace s)
             ++ [ConsoleErrorLog "Error analyzing dependencies:" e;
                 Core (ShowErrorMessage
                         ("Error analyzing dependencies: " ++ error_text e)%string)])
      | (Ok None, s) => (Ok tt, start ++ map Core (trace s))
      | (Ok (Some result), s) =>
          let shown := start ++ map Core (trace s) in
          if strictly_equal (note result) "No dependencies to analyze." then
            (Ok tt,
             shown ++ [ShowInformationMessage
                         "No dependencies in project. Cannot determine support limits based on dependencies."])
          else
            let nodeEngineString := engine_string (minNode result) (maxNode result) in
            let npmEngineString := engine_string (minNpm result) (maxNpm result) in
            if truthy_string nodeEngineString then
              let message := recommendation basename projectPath nodeEngineString
                               npmEngineString in
              if strictly_equal (choose message) "Update package.json"
              then updateVersionRanges openTextDocument json_parse applyEdit
                     showTextDocument
                     (projectPackageJsonPath result) nodeEngineString npmEngineString
                     (shown ++ [ShowModalChoice message "Update package.json"])
              else (Ok tt, shown ++ [ShowModalChoice message "Update package.json"])
            else
              (Ok tt,
               shown ++ [Core (ShowErrorMessage
                                 "Could not determine a compatible Node.js version range for the project dependencies.")])
      end.
Proof.
  intros projectPath t. unfold task, analyze, analyze_task, h_try.
  unfold h_bind at 1. unfold h_emit at 1. unfold h_bind at 1. unfold h_run at 1.
  cbv zeta.
  destruct (analyzeProjectIncludes existsSync readJsonSync join satisfies nodeCatalog
              npmCatalog projectPath initial_store) as [[[result |] | e] s].
  - destruct (strictly_equal (note result) "No dependencies to analyze.").
    + reflexivity.
    + destruct (truthy_string (engine_string (minNode result) (maxNode result)));
        cbn [negb].
      * unfold h_bind at 1, h_emit at 1.
        destruct (strictly_equal (choose _) "Update package.json").
        -- match goal with
           | |- context [updateVersionRanges ?a ?b ?c ?d ?e ?f ?g ?l] =>
               destruct (update_extends_log a b c d e f g l) as [evs Hevs]
           end.
           rewrite Hevs. reflexivity.
        -- reflexivity.
      * unfold h_emit. reflexivity.
  - reflexivity.
  - unfold h_bind, h_emit. now rewrite <- !app_assoc.
Qed.


Let manifest_path (projectPath : string) : string := join [projectPath; "package.json"].

Let dep_metas (projectPath : string) (names : list string) :=
  map (fun d => metadata existsSync readJsonSync
                  (join [join [projectPath; "node_modules"]; d; "package.json"])) names.

Lemma core_events_leave_documents :
  forall evs, forallb leaves_documents (map Core evs) = true.
Proof. induction evs; cbn; auto. Qed.

(** X20: the command touches the manifest only after the user has consented.
    The task never throws.  Either none of its events opens, edits or shows a
    document, or it has put the modal question, no event before the question
    opens, edits or shows a document, and the user has picked the update
    button. *)
Theorem task_edits_only_after_consent :
  forall projectPath t,
    exists evs,
      task projectPath t = (Ok tt, t ++ evs)
      /\ (forallb leaves_documents evs = true
          \/ exists message before after,
               evs = before ++ ShowModalChoice message "Update package.json" :: after
               /\ forallb leaves_documents before = true
               /\ choose message = Some "Update package.json").
Proof.
  intros projectPath t. rewrite task_after_analysis. cbv zeta.
  destruct (analyze projectPath initial_store) as [[[result |] | e] s].
  - destruct (strictly_equal (note result) "No dependencies to analyze.").
    { eexists. split; [rewrite <- !app_assoc; reflexivity |]. left.
      cbn [app forallb]. rewrite forallb_app, core_events_leave_documents. reflexivity. }
    destruct (truthy_string (engine_string (minNode result) (maxNode result))).
    + destruct (strictly_equal (choose _) "Update package.json") eqn:Hc.
      * match goal with
        | |- context [updateVersionRanges ?a ?b ?c ?d ?e ?f ?g ?l] =>
            destruct (update_extends_log a b c d e f g l) as [evs Hevs]
        end.
        rewrite Hevs. eexists. split; [rewrite <- !app_assoc; reflexivity |].
        right. eexists _, (_ :: map Core (trace s)), evs.
        split; [cbn [app]; rewrite <- ?app_assoc; reflexivity |].
        split; [| apply strictly_equal_true; exact Hc].
        cbn [forallb]. now rewrite core_events_leave_documents.
      * eexists. split; [rewrite <- !app_assoc; reflexivity |]. left.
        cbn [app forallb]. rewrite forallb_app, core_events_leave_documents. reflexivity.
    + eexists. split; [rewrite <- !app_assoc; reflexivity |]. left.
      cbn [app forallb]. rewrite forallb_app, core_events_leave_documents. reflexivity.
  - eexists. split; [rewrite <- !app_assoc; reflexivity |]. left.
    cbn [app forallb]. now rewrite core_events_leave_documents.
  - eexists. split; [rewrite <- !app_assoc; reflexivity |]. left.
    cbn [app forallb]. rewrite forallb_app, core_events_leave_documents. reflexivity.
Qed.

(** X21: the error the analysis throws on a manifest whose text is the
    literal [null] does not escape the command: the task logs it and shows it
    as an analysis error, after the first progress report and the two
    accesses to the manifest. *)
Theorem task_contains_analysis_failure :
  forall projectPath manifest t,
    existsSync (manifest_path projectPath) = true ->
    readJsonSync (manifest_path projectPath) = Ok manifest ->
    manifest = VNull \/ manifest = VUndefined ->
    exists e,
      task projectPath t
      = (Ok tt,
         t ++ [Core (ProgressReport 0 1 (Some "Reading project package.json..."));
               Core (FsExists (manifest_path projectPath));
               Core (FsRead (manifest_path projectPath));
               ConsoleErrorLog "Error analyzing dependencies:" e;
               Core (ShowErrorMessage
                       ("Error analyzing dependencies: " ++ error_text e)%string)]).
Proof.
  intros projectPath manifest t Hx Hr Hm.
  destruct (analyze_null_manifest existsSync readJsonSync join satisfies nodeCatalog
              npmCatalog projectPath manifest initial_store Hx Hr Hm) as [e He].
  exists e. rewrite task_after_analysis. cbv zeta. unfold analyze. rewrite He.
  cbn [log trace initial_store app map]. now rewrite <- app_assoc.
Qed.

(** X22: what the command recommends is what the analysis resolved.  When the
    runtime range of the collected constraints is [a .. b], the task asks with
    the recommendation for the inclusive range from [a] to [b], which is the
    text [formatVersionRange] gives for the two bounds; if the user picks the
    update button, it goes on as [updateVersionRanges] on the manifest the
    analysis read, with that text and the package-manager text; otherwise it
    ends there.  Until the question, it only reports events of the
    analysis. *)
Theorem task_recommends_resolved_range :
  forall projectPath manifest names a b t,
    existsSync (manifest_path projectPath) = true ->
    readJsonSync (manifest_path projectPath) = Ok manifest ->
    dependency_names manifest = Ok names ->
    names <> [] ->
    let constraints := collected (dep_metas projectPath names) in
    node_range satisfies nodeCatalog (fst constraints) true = (VStr a, VStr b) ->
    a <> EmptyString -> b <> EmptyString ->
    let nodeEngineString := Some (">=" ++ a ++ " <=" ++ b)%string in
    let npmEngineString :=
      engine_string (fst (npm_range satisfies npmCatalog (snd constraints)))
        (snd (npm_range satisfies npmCatalog (snd constraints))) in
    let message := recommendation basename projectPath nodeEngineString npmEngineString in
    formatVersionRange (Some a) (Some b) = nodeEngineString
    /\ exists evs,
         forallb is_core evs = true
         /\ task projectPath t
            = if strictly_equal (choose message) "Update package.json"
              then updateVersionRanges openTextDocument json_parse applyEdit
                     showTextDocument
                     (manifest_path projectPath) nodeEngineString npmEngineString
                     (t ++ evs ++ [ShowModalChoice message "Update package.json"])
              else (Ok tt, t ++ evs ++ [ShowModalChoice message "Update package.json"]).
Proof.
  intros projectPath manifest names a b t Hx Hr Hn Hne constraints Hrange Ha Hb
         nodeEngineString npmEngineString message.
  split; [exact (formatVersionRange_both a b Ha Hb) |].
  destruct (analyze_with_dependencies existsSync readJsonSync join satisfies nodeCatalog
              npmCatalog projectPath manifest names initial_store Hx Hr Hn Hne)
    as [evs He].
  exists (Core (ProgressReport 0 1 (Some "Reading project package.json...")) :: map Core evs).
  split; [cbn [forallb is_core andb]; apply core_events_are_core |].
  rewrite task_after_analysis. cbv zeta. unfold analyze. rewrite He.
  fold (dep_metas projectPath names). fold constraints. rewrite Hrange.
  cbn [note strictly_equal minNode maxNode minNpm maxNpm projectPackageJsonPath fst snd
       trace initial_store app].
  assert (Hes : engine_string (VStr a) (VStr b) = nodeEngineString).
  { unfold engine_string. cbn [truthy to_string].
    destruct (String.eqb_spec a ""); [contradiction |].
    destruct (String.eqb_spec b ""); [contradiction |]. reflexivity. }
  rewrite Hes. fold npmEngineString. fold message.
  assert (Ht : truthy_string nodeEngineString = true) by reflexivity.
  rewrite Ht. rewrite <- !app_assoc. reflexivity.
Qed.

(** X23: when no version of the runtime catalog satisfies all the collected
    constraints, the command offers nothing: the task ends with the message
    that no compatible range could be determined, having reported only events
    of the analysis before it. *)
Theorem task_reports_unsatisfiable_constraints :
  forall projectPath manifest names t,
    existsSync (manifest_path projectPath) = true ->
    readJsonSync (manifest_path projectPath) = Ok manifest ->
    dependency_names manifest = Ok names ->
    names <> [] ->
    satisfying_sublist satisfies nodeCatalog
      (fst (collected (dep_metas projectPath names))) = [] ->
    exists evs,
      forallb is_core evs = true
      /\ task projectPath t
         = (Ok tt,
            t ++ evs
              ++ [Core (ShowErrorMessage
                          "Could not determine a compatible Node.js version range for the project dependencies.")]).
Proof.
  intros projectPath manifest names t Hx Hr Hn Hne Hnone.
  destruct (analyze_with_dependencies existsSync readJsonSync join satisfies nodeCatalog
              npmCatalog projectPath manifest names initial_store Hx Hr Hn Hne)
    as [evs He].
  exists (Core (ProgressReport 0 1 (Some "Reading project package.json...")) :: map Core evs).
  split; [cbn [forallb is_core andb]; apply core_events_are_core |].
  rewrite task_after_analysis. cbv zeta. unfold analyze. rewrite He.
  fold (dep_metas projectPath names).
  assert (Hrange : engine_string
                     (fst (node_range satisfies nodeCatalog
                             (fst (collected (dep_metas projectPath names))) true))
                     (snd (node_range satisfies nodeCatalog
                             (fst (collected (dep_metas projectPath names))) true))
                   = None).
  { unfold node_range.
    destruct (fst (collected (dep_metas projectPath names))) as [| c cs].
    - unfold satisfying_sublist in Hnone. cbn [forallb] in Hnone.
      rewrite filter_all in Hnone by reflexivity. now rewrite Hnone.
    - now rewrite Hnone. }
  cbn [note strictly_equal minNode maxNode minNpm maxNpm projectPackageJsonPath fst snd
       trace initial_store app].
  rewrite Hrange. cbn [truthy_string]. now rewrite <- !app_assoc.
Qed.

(** X24: on a project without dependencies the command says so and does
    nothing else: the first progress report, the two accesses to the
    manifest and the information message. *)
Theorem task_without_dependencies :
  forall projectPath manifest t,
    existsSync (manifest_path projectPath) = true ->
    readJsonSync (manifest_path projectPath) = Ok manifest ->
    dependency_names manifest = Ok [] ->
    task projectPath t
    = (Ok tt,
       t ++ [Core (ProgressReport 0 1 (Some "Reading project package.json..."));
             Core (FsExists (manifest_path projectPath));
             Core (FsRead (manifest_path projectPath));
             ShowInformationMessage
               "No dependencies in project. Cannot determine support limits based on dependencies."]).
Proof.
  intros projectPath manifest t Hx Hr Hn.
  rewrite task_after_analysis. cbv zeta. unfold analyze.
  rewrite (analyze_no_dependencies existsSync readJsonSync join satisfies nodeCatalog
             npmCatalog projectPath manifest initial_store Hx Hr Hn).
  cbn [note strictly_equal String.eqb Ascii.eqb Bool.eqb log trace initial_store app map].
  now rewrite <- !app_assoc.
Qed.

End CommandFacts.

(** ** The hover provider *)

Lemma lineAt_nth :
  forall lines n, n < List.length lines -> lineAt lines n = Ok (nth n lines EmptyString).
Proof.
  intros lines n H. unfold lineAt.
  destruct (nth_error lines n) eqn:E.
  - now rewrite (nth_error_nth lines n EmptyString E).
  - apply nth_error_None in E. lia.
Qed.

(** What the scan from line [n] upwards answers, for a position on line
    [positionLine]. *)
Lemma scan_up_spec :
  forall lines positionLine n,
    n < List.length lines ->
    exists b,
      scan_up lines positionLine n = Ok b
      /\ (b = true <->
          exists i,
            i <= n
            /\ names_dependency_block (nth i lines EmptyString) = true
            /\ forall j, i < j <= n -> j <> positionLine ->
                         starts_object (nth j lines EmptyString) = false).
Proof.
  intros lines positionLine n. induction n as [| m IH]; intros Hn.
  - cbn [scan_up]. rewrite (lineAt_nth lines 0 Hn).
    destruct (names_dependency_block (nth 0 lines EmptyString)) eqn:Hk.
    + exists true. split; [reflexivity |]. split; [| reflexivity].
      intros _. exists 0. split; [lia |]. split; [assumption |]. intros j Hj. lia.
    + exists false. split; [now destruct (_ && _) |]. split; [discriminate |].
      intros (i & Hi & Hki & _). assert (i = 0) by lia. subst i. congruence.
  - cbn [scan_up]. rewrite (lineAt_nth lines (S m) Hn).
    destruct (names_dependency_block (nth (S m) lines EmptyString)) eqn:Hk.
    + exists true. split; [reflexivity |]. split; [| reflexivity].
      intros _. exists (S m). split; [lia |]. split; [assumption |]. intros j Hj. lia.
    + destruct (starts_object (nth (S m) lines EmptyString)
                && negb (S m =? positionLine)%nat) eqn:Hb.
      * exists false. split; [reflexivity |]. split; [discriminate |].
        intros (i & Hi & Hki & Hbetween).
        apply andb_true_iff in Hb as [Hs Hp].
        apply negb_true_iff, Nat.eqb_neq in Hp.
        assert (i <> S m) by (intros ->; congruence).
        rewrite (Hbetween (S m)) in Hs by (lia || assumption). discriminate.
      * destruct IH as (b & Hrun & Hspec); [lia |].
        exists b. split; [assumption |]. rewrite Hspec. split.
        -- intros (i & Hi & Hki & Hbetween). exists i.
           split; [lia |]. split; [assumption |].
           intros j Hj Hjp. destruct (Nat.eq_dec j (S m)) as [-> | Hne].
           ++ apply andb_false_iff in Hb as [Hs | Hp]; [assumption |].
              apply negb_false_iff, Nat.eqb_eq in Hp. contradiction.
           ++ apply Hbetween; [lia | assumption].
        -- intros (i & Hi & Hki & Hbetween).
           assert (i <> S m) by (intros ->; congruence).
           exists i. split; [lia |]. split; [assumption |].
           intros j Hj Hjp. apply Hbetween; [lia | assumption].
Qed.

(** X25: when the hover is given.  For a position on a line of the document,
    [provideHover] does not throw, and it answers a hover exactly when the
    editor finds a key-value pair at the position and some line at or above
    the position names a dependency block while no line strictly between that
    line and the line of the position starts with an opening brace; the line
    of the position itself and the line that names the block may start with
    one.  The hover is the trusted fixed text over the range the editor
    found. *)
Theorem hover_given_iff_dependency_key_above :
  forall getWordRangeAtPosition lines pos,
    line pos < List.length lines ->
    exists result,
      provideHover getWordRangeAtPosition lines pos = Ok result
      /\ (result <> None <->
          getWordRangeAtPosition pos <> None
          /\ exists i,
               i <= line pos
               /\ names_dependency_block (nth i lines EmptyString) = true
               /\ forall j, i < j < line pos ->
                            starts_object (nth j lines EmptyString) = false)
      /\ forall h,
           result = Some h ->
           getWordRangeAtPosition pos = Some (hover_range h)
           /\ contents h = "Analyze Node/NPM Support Limits for project"
           /\ isTrusted h = true.
Proof.
  intros getWord lines pos Hline. unfold provideHover.
  destruct (scan_up_spec lines (line pos) (line pos) Hline) as (b & Hrun & Hspec).
  assert (Hspec' : b = true <->
                   exists i,
                     i <= line pos
                     /\ names_dependency_block (nth i lines EmptyString) = true
                     /\ forall j, i < j < line pos ->
                                  starts_object (nth j lines EmptyString) = false).
  { rewrite Hspec. split; intros (i & Hi & Hk & Hbetween); exists i;
      (split; [assumption |]); (split; [assumption |]); intros j Hj.
    - apply Hbetween; lia.
    - intros Hne. apply Hbetween. lia. }
  destruct (getWord pos) as [r |].
  - rewrite Hrun. destruct b.
    + eexists. split; [reflexivity |]. split.
      * split; [intros _ | discriminate]. split; [discriminate | now apply Hspec'].
      * intros h Hh. injection Hh as <-. now cbn.
    + exists None. split; [reflexivity |]. split.
      * split; [congruence |]. intros [_ Hex]. apply Hspec' in Hex. discriminate.
      * discriminate.
  - exists None. split; [reflexivity |]. split.
    + split; [congruence |]. intros [H _]. congruence.
    + discriminate.
Qed.

(** ** The services *)

Lemma h_logs_ret {A} (a : A) : h_logs (h_ret a) a.
Proof. intros t. exists []. unfold h_ret. now rewrite app_nil_r. Qed.

Lemma h_logs_emit (ev : host_event) : h_logs (h_emit ev) tt.
Proof. intros t. exists [ev]. reflexivity. Qed.

Lemma h_logs_bind {A B} (m : H A) (f : A -> H B) (a : A) (b : B) :
  h_logs m a -> h_logs (f a) b -> h_logs (h_bind m f) b.
Proof.
  intros Hm Hf t. destruct (Hm t) as [e1 H1]. destruct (Hf (t ++ e1)) as [e2 H2].
  exists (e1 ++ e2). unfold h_bind. now rewrite H1, H2, app_assoc.
Qed.

Lemma h_every_logs {A} (f : A -> H bool) (g : A -> bool) (l : list A) :
  (forall x, h_logs (f x) (g x)) -> h_logs (h_every f l) (forallb g l).
Proof.
  intros Hf. induction l as [| x l IH]; cbn [h_every forallb].
  - apply h_logs_ret.
  - eapply h_logs_bind; [apply Hf |].
    destruct (g x); [exact IH | apply h_logs_ret].
Qed.

Lemma h_filter_logs {A} (f : A -> H bool) (g : A -> bool) (l : list A) :
  (forall x, h_logs (f x) (g x)) -> h_logs (h_filter f l) (filter g l).
Proof.
  intros Hf. induction l as [| x l IH]; cbn [h_filter filter].
  - apply h_logs_ret.
  - eapply h_logs_bind; [apply Hf |].
    eapply h_logs_bind; [apply IH |].
    destruct (g x); apply h_logs_ret.
Qed.

(** *** Copying the properties of an object *)

Lemma set_prop_keys :
  forall props k v k', In k' (map fst (set_prop props k v)) <-> k' = k \/ In k' (map fst props).
Proof.
  induction props as [| [k0 v0] props IH]; intros k v k'; cbn.
  - intuition.
  - destruct (k0 =? k) eqn:E; cbn.
    + apply String.eqb_eq in E. subst k0. intuition.
    + rewrite IH. intuition.
Qed.

Lemma set_prop_nodup :
  forall props k v, NoDup (map fst props) -> NoDup (map fst (set_prop props k v)).
Proof.
  induction props as [| [k0 v0] props IH]; intros k v Hnd; cbn.
  - constructor; [intros [] | constructor].
  - inversion Hnd as [| ? ? Hnotin Hnd']; subst.
    destruct (k0 =? k) eqn:E; cbn.
    + now constructor.
    + constructor; [| now apply IH].
      rewrite set_prop_keys. intros [-> | Hin]; [| contradiction].
      now rewrite String.eqb_refl in E.
Qed.

Lemma set_prop_fresh :
  forall props k v, ~ In k (map fst props) -> set_prop props k v = props ++ [(k, v)].
Proof.
  induction props as [| [k0 v0] props IH]; intros k v Hk; cbn in *; [reflexivity |].
  destruct (String.eqb_spec k0 k) as [-> | Hne]; [exfalso; auto |].
  f_equal. apply IH. auto.
Qed.

Lemma fold_set_prop_nodup :
  forall l acc,
    NoDup (map fst acc) ->
    NoDup (map fst (fold_left (fun acc kv => set_prop acc (fst kv) (snd kv)) l acc)).
Proof.
  induction l as [| [k v] l IH]; intros acc Hnd; cbn; [assumption |].
  apply IH. now apply set_prop_nodup.
Qed.

(** Setting fresh, pairwise different keys one after the other appends them. *)
Lemma fold_set_prop_append :
  forall l acc,
    NoDup (map fst l) ->
    (forall k, In k (map fst l) -> ~ In k (map fst acc)) ->
    fold_left (fun acc kv => set_prop acc (fst kv) (snd kv)) l acc = acc ++ l.
Proof.
  induction l as [| [k v] l IH]; intros acc Hnd Hfresh; cbn [fold_left fst snd].
  - now rewrite app_nil_r.
  - inversion Hnd as [| ? ? Hnotin Hnd']; subst.
    rewrite set_prop_fresh by (apply Hfresh; now left).
    rewrite IH; [now rewrite <- app_assoc | assumption |].
    intros k' Hk' Hin. rewrite map_app in Hin. apply in_app_or in Hin as [Hin | Hin].
    + apply (Hfresh k'); [now right | assumption].
    + cbn in Hin. destruct Hin as [<- | []]. contradiction.
Qed.

Lemma string_of_nat_injective :
  forall n m, string_of_nat n = string_of_nat m -> n = m.
Proof.
  intros n m H. unfold string_of_nat in H.
  assert (Hnil : forall k, Nat.to_uint k <> Decimal.Nil).
  { intros k Hk. pose proof (DecimalNat.Unsigned.of_to k) as Hof.
    rewrite Hk in Hof. cbn in Hof. subst k. discriminate. }
  assert (Hu : Nat.to_uint n = Nat.to_uint m).
  { pose proof (NilZero.usu (Nat.to_uint n) (Hnil n)) as Hn.
    pose proof (NilZero.usu (Nat.to_uint m) (Hnil m)) as Hm.
    rewrite H in Hn. congruence. }
  rewrite <- (DecimalNat.Unsigned.of_to n), <- (DecimalNat.Unsigned.of_to m).
  now rewrite Hu.
Qed.

Lemma items_from_keys :
  forall items i, map fst (items_from i items) = map string_of_nat (seq i (List.length items)).
Proof.
  induction items as [| v items IH]; intros i; cbn; [reflexivity |]. now rewrite IH.
Qed.

Lemma chars_from_keys :
  forall s i, map fst (chars_from i s) = map string_of_nat (seq i (String.length s)).
Proof.
  induction s as [| c s IH]; intros i; cbn; [reflexivity |]. now rewrite IH.
Qed.

Lemma numeral_keys_nodup :
  forall i n, NoDup (map string_of_nat (seq i n)).
Proof.
  intros i n. apply Injective_map_NoDup.
  - intros a b. apply string_of_nat_injective.
  - apply seq_NoDup.
Qed.

(** The own properties of a value never repeat a key. *)
Lemma own_props_nodup :
  forall v, NoDup (map fst (own_props v)).
Proof.
  intros v. destruct v; cbn [own_props]; try constructor.
  - rewrite chars_from_keys. apply numeral_keys_nodup.
  - rewrite items_from_keys. apply numeral_keys_nodup.
  - apply fold_set_prop_nodup. constructor.
Qed.

(** Without a property [__proto__] in the source, [Object.assign] sets the
    own properties one after the other. *)
Lemma assign_properties_plain :
  forall l target,
    DependencyAnalyzerService.has_key l "__proto__" = false ->
    fold_left DependencyAnalyzerService.assign_property l target
    = DependencyAnalyzerService.mkTarget
        (fold_left (fun acc kv => set_prop acc (fst kv) (snd kv)) l
           (DependencyAnalyzerService.own target))
        (DependencyAnalyzerService.proto_shadowed target).
Proof.
  induction l as [| [k v] l IH]; intros target Hl; cbn [fold_left].
  - now destruct target.
  - cbn [DependencyAnalyzerService.has_key existsb fst] in Hl.
    apply orb_false_iff in Hl as [Hk Hl].
    unfold DependencyAnalyzerService.assign_property at 2. rewrite Hk. cbn [andb].
    rewrite IH by exact Hl. reflexivity.
Qed.

Lemma assign_plain :
  forall target v,
    plain_keys v = true ->
    DependencyAnalyzerService.assign target v
    = DependencyAnalyzerService.mkTarget
        (fold_left (fun acc kv => set_prop acc (fst kv) (snd kv)) (own_props v)
           (DependencyAnalyzerService.own target))
        (DependencyAnalyzerService.proto_shadowed target).
Proof.
  intros target v Hv. unfold DependencyAnalyzerService.assign.
  apply assign_properties_plain. unfold plain_keys in Hv.
  now apply negb_true_iff in Hv.
Qed.

(** Setting the own properties of a value on a fresh object copies them. *)
Lemma own_props_copied :
  forall v, fold_left (fun acc kv => set_prop acc (fst kv) (snd kv)) (own_props v) []
            = own_props v.
Proof.
  intros v.
  rewrite fold_set_prop_append; [reflexivity | apply own_props_nodup |].
  intros k _ [].
Qed.

(** Without a property [__proto__] in the two entries, the dependencies of the
    service are those of the spread. *)
Lemma collectDependencies_plain packageJson deps devDeps :
  get_prop packageJson "dependencies" = Ok deps ->
  get_prop packageJson "devDependencies" = Ok devDeps ->
  plain_keys deps = true ->
  plain_keys devDeps = true ->
  DependencyAnalyzerService.collectDependencies packageJson
    DependencyAnalyzerService.default_options
  = Ok (spread2 (or_empty deps) (or_empty devDeps)).
Proof.
  intros Hd Hdd Hp Hpd.
  unfold DependencyAnalyzerService.collectDependencies,
    DependencyAnalyzerService.assign_if, DependencyAnalyzerService.default_options.
  cbn [DependencyAnalyzerService.includeDev DependencyAnalyzerService.includePeer
       DependencyAnalyzerService.includeOptional].
  rewrite Hd, Hdd. f_equal.
  unfold spread2, or_empty.
  destruct (truthy deps), (truthy devDeps);
    rewrite ?(assign_plain _ deps Hp), ?(assign_plain _ devDeps Hpd);
    cbn [DependencyAnalyzerService.own DependencyAnalyzerService.empty_target own_props
         fold_left];
    rewrite ?own_props_copied; reflexivity.
Qed.

(** On a manifest that is not null or undefined the service collects some
    dependencies. *)
Lemma collectDependencies_defined packageJson :
  truthy packageJson = true ->
  exists dependencies deps devDeps,
    DependencyAnalyzerService.collectDependencies packageJson
      DependencyAnalyzerService.default_options = Ok dependencies
    /\ get_prop packageJson "dependencies" = Ok deps
    /\ get_prop packageJson "devDependencies" = Ok devDeps.
Proof.
  intros Ht.
  destruct (truthy_get_prop packageJson "dependencies" Ht) as [deps Hd].
  destruct (truthy_get_prop packageJson "devDependencies" Ht) as [devDeps Hdd].
  unfold DependencyAnalyzerService.collectDependencies,
    DependencyAnalyzerService.assign_if, DependencyAnalyzerService.default_options.
  cbn [DependencyAnalyzerService.includeDev DependencyAnalyzerService.includePeer
       DependencyAnalyzerService.includeOptional].
  rewrite Hd, Hdd. eexists _, deps, devDeps. repeat split.
Qed.

Section ServiceFacts.

Variable existsSync : string -> bool.
Variable readJsonSync : string -> outcome value.
Variable join : list string -> string.
Variable message_of : js_error -> string.
Variable satisfies : string -> value -> outcome bool.
Variable nodeCatalog npmCatalog : list string.

Lemma test_requirement_logs kind version rangeStr :
  h_logs (DependencyAnalyzerService.test_requirement satisfies kind version rangeStr)
         (holds satisfies version rangeStr).
Proof.
  intros t. unfold DependencyAnalyzerService.test_requirement, h_try, h_lift, holds.
  destruct (satisfies version rangeStr) as [b | e].
  - exists []. now rewrite app_nil_r.
  - eexists. unfold h_bind, h_emit, h_ret. reflexivity.
Qed.

Lemma compatibleVersions_logs kind catalog ranges :
  h_logs (DependencyAnalyzerService.compatibleVersions satisfies kind catalog ranges)
         (satisfying_sublist satisfies catalog ranges).
Proof.
  unfold DependencyAnalyzerService.compatibleVersions, satisfying_sublist.
  apply h_filter_logs. intros v. apply h_every_logs. intros r.
  apply test_requirement_logs.
Qed.

Lemma service_node_range_logs ranges hasDependencies :
  h_logs (DependencyAnalyzerService.calculateNodeRange satisfies nodeCatalog ranges
            hasDependencies)
         (node_range satisfies nodeCatalog ranges hasDependencies).
Proof.
  unfold DependencyAnalyzerService.calculateNodeRange, node_range.
  destruct ranges as [| r ranges].
  - cbn. destruct hasDependencies; apply h_logs_ret.
  - change (0 <? List.length (r :: ranges))%nat with true. cbv iota.
    eapply h_logs_bind; [apply compatibleVersions_logs |].
    rewrite <- picked_first_last.
    destruct (0 <? List.length (satisfying_sublist satisfies nodeCatalog (r :: ranges)))%nat;
      apply h_logs_ret.
Qed.

Lemma service_npm_range_logs ranges :
  h_logs (DependencyAnalyzerService.calculateNpmRange satisfies npmCatalog ranges)
         (npm_range satisfies npmCatalog ranges).
Proof.
  unfold DependencyAnalyzerService.calculateNpmRange, npm_range.
  destruct ranges as [| r ranges].
  - cbn. apply h_logs_ret.
  - change (0 <? List.length (r :: ranges))%nat with true. cbv iota.
    eapply h_logs_bind; [apply compatibleVersions_logs |].
    rewrite <- picked_first_last.
    destruct (0 <? List.length (satisfying_sublist satisfies npmCatalog (r :: ranges)))%nat;
      apply h_logs_ret.
Qed.

Lemma readPackageJson_run filePath t :
  PackageJsonService.readPackageJson existsSync readJsonSync message_of filePath t
  = match metadata existsSync readJsonSync filePath with
    | None => (Ok VNull, t ++ [Core (FsExists filePath)])
    | Some (Ok v) => (Ok v, t ++ [Core (FsExists filePath); Core (FsRead filePath)])
    | Some (Throw e) =>
        (Throw (JsError ("Error: Error parsing " ++ filePath ++ ": " ++ message_of e)%string),
         t ++ [Core (FsExists filePath); Core (FsRead filePath)])
    end.
Proof.
  unfold PackageJsonService.readPackageJson, metadata, h_bind, h_emit, h_try, h_lift, h_ret.
  destruct (existsSync filePath); cbn [negb]; [| reflexivity].
  rewrite <- app_assoc. cbn [app].
  destruct (readJsonSync filePath); reflexivity.
Qed.


Let service_dep_path (projectPath d : string) : string :=
  join [projectPath; "node_modules"; d; "package.json"].

Let service_metas (projectPath : string) (names : list string) :=
  map (fun d => metadata existsSync readJsonSync (service_dep_path projectPath d)) names.

Lemma collect_requirement_logs projectPath totalDeps state depName :
  (forall e, metadata existsSync readJsonSync (service_dep_path projectPath depName)
             <> Some (Throw e)) ->
  h_logs (DependencyAnalyzerService.collect_requirement existsSync readJsonSync join
            message_of projectPath totalDeps state depName)
         (S (fst state),
          (fst (snd state)
             ++ fst (contribution (metadata existsSync readJsonSync
                                     (service_dep_path projectPath depName))),
           snd (snd state)
             ++ snd (contribution (metadata existsSync readJsonSync
                                     (service_dep_path projectPath depName))))).
Proof.
  intros Hparse t. destruct state as [depCount [nodeRanges npmRanges]].
  unfold DependencyAnalyzerService.collect_requirement,
    PackageJsonService.getDependencyPackageJsonPath.
  fold (service_dep_path projectPath depName). cbn [fst snd].
  unfold h_bind at 1, h_emit at 1. unfold h_bind at 1.
  rewrite readPackageJson_run.
  destruct (metadata existsSync readJsonSync (service_dep_path projectPath depName))
    as [[pkg | e] |] eqn:Hmeta.
  - unfold contribution.
    destruct (truthy pkg) eqn:Hpkg.
    + destruct (truthy_get_prop pkg "engines" Hpkg) as [engines He].
      unfold h_bind at 1, h_lift at 1. rewrite He.
      destruct (truthy engines) eqn:Hen.
      * destruct (truthy_get_prop engines "node" Hen) as [node Hnode].
        destruct (truthy_get_prop engines "npm" Hen) as [npm Hnpm].
        unfold h_bind, h_lift, h_ret. rewrite Hnode, Hnpm. cbn [fst snd].
        rewrite <- app_assoc.
        destruct (truthy node), (truthy npm); rewrite ?app_nil_r;
          eexists; reflexivity.
      * unfold h_ret. cbn [fst snd]. rewrite <- app_assoc, app_nil_r.
        eexists. reflexivity.
    + unfold h_ret. rewrite <- app_assoc.
      destruct (get_prop pkg "engines") as [engines |] eqn:He; cbn [fst snd].
      * assert (Hen : truthy engines = false).
        { destruct pkg; cbn in He; try discriminate; injection He as <-; try reflexivity.
          all: cbn in Hpkg; discriminate. }
        rewrite Hen. cbn [fst snd]. rewrite app_nil_r. eexists. reflexivity.
      * rewrite app_nil_r. eexists. reflexivity.
  - exfalso. now apply (Hparse e).
  - unfold h_ret. cbn [truthy contribution fst snd].
    rewrite <- app_assoc, app_nil_r. eexists. reflexivity.
Qed.

Lemma service_loop_logs projectPath totalDeps names :
  forall state,
    (forall d e, In d names ->
                 metadata existsSync readJsonSync (service_dep_path projectPath d)
                 <> Some (Throw e)) ->
    h_logs (h_for_of (DependencyAnalyzerService.collect_requirement existsSync readJsonSync
                        join message_of projectPath totalDeps) state names)
           (fst state + List.length names,
            (fst (snd state) ++ fst (collected (service_metas projectPath names)),
             snd (snd state) ++ snd (collected (service_metas projectPath names)))).
Proof.
  induction names as [| d names IH]; intros state Hparse.
  - cbn [h_for_of service_metas map collected fst snd List.length].
    rewrite !app_nil_r, Nat.add_0_r. destruct state as [c [a b]]. apply h_logs_ret.
  - cbn [h_for_of]. eapply h_logs_bind.
    + apply collect_requirement_logs. intros e. apply Hparse. now left.
    + match goal with
      | |- h_logs (h_for_of _ ?st names) _ =>
          pose proof (IH st (fun d' e Hin => Hparse d' e (or_intror Hin))) as Hrest
      end.
      cbn [fst snd] in Hrest. cbn [service_metas map collected fst snd List.length].
      rewrite !app_assoc, Nat.add_succ_r. exact Hrest.
Qed.


Lemma h_bind_run {A B} (m : H A) (f : A -> H B) (t : list host_event) :
  h_bind m f t
  = match m t with
    | (Ok a, t') => f a t'
    | (Throw e, t') => (Throw e, t')
    end.
Proof. reflexivity. Qed.

Lemma h_for_of_app {A St} (body : St -> A -> H St) (l1 l2 : list A) :
  forall state t,
    h_for_of body state (l1 ++ l2) t
    = h_bind (h_for_of body state l1) (fun state' => h_for_of body state' l2) t.
Proof.
  induction l1 as [| x l1 IH]; intros state t; cbn [app h_for_of].
  - reflexivity.
  - unfold h_bind. destruct (body state x t) as [[state' | e] t']; [| reflexivity].
    rewrite IH. reflexivity.
Qed.

Let manifest_path (projectPath : string) : string := join [projectPath; "package.json"].

Let service : string -> H (option ProjectAnalysisResult) :=
  fun projectPath =>
    DependencyAnalyzerService.analyzeProject existsSync readJsonSync join message_of
      satisfies nodeCatalog npmCatalog projectPath
      DependencyAnalyzerService.default_options.

(** The service up to the loop over the dependencies. *)
Lemma service_reads_manifest projectPath manifest dependencies t :
  existsSync (manifest_path projectPath) = true ->
  readJsonSync (manifest_path projectPath) = Ok manifest ->
  truthy manifest = true ->
  DependencyAnalyzerService.collectDependencies manifest
    DependencyAnalyzerService.default_options = Ok dependencies ->
  service projectPath t
  = let start := t ++ [Core (FsExists (manifest_path projectPath));
                       Core (FsRead (manifest_path projectPath))] in
    let names := object_keys dependencies in
    match names with
    | [] =>
        (Ok (Some (mkResult (manifest_path projectPath) VNull VNull VNull VNull
                     (Some "No dependencies to analyze."))), start)
    | _ :: _ =>
        h_bind
          (h_for_of (DependencyAnalyzerService.collect_requirement existsSync readJsonSync
                       join message_of projectPath (List.length names))
             (0, ([], [])) names)
          (fun state =>
             h_emit (Core (ProgressReport 90 1 (Some "Calculating version ranges..."))) ;;;
             node <-- DependencyAnalyzerService.calculateNodeRange satisfies nodeCatalog
                        (fst (snd state)) true ;;
             npm <-- DependencyAnalyzerService.calculateNpmRange satisfies npmCatalog
                       (snd (snd state)) ;;
             h_emit (Core (ProgressReport 100 1 None)) ;;;
             h_ret (Some (mkResult (manifest_path projectPath) (fst node) (snd node)
                            (fst npm) (snd npm) None)))
          (start ++ [Core (ProgressReport 10 1 None)])
    end.
Proof.
  intros Hx Hr Htruthy Hcd.
  unfold service, DependencyAnalyzerService.analyzeProject,
    PackageJsonService.getPackageJsonPath.
  fold (manifest_path projectPath).
  unfold h_bind at 1. rewrite readPackageJson_run. unfold metadata. rewrite Hx, Hr.
  rewrite Htruthy. cbn [negb].
  unfold h_bind at 1, h_lift at 1. rewrite Hcd. cbv zeta.
  destruct (object_keys dependencies) as [| d names] eqn:Hk; [reflexivity |].
  change (List.length (d :: names) =? 0)%nat with false. cbv iota.
  change (0 <? List.length (d :: names))%nat with true.
  unfold DependencyAnalyzerService.collectEngineRequirements. rewrite Hk.
  set (loop := h_for_of _ _ (d :: names)).
  unfold h_bind at 1, h_emit at 1. unfold h_bind at 1 2.
  rewrite (h_bind_run loop).
  destruct (loop _) as [[state | e] t']; reflexivity.
Qed.

Lemma service_with_dependencies projectPath manifest dependencies t :
  existsSync (manifest_path projectPath) = true ->
  readJsonSync (manifest_path projectPath) = Ok manifest ->
  truthy manifest = true ->
  DependencyAnalyzerService.collectDependencies manifest
    DependencyAnalyzerService.default_options = Ok dependencies ->
  (forall d e, In d (object_keys dependencies) ->
               metadata existsSync readJsonSync (service_dep_path projectPath d)
               <> Some (Throw e)) ->
  exists evs,
    service projectPath t
    = (Ok (Some (resolved_result satisfies (manifest_path projectPath)
                   (object_keys dependencies)
                   (collected (service_metas projectPath (object_keys dependencies)))
                   nodeCatalog npmCatalog)),
       t ++ evs).
Proof.
  intros Hx Hr Htruthy Hcd Hparse.
  rewrite (service_reads_manifest projectPath manifest dependencies t Hx Hr Htruthy Hcd).
  cbv zeta.
  destruct (object_keys dependencies) as [| d names].
  { eexists. reflexivity. }
  set (ns := d :: names) in *.
  assert (Hlogs : h_logs
            (h_bind
               (h_for_of (DependencyAnalyzerService.collect_requirement existsSync
                            readJsonSync join message_of projectPath (List.length ns))
                  (0, ([], [])) ns)
               (fun state =>
                  h_emit (Core (ProgressReport 90 1 (Some "Calculating version ranges...")))
                  ;;;
                  node <-- DependencyAnalyzerService.calculateNodeRange satisfies nodeCatalog
                             (fst (snd state)) true ;;
                  npm <-- DependencyAnalyzerService.calculateNpmRange satisfies npmCatalog
                            (snd (snd state)) ;;
                  h_emit (Core (ProgressReport 100 1 None)) ;;;
                  h_ret (Some (mkResult (manifest_path projectPath) (fst node) (snd node)
                                 (fst npm) (snd npm) None))))
            (Some (resolved_result satisfies (manifest_path projectPath) ns
                     (collected (service_metas projectPath ns)) nodeCatalog npmCatalog))).
  { eapply h_logs_bind.
    - apply (service_loop_logs projectPath (List.length ns) ns (0, ([], [])) Hparse).
    - cbn [fst snd app].
      eapply h_logs_bind; [apply h_logs_emit |].
      eapply h_logs_bind; [apply service_node_range_logs |].
      eapply h_logs_bind; [apply service_npm_range_logs |].
      eapply h_logs_bind; [apply h_logs_emit |].
      apply h_logs_ret. }
  match goal with
  | |- context [h_bind ?m ?f ?l] => destruct (Hlogs l) as [evs Hevs]
  end.
  rewrite Hevs. eexists. rewrite <- !app_assoc. reflexivity.
Qed.

(** X26: the service resolves the constraints it collects over its own
    catalogs.  On a manifest that parses to a truthy value, when no metadata
    file of a dependency is unparsable (each is missing or parses),
    and [satisfies] raises on strings at most, [analyzeProject] with its
    default options returns the manifest path with the bounds that the
    constraints collected from the own property names of the dependencies
    object give over the catalogs of the service, or the note when there is
    no such name.  When neither [dependencies] nor
    [devDependencies] has a property called [__proto__] and the two ways of
    joining the path of a dependency agree, [analyzeProjectIncludes] returns
    the same, with its catalogs in the place of those of the service: the two
    results differ by what the catalogs make differ. *)
Theorem service_resolves_over_its_catalogs :
  forall projectPath manifest dependencies t,
    raises_on_strings_only satisfies ->
    existsSync (join [projectPath; "package.json"]) = true ->
    readJsonSync (join [projectPath; "package.json"]) = Ok manifest ->
    truthy manifest = true ->
    DependencyAnalyzerService.collectDependencies manifest
      DependencyAnalyzerService.default_options = Ok dependencies ->
    (forall d e, In d (object_keys dependencies) ->
                 metadata existsSync readJsonSync
                   (join [projectPath; "node_modules"; d; "package.json"])
                 <> Some (Throw e)) ->
    let names := object_keys dependencies in
    let constraints :=
      collected (map (fun d => metadata existsSync readJsonSync
                                 (join [projectPath; "node_modules"; d; "package.json"]))
                   names) in
    fst (DependencyAnalyzerService.analyzeProject existsSync readJsonSync join message_of
           satisfies nodeCatalog npmCatalog projectPath
           DependencyAnalyzerService.default_options t)
    = Ok (Some (resolved_result satisfies (join [projectPath; "package.json"]) names
                  constraints nodeCatalog npmCatalog))
    /\ forall deps devDeps,
         get_prop manifest "dependencies" = Ok deps ->
         get_prop manifest "devDependencies" = Ok devDeps ->
         plain_keys deps = true ->
         plain_keys devDeps = true ->
         (forall d, join [projectPath; "node_modules"; d; "package.json"]
                    = join [join [projectPath; "node_modules"]; d; "package.json"]) ->
         dependency_names manifest = Ok names
         /\ forall nodeCatalog' npmCatalog' s,
              fst (analyzeProjectIncludes existsSync readJsonSync join satisfies
                     nodeCatalog' npmCatalog' projectPath s)
              = Ok (Some (resolved_result satisfies (join [projectPath; "package.json"])
                            names constraints nodeCatalog' npmCatalog')).
Proof.
  intros projectPath manifest dependencies t _ Hx Hr Htruthy Hcd Hparse names constraints.
  split.
  - destruct (service_with_dependencies projectPath manifest dependencies t
                Hx Hr Htruthy Hcd Hparse) as [evs H].
    unfold service in H. rewrite H. reflexivity.
  - intros deps devDeps Hd Hdd Hp Hpd Hjoin.
    assert (Hn : dependency_names manifest = Ok names).
    { unfold dependency_names. rewrite Hd, Hdd. subst names. do 2 f_equal.
      rewrite (collectDependencies_plain manifest deps devDeps Hd Hdd Hp Hpd) in Hcd.
      now injection Hcd. }
    split; [exact Hn |]. intros nodeCatalog' npmCatalog' s.
    assert (Hmetas : map (fun d0 => metadata existsSync readJsonSync
                                      (join [join [projectPath; "node_modules"]; d0;
                                             "package.json"])) names
                     = map (fun d => metadata existsSync readJsonSync
                                       (join [projectPath; "node_modules"; d;
                                              "package.json"])) names).
    { apply map_ext. intros d0. now rewrite Hjoin. }
    fold names in Hparse. clearbody names. subst constraints.
    destruct names as [| d names].
    + rewrite (analyze_no_dependencies existsSync readJsonSync join satisfies nodeCatalog'
                 npmCatalog' projectPath manifest s Hx Hr Hn).
      reflexivity.
    + assert (Hne : d :: names <> []) by discriminate.
      destruct (analyze_with_dependencies existsSync readJsonSync join satisfies
                  nodeCatalog' npmCatalog' projectPath manifest (d :: names) s
                  Hx Hr Hn Hne) as [e2 H2].
      rewrite H2. cbn [fst]. rewrite Hmetas. reflexivity.
Qed.

(** X27: an unparsable metadata file of a dependency makes the service fail
    where the former analysis recovers.  At the first own property name of
    the dependencies object whose file exists and does not parse,
    [analyzeProject] throws the error of [readPackageJson] that names the
    file, while [analyzeProjectIncludes] returns a result for the same
    project whatever its catalogs, [satisfies] raising on strings at most; it
    reads the same names when neither [dependencies] nor [devDependencies]
    has a property called [__proto__]. *)
Theorem service_throws_on_unparsable_dependency :
  forall projectPath manifest dependencies before d after e t,
    raises_on_strings_only satisfies ->
    existsSync (join [projectPath; "package.json"]) = true ->
    readJsonSync (join [projectPath; "package.json"]) = Ok manifest ->
    truthy manifest = true ->
    DependencyAnalyzerService.collectDependencies manifest
      DependencyAnalyzerService.default_options = Ok dependencies ->
    object_keys dependencies = before ++ d :: after ->
    (forall d' e', In d' before ->
                   metadata existsSync readJsonSync
                     (join [projectPath; "node_modules"; d'; "package.json"])
                   <> Some (Throw e')) ->
    metadata existsSync readJsonSync (join [projectPath; "node_modules"; d; "package.json"])
    = Some (Throw e) ->
    fst (DependencyAnalyzerService.analyzeProject existsSync readJsonSync join message_of
           satisfies nodeCatalog npmCatalog projectPath
           DependencyAnalyzerService.default_options t)
    = Throw (JsError ("Error: Error parsing "
                        ++ join [projectPath; "node_modules"; d; "package.json"]
                        ++ ": " ++ message_of e)%string)
    /\ (forall nodeCatalog' npmCatalog' s,
          exists result,
            fst (analyzeProjectIncludes existsSync readJsonSync join satisfies
                   nodeCatalog' npmCatalog' projectPath s)
            = Ok (Some result))
    /\ (forall deps devDeps,
          get_prop manifest "dependencies" = Ok deps ->
          get_prop manifest "devDependencies" = Ok devDeps ->
          plain_keys deps = true ->
          plain_keys devDeps = true ->
          dependency_names manifest = Ok (before ++ d :: after)).
Proof.
  intros projectPath manifest dependencies before d after e t
         _ Hx Hr Htruthy Hcd Hkeys Hparse Hbad.
  split; [| split].
  - fold (service projectPath).
    rewrite (service_reads_manifest projectPath manifest dependencies t Hx Hr Htruthy Hcd).
    cbv zeta. rewrite Hkeys.
    destruct (before ++ d :: after) as [| d0 rest] eqn:Hnames;
      [destruct before; discriminate |].
    rewrite <- Hnames. rewrite h_bind_run, h_for_of_app, h_bind_run.
    match goal with
    | |- context [h_for_of ?body ?st before ?l] =>
        destruct (service_loop_logs projectPath (List.length (before ++ d :: after))
                    before st Hparse l) as [evs Hevs]
    end.
    rewrite Hevs. cbn [h_for_of]. rewrite h_bind_run.
    unfold DependencyAnalyzerService.collect_requirement at 1,
      PackageJsonService.getDependencyPackageJsonPath.
    unfold h_bind at 1, h_emit at 1. unfold h_bind at 1.
    rewrite readPackageJson_run, Hbad. reflexivity.
  - intros nodeCatalog' npmCatalog' s.
    destruct (truthy_get_prop manifest "dependencies" Htruthy) as [deps Hd].
    destruct (truthy_get_prop manifest "devDependencies" Htruthy) as [devDeps Hdd].
    assert (Hn : dependency_names manifest
                 = Ok (object_keys (spread2 (or_empty deps) (or_empty devDeps))))
      by (unfold dependency_names; now rewrite Hd, Hdd).
    destruct (object_keys (spread2 (or_empty deps) (or_empty devDeps))) as [| d0 names].
    + rewrite (analyze_no_dependencies existsSync readJsonSync join satisfies nodeCatalog'
                 npmCatalog' projectPath manifest s Hx Hr Hn).
      eexists. reflexivity.
    + assert (Hne : d0 :: names <> []) by discriminate.
      destruct (analyze_with_dependencies existsSync readJsonSync join satisfies
                  nodeCatalog' npmCatalog' projectPath manifest (d0 :: names) s
                  Hx Hr Hn Hne) as [evs H].
      rewrite H. eexists. reflexivity.
  - intros deps devDeps Hd Hdd Hp Hpd.
    unfold dependency_names. rewrite Hd, Hdd. rewrite <- Hkeys. do 2 f_equal.
    rewrite (collectDependencies_plain manifest deps devDeps Hd Hdd Hp Hpd) in Hcd.
    now injection Hcd.
Qed.

(** X28: on a manifest it cannot use, the service shows nothing.  When the
    manifest is missing or parses to a falsy value, [analyzeProject] returns
    null; when it does not parse, it throws the error that names the file; in
    each case the only events are the accesses to the manifest, whereas the
    former analysis showed an error message itself. *)
Theorem service_shows_nothing_on_unusable_manifest :
  forall projectPath t,
    let path := join [projectPath; "package.json"] in
    unusable (metadata existsSync readJsonSync path) = true ->
    DependencyAnalyzerService.analyzeProject existsSync readJsonSync join message_of
      satisfies nodeCatalog npmCatalog projectPath
      DependencyAnalyzerService.default_options t
    = (match metadata existsSync readJsonSync path with
       | Some (Throw e) =>
           Throw (JsError ("Error: Error parsing " ++ path ++ ": " ++ message_of e)%string)
       | _ => Ok None
       end,
       t ++ Core (FsExists path)
         :: (if existsSync path then [Core (FsRead path)] else [])).
Proof.
  intros projectPath t path Hun.
  unfold DependencyAnalyzerService.analyzeProject, PackageJsonService.getPackageJsonPath.
  fold path. unfold h_bind at 1. rewrite readPackageJson_run.
  unfold metadata in *. destruct (existsSync path); [| reflexivity].
  destruct (readJsonSync path) as [v | e]; [| reflexivity].
  cbn [unusable] in Hun. rewrite Hun. reflexivity.
Qed.

End ServiceFacts.

(** ** The command as a class *)

Section OnlyFacts.

Variable P : host_event -> bool.

Lemma h_only_ret {A} (a : A) : h_only P (h_ret a).
Proof. intros t. exists []. cbn. now rewrite app_nil_r. Qed.

Lemma h_only_lift {A} (o : outcome A) : h_only P (h_lift o).
Proof. intros t. exists []. cbn. now rewrite app_nil_r. Qed.

Lemma h_only_emit (ev : host_event) : P ev = true -> h_only P (h_emit ev).
Proof. intros H t. exists [ev]. cbn. now rewrite H. Qed.

Lemma h_only_bind {A B} (m : H A) (f : A -> H B) :
  h_only P m -> (forall a, h_only P (f a)) -> h_only P (h_bind m f).
Proof.
  intros Hm Hf t. destruct (Hm t) as (e1 & H1 & P1). unfold h_bind.
  destruct (m t) as [[a | e] t']; cbn [snd] in H1; subst t'.
  - destruct (Hf a (t ++ e1)) as (e2 & H2 & P2).
    exists (e1 ++ e2). rewrite H2, app_assoc, forallb_app, P1, P2. now split.
  - exists e1. now split.
Qed.

Lemma h_only_try {A} (m : H A) (handler : js_error -> H A) :
  h_only P m -> (forall e, h_only P (handler e)) -> h_only P (h_try m handler).
Proof.
  intros Hm Hh t. destruct (Hm t) as (e1 & H1 & P1). unfold h_try.
  destruct (m t) as [[a | e] t']; cbn [snd] in H1; subst t'.
  - exists e1. now split.
  - destruct (Hh e (t ++ e1)) as (e2 & H2 & P2).
    exists (e1 ++ e2). rewrite H2, app_assoc, forallb_app, P1, P2. now split.
Qed.

Lemma h_only_every {A} (f : A -> H bool) (l : list A) :
  (forall x, h_only P (f x)) -> h_only P (h_every f l).
Proof.
  intros Hf. induction l as [| x l IH]; cbn [h_every].
  - apply h_only_ret.
  - apply h_only_bind; [apply Hf |]. intros []; [exact IH | apply h_only_ret].
Qed.

Lemma h_only_filter {A} (f : A -> H bool) (l : list A) :
  (forall x, h_only P (f x)) -> h_only P (h_filter f l).
Proof.
  intros Hf. induction l as [| x l IH]; cbn [h_filter].
  - apply h_only_ret.
  - apply h_only_bind; [apply Hf |]. intros b.
    apply h_only_bind; [exact IH |]. intros rest. apply h_only_ret.
Qed.

Lemma h_only_for_of {A St} (body : St -> A -> H St) (l : list A) :
  (forall state x, h_only P (body state x)) -> forall state, h_only P (h_for_of body state l).
Proof.
  intros Hb. induction l as [| x l IH]; intros state; cbn [h_for_of].
  - apply h_only_ret.
  - apply h_only_bind; [apply Hb | exact IH].
Qed.

End OnlyFacts.

Section ExecuteFacts.

Variable existsSync : string -> bool.
Variable readJsonSync : string -> outcome value.
Variable join : list string -> string.
Variable message_of : js_error -> string.
Variable satisfies : string -> value -> outcome bool.
Variable nodeCatalog npmCatalog : list string.
Variable openTextDocument : string -> outcome document.
Variable json_parse : string -> outcome value.
Variable applyEdit : string -> value -> nat -> outcome bool.
Variable showTextDocument : string -> outcome unit.
Variable choose : string -> option string.

(** The service only reads files, reports progress and warns. *)
Lemma service_leaves_documents projectPath options :
  h_only leaves_documents
    (DependencyAnalyzerService.analyzeProject existsSync readJsonSync join message_of
       satisfies nodeCatalog npmCatalog projectPath options).
Proof.
  assert (Hread : forall path,
             h_only leaves_documents
               (PackageJsonService.readPackageJson existsSync readJsonSync message_of path)).
  { intros path. unfold PackageJsonService.readPackageJson.
    apply h_only_bind; [now apply h_only_emit |]. intros _.
    destruct (negb (existsSync path)); [apply h_only_ret |].
    apply h_only_bind; [now apply h_only_emit |]. intros _.
    apply h_only_try; [apply h_only_lift |]. intros e. apply h_only_lift. }
  assert (Hcompat : forall kind catalog ranges,
             h_only leaves_documents
               (DependencyAnalyzerService.compatibleVersions satisfies kind catalog ranges)).
  { intros kind catalog ranges. unfold DependencyAnalyzerService.compatibleVersions.
    apply h_only_filter. intros version. apply h_only_every. intros rangeStr.
    unfold DependencyAnalyzerService.test_requirement.
    apply h_only_try; [apply h_only_lift |]. intros e.
    apply h_only_bind; [now apply h_only_emit |]. intros _. apply h_only_ret. }
  unfold DependencyAnalyzerService.analyzeProject.
  apply h_only_bind; [apply Hread |]. intros packageJson.
  destruct (negb (truthy packageJson)); [apply h_only_ret |].
  apply h_only_bind; [apply h_only_lift |].
  intros dependencies.
  destruct (List.length (object_keys dependencies) =? 0)%nat; [apply h_only_ret |].
  apply h_only_bind; [now apply h_only_emit |]. intros _.
  apply h_only_bind.
  { unfold DependencyAnalyzerService.collectEngineRequirements.
    apply h_only_bind; [| intros state; apply h_only_ret].
    apply h_only_for_of. intros state depName.
    unfold DependencyAnalyzerService.collect_requirement.
    apply h_only_bind; [now apply h_only_emit |]. intros _.
    apply h_only_bind; [apply Hread |]. intros depPackageJson.
    destruct (truthy depPackageJson); [| apply h_only_ret].
    apply h_only_bind; [apply h_only_lift |]. intros engines.
    destruct (truthy engines); [| apply h_only_ret].
    apply h_only_bind; [apply h_only_lift |]. intros node.
    apply h_only_bind; [apply h_only_lift |]. intros npm. apply h_only_ret. }
  intros requirements.
  apply h_only_bind; [now apply h_only_emit |]. intros _.
  apply h_only_bind.
  { unfold DependencyAnalyzerService.calculateNodeRange.
    destruct (0 <? List.length (fst requirements))%nat.
    - apply h_only_bind; [apply Hcompat |]. intros compatible.
      destruct (0 <? List.length compatible)%nat; apply h_only_ret.
    - destruct (0 <? List.length (object_keys dependencies))%nat; apply h_only_ret. }
  intros node.
  apply h_only_bind.
  { unfold DependencyAnalyzerService.calculateNpmRange.
    destruct (0 <? List.length (snd requirements))%nat; [| apply h_only_ret].
    apply h_only_bind; [apply Hcompat |]. intros compatible.
    destruct (0 <? List.length compatible)%nat; apply h_only_ret. }
  intros npm.
  apply h_only_bind; [now apply h_only_emit |]. intros _. apply h_only_ret.
Qed.


Lemma updateEngines_extends_log path node npm t :
  exists o evs,
    updateEngines openTextDocument json_parse applyEdit showTextDocument message_of
      path node npm t = (o, t ++ evs).
Proof.
  unfold updateEngines, h_try, open_document.
  unfold h_bind at 1. unfold h_bind at 1. unfold h_emit at 1, h_lift at 1.
  destruct (openTextDocument path) as [doc | e].
  - unfold h_bind at 1.
    pose proof (merge_engines_silent json_parse doc node npm (t ++ [OpenTextDocument path]))
      as Hs.
    destruct (merge_engines json_parse doc node npm (t ++ [OpenTextDocument path]))
      as [[[pj updated] | e] t'] eqn:Hm; cbn [snd] in Hs; subst t'; cbn [snd fst].
    + destruct updated; cbn [negb].
      * unfold write_document, show_document, h_bind, h_emit, h_lift, h_ret.
        destruct (applyEdit _ _ _) as [b | e];
          [destruct (showTextDocument _) as [[] | e] |];
          rewrite <- !app_assoc; do 2 eexists; reflexivity.
      * unfold h_ret. do 2 eexists. reflexivity.
    + unfold h_lift. do 2 eexists. reflexivity.
  - unfold h_lift. do 2 eexists. reflexivity.
Qed.

Let execute : string -> string -> H unit :=
  execute_task existsSync readJsonSync join message_of satisfies nodeCatalog npmCatalog
    openTextDocument json_parse applyEdit showTextDocument choose.

(** X29: the command class, too, touches the manifest only after the user has
    consented.  Whatever its task answers, either none of its events opens,
    edits or shows a document, or it has put the modal question, no event
    before the question opens, edits or shows a document, and the user has
    picked the update button. *)
Theorem execute_edits_only_after_consent :
  forall fsPath workspaceName t,
    exists answer evs,
      execute fsPath workspaceName t = (answer, t ++ evs)
      /\ (forallb leaves_documents evs = true
          \/ exists message before after,
               evs = before ++ ShowModalChoice message "Update package.json" :: after
               /\ forallb leaves_documents before = true
               /\ choose message = Some "Update package.json").
Proof.
  intros fsPath workspaceName t. unfold execute, execute_task, h_try.
  rewrite h_bind_run. unfold h_emit at 1. rewrite h_bind_run.
  set (first := Core (ProgressReport 0 1 (Some "Reading project package.json..."))).
  destruct (service_leaves_documents fsPath DependencyAnalyzerService.default_options
              (t ++ [first])) as (e1 & H1 & P1).
  assert (Hquiet : forall tail,
             forallb leaves_documents tail = true ->
             forallb leaves_documents (first :: e1 ++ tail) = true).
  { intros tail Htail. cbn [forallb]. now rewrite forallb_app, P1, Htail. }
  destruct (DependencyAnalyzerService.analyzeProject _ _ _ _ _ _ _ _ _ (t ++ [first]))
    as [[[result |] | e] t']; cbn [snd] in H1; subst t'.
  - destruct (strictly_equal (note result) "No dependencies to analyze.").
    { unfold h_emit. rewrite <- !app_assoc. do 2 eexists. split; [reflexivity |].
      left. now apply Hquiet. }
    destruct (truthy_string (formatted_range (minNode result) (maxNode result)));
      cbn [negb].
    + rewrite h_bind_run. unfold h_emit at 1.
      destruct (strictly_equal (choose _) "Update package.json") eqn:Hc.
      * rewrite h_bind_run.
        match goal with
        | |- context [updateEngines ?a ?b ?c ?d ?e ?f ?g ?h ?l] =>
            destruct (updateEngines_extends_log f g h l) as (o & evs & Hevs)
        end.
        rewrite Hevs. apply strictly_equal_true in Hc.
        destruct o as [updated | e].
        -- unfold h_emit. rewrite <- !app_assoc. cbn [app].
           do 2 eexists. split; [reflexivity |]. right.
           eexists _, (first :: e1), _. split; [reflexivity |].
           split; [| exact Hc]. cbn [forallb]. now rewrite P1.
        -- unfold h_bind, h_emit. rewrite <- !app_assoc. cbn [app].
           do 2 eexists. split; [reflexivity |]. right.
           eexists _, (first :: e1), _. split; [reflexivity |].
           split; [| exact Hc]. cbn [forallb]. now rewrite P1.
      * unfold h_ret. rewrite <- !app_assoc. do 2 eexists. split; [reflexivity |].
        left. now apply Hquiet.
    + unfold h_emit. rewrite <- !app_assoc. do 2 eexists. split; [reflexivity |].
      left. now apply Hquiet.
  - unfold h_ret. rewrite <- !app_assoc. do 2 eexists. split; [reflexivity |].
    left. cbn [app forallb]. now rewrite P1.
  - unfold h_bind, h_emit. rewrite <- !app_assoc. do 2 eexists. split; [reflexivity |].
    left. now apply Hquiet.
Qed.

Lemma formatted_range_strings (a b : string) :
  a <> EmptyString -> b <> EmptyString ->
  formatted_range (VStr a) (VStr b) = Some (">=" ++ a ++ " <=" ++ b)%string.
Proof.
  intros Ha Hb. unfold formatted_range, DependencyAnalyzerService.formatVersionRange.
  cbn [truthy to_string].
  destruct (String.eqb_spec a ""); [contradiction |].
  destruct (String.eqb_spec b ""); [contradiction |]. cbn [negb andb].
  f_equal. cbn [String.append]. do 2 f_equal.
  clear. induction a as [| c a IH]; [reflexivity |]. cbn. now rewrite IH.
Qed.

(** X30: in the command class a failure of the update is reported as a
    failure of the analysis.  When the service, with a [satisfies] that
    raises on strings at most, has resolved the runtime range [a .. b] from
    the own property names of its dependencies object, the user
    picks the update button and the manifest cannot be opened as a document,
    [updateEngines] throws its own error and the task logs and shows it under
    the heading of analysis errors, after the question and the attempt to
    open the document. *)
Theorem execute_reports_update_failure_as_analysis_error :
  forall fsPath workspaceName manifest dependencies a b e t,
    let path := join [fsPath; "package.json"] in
    raises_on_strings_only satisfies ->
    existsSync path = true ->
    readJsonSync path = Ok manifest ->
    truthy manifest = true ->
    DependencyAnalyzerService.collectDependencies manifest
      DependencyAnalyzerService.default_options = Ok dependencies ->
    let names := object_keys dependencies in
    names <> [] ->
    (forall d e', In d names ->
                  metadata existsSync readJsonSync
                    (join [fsPath; "node_modules"; d; "package.json"])
                  <> Some (Throw e')) ->
    let constraints :=
      collected (map (fun d => metadata existsSync readJsonSync
                                 (join [fsPath; "node_modules"; d; "package.json"]))
                   names) in
    node_range satisfies nodeCatalog (fst constraints) true = (VStr a, VStr b) ->
    a <> EmptyString -> b <> EmptyString ->
    let nodeEngineString := Some (">=" ++ a ++ " <=" ++ b)%string in
    let npmEngineString :=
      formatted_range (fst (npm_range satisfies npmCatalog (snd constraints)))
        (snd (npm_range satisfies npmCatalog (snd constraints))) in
    let message := ENGINES_RECOMMENDATION workspaceName nodeEngineString npmEngineString in
    choose message = Some "Update package.json" ->
    openTextDocument path = Throw e ->
    let failure :=
      JsError ("Error: Failed to update package.json: " ++ message_of e)%string in
    exists evs,
      forallb leaves_documents evs = true
      /\ execute fsPath workspaceName t
         = (Ok tt,
            t ++ evs
              ++ [ShowModalChoice message "Update package.json";
                  OpenTextDocument path;
                  ConsoleErrorLog "Error analyzing dependencies:" failure;
                  Core (ShowErrorMessage
                          ("Error analyzing dependencies: " ++ message_of failure)%string)]).
Proof.
  intros fsPath workspaceName manifest dependencies a b e t path _ Hx Hr Htruthy Hcd names
         Hne Hparse constraints Hrange Ha Hb nodeEngineString npmEngineString message
         Hchoose Hopen failure.
  set (start := t ++ [Core (ProgressReport 0 1 (Some "Reading project package.json..."))]).
  destruct (service_with_dependencies existsSync readJsonSync join message_of satisfies
              nodeCatalog npmCatalog fsPath manifest dependencies start
              Hx Hr Htruthy Hcd Hparse) as [e1 H1].
  destruct (service_leaves_documents fsPath DependencyAnalyzerService.default_options start)
    as (e1' & H1' & P1).
  rewrite H1 in H1'. cbn [snd] in H1'. apply app_inv_head in H1'. subst e1'.
  exists (Core (ProgressReport 0 1 (Some "Reading project package.json...")) :: e1).
  split; [cbn [forallb]; now rewrite P1 |].
  unfold execute, execute_task, h_try.
  rewrite h_bind_run. unfold h_emit at 1. rewrite h_bind_run. fold start.
  rewrite H1. fold names. fold constraints.
  assert (Hres : resolved_result satisfies (join [fsPath; "package.json"]) names
                   constraints nodeCatalog npmCatalog
                 = mkResult path (VStr a) (VStr b)
                     (fst (npm_range satisfies npmCatalog (snd constraints)))
                     (snd (npm_range satisfies npmCatalog (snd constraints))) None).
  { unfold resolved_result. destruct names; [congruence |]. now rewrite Hrange. }
  rewrite Hres.
  cbn [note strictly_equal minNode maxNode minNpm maxNpm projectPackageJsonPath fst snd].
  rewrite (formatted_range_strings a b Ha Hb).
  fold nodeEngineString. fold npmEngineString. fold message.
  assert (Ht : truthy_string nodeEngineString = true) by reflexivity.
  rewrite Ht. cbn [negb].
  rewrite h_bind_run. unfold h_emit at 1. rewrite Hchoose.
  cbn [strictly_equal]. rewrite String.eqb_refl.
  rewrite h_bind_run.
  unfold updateEngines, h_try, open_document.
  unfold h_bind at 1. unfold h_bind at 1. unfold h_emit at 1, h_lift at 1.
  fold path. rewrite Hopen. unfold h_lift. fold failure.
  unfold h_bind, h_emit. subst start. rewrite <- !app_assoc. reflexivity.
Qed.

End ExecuteFacts.

(** ** The properties on the sample project *)

Lemma update_writes_requested_engines_witness :
  exists written,
    updateVersionRanges sample_open sample_parse sample_apply_edit
      sample_show_document "/app/package.json"
      (Some ">=18.0.0 <=20.0.0") None []
    = (Ok tt,
       [OpenTextDocument "/app/package.json";
        ApplyEdit "file:///app/package.json" (to_json written) 4;
        ShowInformationMessage "package.json has been updated with new 'engines' settings.";
        ShowTextDocument "file:///app/package.json"])
    /\ exists ep', h_get written "engines" = Ok (HObj ep')
                   /\ h_lookup ep' "node" = HStr ">=18.0.0 <=20.0.0".
Proof.
  destruct (update_writes_requested_engines sample_open sample_parse sample_apply_edit
      sample_show_document "/app/package.json"
              (Some ">=18.0.0 <=20.0.0") None sample_document manifest_one_dependency
              [("name", HStr "app"); ("dependencies", HObj [("dep", HStr "^1.0.0")])] []
              eq_refl eq_refl eq_refl eq_refl eq_refl)
    as (written & ep' & Hrun & Hengines & Hnode & _).
  exists written. split; [exact Hrun |].
  exists ep'. split; [exact Hengines | exact (Hnode eq_refl)].
Defined.

Lemma update_skips_when_up_to_date_witness :
  updateVersionRanges sample_open sample_parse sample_apply_edit
      sample_show_document "/app/updated/package.json"
    (Some ">=18.0.0 <=20.0.0") None []
  = (Ok tt,
     [OpenTextDocument "/app/updated/package.json";
      ShowInformationMessage "package.json 'engines' are already up-to-date."]).
Proof.
  exact (update_skips_when_up_to_date sample_open sample_parse sample_apply_edit
      sample_show_document "/app/updated/package.json"
           (Some ">=18.0.0 <=20.0.0") None
           (mkDocument "file:///app/updated/package.json" sample_updated_text)
           sample_updated_manifest
           [("name", HStr "app"); ("dependencies", HObj [("dep", HStr "^1.0.0")]);
            ("engines", HObj [("node", HStr ">=18.0.0 <=20.0.0")])] []
           eq_refl eq_refl eq_refl eq_refl eq_refl).
Defined.

Lemma update_twice_edits_once_witness :
  updateVersionRanges sample_open sample_parse sample_apply_edit
      sample_show_document "/app/updated/package.json"
    (Some ">=18.0.0 <=20.0.0") None []
  = (Ok tt,
     [OpenTextDocument "/app/updated/package.json";
      ShowInformationMessage "package.json 'engines' are already up-to-date."]).
Proof.
  exact (update_twice_edits_once sample_open sample_parse sample_apply_edit
      sample_show_document "/app/package.json"
           (Some ">=18.0.0 <=20.0.0") None sample_document manifest_one_dependency
           [("name", HStr "app"); ("dependencies", HObj [("dep", HStr "^1.0.0")])]
           "/app/updated/package.json"
           (mkDocument "file:///app/updated/package.json" sample_updated_text)
           "file:///app/package.json" sample_updated_manifest 4 []
           eq_refl eq_refl eq_refl eq_refl
           (or_intror (or_introl eq_refl)) eq_refl eq_refl).
Defined.

Lemma update_rejects_unsettable_manifest_witness :
  exists e,
    updateVersionRanges sample_open sample_parse sample_apply_edit
      sample_show_document "/app/null/package.json"
      (Some ">=18.0.0 <=20.0.0") None []
    = (Ok tt,
       [OpenTextDocument "/app/null/package.json";
        ConsoleErrorLog "Failed to update package.json:" e;
        Core (ShowErrorMessage ("Failed to update package.json: " ++ error_text e)%string)]).
Proof.
  exact (update_rejects_unsettable_manifest sample_open sample_parse sample_apply_edit
      sample_show_document
           "/app/null/package.json" (Some ">=18.0.0 <=20.0.0") None
           (mkDocument "file:///app/null/package.json" "null") VNull []
           eq_refl eq_refl (or_introl eq_refl)).
Defined.

Lemma indent_is_blank_run_before_first_key_witness :
  detect_indent sample_manifest_text = 4.
Proof.
  exact (indent_is_blank_run_before_first_key "{"%char EmptyString "010"%char "    "
           ("name" ++ double_quote ++ ": " ++ double_quote ++ "app" ++ double_quote ++ ","
              ++ line_feed
              ++ "    " ++ double_quote ++ "dependencies" ++ double_quote ++ ": {"
              ++ line_feed
              ++ "        " ++ double_quote ++ "dep" ++ double_quote ++ ": "
              ++ double_quote ++ "^1.0.0" ++ double_quote ++ line_feed
              ++ "    }" ++ line_feed ++ "}")%string
           eq_refl eq_refl eq_refl ltac:(discriminate) eq_refl).
Defined.

Lemma indent_counts_line_feed_after_carriage_return_witness :
  detect_indent sample_crlf_text = 3.
Proof.
  exact (indent_counts_line_feed_after_carriage_return "{"%char EmptyString 2
           ("name" ++ double_quote ++ ": " ++ double_quote ++ "app" ++ double_quote
              ++ String "013"%char line_feed ++ "}")%string
           eq_refl eq_refl).
Defined.

Lemma indent_defaults_to_two_witness :
  detect_indent sample_minified_text = 2.
Proof.
  exact (indent_defaults_to_two sample_minified_text eq_refl).
Defined.

Lemma task_contains_analysis_failure_witness :
  exists e,
    analyze_task (sample_exists (Some (Ok VNull)) None) (sample_read (Some (Ok VNull)) None)
      sample_join Semver.satisfies SharedConstants.COMMON_NODEJS_VERSIONS
      SharedConstants.COMMON_NPM_VERSIONS sample_open sample_parse sample_apply_edit
      sample_show_document (fun p => p)
      (fun _ => None) "/app" []
    = (Ok tt,
       [Core (ProgressReport 0 1 (Some "Reading project package.json..."));
        Core (FsExists "/app/package.json");
        Core (FsRead "/app/package.json");
        ConsoleErrorLog "Error analyzing dependencies:" e;
        Core (ShowErrorMessage ("Error analyzing dependencies: " ++ error_text e)%string)]).
Proof.
  exact (task_contains_analysis_failure
           (sample_exists (Some (Ok VNull)) None) (sample_read (Some (Ok VNull)) None)
           sample_join Semver.satisfies SharedConstants.COMMON_NODEJS_VERSIONS
           SharedConstants.COMMON_NPM_VERSIONS sample_open sample_parse sample_apply_edit
      sample_show_document (fun p => p)
           (fun _ => None) "/app" VNull [] eq_refl eq_refl (or_introl eq_refl)).
Defined.

Lemma task_recommends_resolved_range_witness :
  formatVersionRange (Some "18.0.0") (Some "22.4.1") = Some ">=18.0.0 <=22.4.1".
Proof.
  assert (Hne : ["dep"] <> []) by discriminate.
  assert (Hrange : node_range Semver.satisfies SharedConstants.COMMON_NODEJS_VERSIONS
                     (fst (collected
                             (map (fun d =>
                                     metadata
                                       (sample_exists (Some (Ok manifest_one_dependency)) None)
                                       (sample_read (Some (Ok manifest_one_dependency)) None)
                                       (sample_join [sample_join ["/app"; "node_modules"]; d;
                                                     "package.json"]))
                                ["dep"]))) true
                   = (VStr "18.0.0", VStr "22.4.1")) by (vm_compute; reflexivity).
  exact (proj1 (task_recommends_resolved_range
                  (sample_exists (Some (Ok manifest_one_dependency)) None)
                  (sample_read (Some (Ok manifest_one_dependency)) None)
                  sample_join Semver.satisfies SharedConstants.COMMON_NODEJS_VERSIONS
                  SharedConstants.COMMON_NPM_VERSIONS sample_open sample_parse sample_apply_edit
      sample_show_document (fun p => p)
                  (fun _ => None) "/app" manifest_one_dependency ["dep"]
                  "18.0.0" "22.4.1" [] eq_refl eq_refl eq_refl Hne Hrange
                  ltac:(discriminate) ltac:(discriminate))).
Defined.

Lemma task_reports_unsatisfiable_constraints_witness :
  exists evs,
    forallb is_core evs = true
    /\ analyze_task
         (sample_exists (Some (Ok manifest_one_dependency)) (Some (Ok metadata_unsatisfiable)))
         (sample_read (Some (Ok manifest_one_dependency)) (Some (Ok metadata_unsatisfiable)))
         sample_join Semver.satisfies SharedConstants.COMMON_NODEJS_VERSIONS
         SharedConstants.COMMON_NPM_VERSIONS sample_open sample_parse sample_apply_edit
      sample_show_document (fun p => p)
         (fun _ => Some "Update package.json") "/app" []
       = (Ok tt,
          [] ++ evs
             ++ [Core (ShowErrorMessage
                         "Could not determine a compatible Node.js version range for the project dependencies.")]).
Proof.
  assert (Hne : ["dep"] <> []) by discriminate.
  assert (Hnone : satisfying_sublist Semver.satisfies SharedConstants.COMMON_NODEJS_VERSIONS
                    (fst (collected
                            (map (fun d =>
                                    metadata
                                      (sample_exists (Some (Ok manifest_one_dependency))
                                         (Some (Ok metadata_unsatisfiable)))
                                      (sample_read (Some (Ok manifest_one_dependency))
                                         (Some (Ok metadata_unsatisfiable)))
                                      (sample_join [sample_join ["/app"; "node_modules"]; d;
                                                    "package.json"]))
                               ["dep"])))
                  = []) by (vm_compute; reflexivity).
  exact (task_reports_unsatisfiable_constraints
           (sample_exists (Some (Ok manifest_one_dependency)) (Some (Ok metadata_unsatisfiable)))
           (sample_read (Some (Ok manifest_one_dependency)) (Some (Ok metadata_unsatisfiable)))
           sample_join Semver.satisfies SharedConstants.COMMON_NODEJS_VERSIONS
           SharedConstants.COMMON_NPM_VERSIONS sample_open sample_parse sample_apply_edit
      sample_show_document (fun p => p)
           (fun _ => Some "Update package.json") "/app" manifest_one_dependency ["dep"] []
           eq_refl eq_refl eq_refl Hne Hnone).
Defined.

Lemma task_without_dependencies_witness :
  analyze_task (sample_exists (Some (Ok manifest_no_dependencies)) None)
    (sample_read (Some (Ok manifest_no_dependencies)) None)
    sample_join Semver.satisfies SharedConstants.COMMON_NODEJS_VERSIONS
    SharedConstants.COMMON_NPM_VERSIONS sample_open sample_parse sample_apply_edit
      sample_show_document (fun p => p)
    (fun _ => Some "Update package.json") "/app" []
  = (Ok tt,
     [Core (ProgressReport 0 1 (Some "Reading project package.json..."));
      Core (FsExists "/app/package.json");
      Core (FsRead "/app/package.json");
      ShowInformationMessage
        "No dependencies in project. Cannot determine support limits based on dependencies."]).
Proof.
  exact (task_without_dependencies
           (sample_exists (Some (Ok manifest_no_dependencies)) None)
           (sample_read (Some (Ok manifest_no_dependencies)) None)
           sample_join Semver.satisfies SharedConstants.COMMON_NODEJS_VERSIONS
           SharedConstants.COMMON_NPM_VERSIONS sample_open sample_parse sample_apply_edit
      sample_show_document (fun p => p)
           (fun _ => Some "Update package.json") "/app" manifest_no_dependencies []
           eq_refl eq_refl eq_refl).
Defined.

Lemma hover_given_iff_dependency_key_above_witness :
  exists result,
    provideHover sample_word_range sample_lines (mkPosition 3 10) = Ok result
    /\ exists h, result = Some h
                 /\ contents h = "Analyze Node/NPM Support Limits for project"
                 /\ isTrusted h = true.
Proof.
  destruct (hover_given_iff_dependency_key_above sample_word_range sample_lines
              (mkPosition 3 10) ltac:(cbn; lia))
    as (result & Hrun & Hiff & Hhover).
  exists result. split; [exact Hrun |].
  destruct result as [h |].
  - exists h. split; [reflexivity |]. exact (proj2 (Hhover h eq_refl)).
  - exfalso. apply (proj2 Hiff); [| reflexivity].
    split; [discriminate |].
    exists 2. split; [cbn; lia |]. split; [reflexivity |].
    intros j Hj. cbn in Hj. lia.
Defined.

Lemma service_resolves_over_its_catalogs_witness :
  fst (DependencyAnalyzerService.analyzeProject
         (sample_exists (Some (Ok manifest_one_dependency)) None)
         (sample_read (Some (Ok manifest_one_dependency)) None)
         sample_join error_text Semver.satisfies ConfigConstants.getNodeVersions
         ConfigConstants.NPM_VERSIONS "/app"
         DependencyAnalyzerService.default_options [])
  = Ok (Some (mkResult "/app/package.json" (VStr "18.20.8") (VStr "24.0.1") VNull VNull
                None))
  /\ fst (sample_run (Some (Ok manifest_one_dependency)) None)
     = Ok (Some (mkResult "/app/package.json" (VStr "18.0.0") (VStr "22.4.1") VNull VNull
                   None)).
Proof.
  assert (Hparse : forall d e, In d ["dep"] ->
                     metadata (sample_exists (Some (Ok manifest_one_dependency)) None)
                       (sample_read (Some (Ok manifest_one_dependency)) None)
                       (sample_join ["/app"; "node_modules"; d; "package.json"])
                     <> Some (Throw e)).
  { intros d e [<- | []]. discriminate. }
  destruct (service_resolves_over_its_catalogs
              (sample_exists (Some (Ok manifest_one_dependency)) None)
              (sample_read (Some (Ok manifest_one_dependency)) None)
              sample_join error_text Semver.satisfies ConfigConstants.getNodeVersions
              ConfigConstants.NPM_VERSIONS "/app" manifest_one_dependency
              [("dep", VStr "^1.0.0")] []
              (fun v r => or_intror (semver_satisfies_answers v r))
              eq_refl eq_refl eq_refl eq_refl Hparse) as [Hservice Hanalysis].
  split; [exact Hservice |].
  exact (proj2 (Hanalysis (VObj [("dep", VStr "^1.0.0")]) VUndefined
                  eq_refl eq_refl eq_refl eq_refl (fun d => eq_refl))
           SharedConstants.COMMON_NODEJS_VERSIONS SharedConstants.COMMON_NPM_VERSIONS
           initial_store).
Defined.

Lemma service_throws_on_unparsable_dependency_witness :
  fst (DependencyAnalyzerService.analyzeProject
         (sample_exists (Some (Ok manifest_one_dependency))
            (Some (Throw (JsError "SyntaxError: Unexpected end of JSON input"))))
         (sample_read (Some (Ok manifest_one_dependency))
            (Some (Throw (JsError "SyntaxError: Unexpected end of JSON input"))))
         sample_join error_text Semver.satisfies ConfigConstants.getNodeVersions
         ConfigConstants.NPM_VERSIONS "/app"
         DependencyAnalyzerService.default_options [])
  = Throw (JsError ("Error: Error parsing "
                      ++ sample_join ["/app"; "node_modules"; "dep"; "package.json"]
                      ++ ": "
                      ++ error_text (JsError "SyntaxError: Unexpected end of JSON input"))%string).
Proof.
  exact (proj1 (service_throws_on_unparsable_dependency
                  (sample_exists (Some (Ok manifest_one_dependency))
                     (Some (Throw (JsError "SyntaxError: Unexpected end of JSON input"))))
                  (sample_read (Some (Ok manifest_one_dependency))
                     (Some (Throw (JsError "SyntaxError: Unexpected end of JSON input"))))
                  sample_join error_text Semver.satisfies
                  ConfigConstants.getNodeVersions ConfigConstants.NPM_VERSIONS
                  "/app" manifest_one_dependency [("dep", VStr "^1.0.0")] [] "dep" []
                  (JsError "SyntaxError: Unexpected end of JSON input") []
                  (fun v r => or_intror (semver_satisfies_answers v r))
                  eq_refl eq_refl eq_refl eq_refl eq_refl
                  (fun d' e' (H : In d' []) => match H with end) eq_refl)).
Defined.

Lemma service_shows_nothing_on_unusable_manifest_witness :
  DependencyAnalyzerService.analyzeProject (sample_exists None None) (sample_read None None)
    sample_join error_text Semver.satisfies SharedConstants.COMMON_NODEJS_VERSIONS
    SharedConstants.COMMON_NPM_VERSIONS "/app" DependencyAnalyzerService.default_options []
  = (Ok None, [Core (FsExists "/app/package.json")]).
Proof.
  exact (service_shows_nothing_on_unusable_manifest (sample_exists None None)
           (sample_read None None) sample_join error_text Semver.satisfies
           SharedConstants.COMMON_NODEJS_VERSIONS SharedConstants.COMMON_NPM_VERSIONS
           "/app" [] eq_refl).
Defined.

Lemma execute_reports_update_failure_as_analysis_error_witness :
  exists evs,
    forallb leaves_documents evs = true
    /\ exists message failure,
         execute_task (sample_exists (Some (Ok manifest_one_dependency)) None)
           (sample_read (Some (Ok manifest_one_dependency)) None)
           sample_join error_text Semver.satisfies ConfigConstants.getNodeVersions
           ConfigConstants.NPM_VERSIONS
           (fun _ => Throw (JsError "Error: cannot open the document")) sample_parse
           sample_apply_edit sample_show_document
           (fun _ => Some "Update package.json") "/app" "app" []
         = (Ok tt,
            [] ++ evs
               ++ [ShowModalChoice message "Update package.json";
                   OpenTextDocument "/app/package.json";
                   ConsoleErrorLog "Error analyzing dependencies:" failure;
                   Core (ShowErrorMessage
                           ("Error analyzing dependencies: " ++ error_text failure)%string)]).
Proof.
  assert (Hne : object_keys [("dep", VStr "^1.0.0")] <> []) by discriminate.
  assert (Hparse : forall d e, In d (object_keys [("dep", VStr "^1.0.0")]) ->
                     metadata (sample_exists (Some (Ok manifest_one_dependency)) None)
                       (sample_read (Some (Ok manifest_one_dependency)) None)
                       (sample_join ["/app"; "node_modules"; d; "package.json"])
                     <> Some (Throw e)).
  { intros d e [<- | []]. discriminate. }
  assert (Hrange : node_range Semver.satisfies ConfigConstants.getNodeVersions
                     (fst (collected
                             (map (fun d =>
                                     metadata
                                       (sample_exists (Some (Ok manifest_one_dependency)) None)
                                       (sample_read (Some (Ok manifest_one_dependency)) None)
                                       (sample_join ["/app"; "node_modules"; d;
                                                     "package.json"]))
                                (object_keys [("dep", VStr "^1.0.0")])))) true
                   = (VStr "18.20.8", VStr "24.0.1")) by (vm_compute; reflexivity).
  destruct (execute_reports_update_failure_as_analysis_error
              (sample_exists (Some (Ok manifest_one_dependency)) None)
              (sample_read (Some (Ok manifest_one_dependency)) None)
              sample_join error_text Semver.satisfies ConfigConstants.getNodeVersions
              ConfigConstants.NPM_VERSIONS
              (fun _ => Throw (JsError "Error: cannot open the document")) sample_parse
              sample_apply_edit sample_show_document
              (fun _ => Some "Update package.json") "/app" "app" manifest_one_dependency
              [("dep", VStr "^1.0.0")] "18.20.8" "24.0.1"
              (JsError "Error: cannot open the document") []
              (fun v r => or_intror (semver_satisfies_answers v r))
              eq_refl eq_refl eq_refl eq_refl Hne Hparse Hrange
              ltac:(discriminate) ltac:(discriminate) eq_refl eq_refl)
    as (evs & Hquiet & Hrun).
  exists evs. split; [exact Hquiet |].
  do 2 eexists. exact Hrun.
Defined.
